(** * The Python backend of quicktype: name styling and transformer compilation

    A shallow embedding of [src/quicktype-core/language/Python.ts].

    The file follows the source top-down: source fragments ([Sourcelike]),
    the generation monad (renderer state plus [panic]), the value-or-lambda
    algebra ([compose], [makeLambda], [makeValue]), the converter registry
    ([conv], [convFn], [typeObject]), the transformer compiler
    ([transformer], [deserializer], [serializer]), the name stylers
    ([classNameStyle], [snakeNameStyle]) and the run-time helper
    [from_union] that [emitUnionConverter] writes out. *)

From Stdlib Require Import String Ascii List ZArith Bool Lia.
Import ListNotations.
Local Open Scope string_scope.
Local Open Scope list_scope.
Local Set Warnings "-register-all".

(** ** Source fragments *)

(** A [Name] is the handle the name pool gives out for a named type. *)
Inductive Name : Type :=
| MkName (proposed : string).

(** [Sourcelike]: a string, a name, or an array of source fragments. *)
Inductive Sourcelike : Type :=
| Str (s : string)
| Nm (n : Name)
| Arr (items : list Sourcelike).

(** The part of [../Source] that this file imports.  Only the signatures are
    visible from here, so the operations are an interface. *)
Class SourceSupport : Type := {
  MultiWord : Type;
  source : MultiWord -> Sourcelike;
  singleWord : list Sourcelike -> MultiWord;
  multiWord : Sourcelike -> list Sourcelike -> MultiWord;
  parenIfNeeded : MultiWord -> Sourcelike
}.

(** [arrayIntercalate] of collection-utils: the separator between any two
    neighbours. *)
Fixpoint arrayIntercalate {A : Type} (separator : A) (items : list A) : list A :=
  match items with
  | [] => []
  | [x] => [x]
  | x :: rest => x :: separator :: arrayIntercalate separator rest
  end.

(** ** Options of the renderer *)

Inductive PythonVersion : Type := V2 | V3.

Record PythonFeatures : Type := {
  version : PythonVersion;
  typeHints : bool;
  dataClasses : bool
}.

Record PythonOptions : Type := {
  features : PythonFeatures;
  justTypes : bool
}.

(** [pythonOptions.features]: the four selectable feature sets. *)
Definition pythonFeatureTable : list (string * PythonFeatures) :=
  [ ("2.7", {| version := V2; typeHints := false; dataClasses := false |});
    ("3.5", {| version := V3; typeHints := false; dataClasses := false |});
    ("3.6", {| version := V3; typeHints := true; dataClasses := false |});
    ("3.7", {| version := V3; typeHints := true; dataClasses := true |}) ].

(** ** Converter functions *)

Inductive ConverterFunction : Type :=
| CfNone | CfBool | CfInt | CfFromFloat | CfToFloat | CfStr | CfToEnum
| CfList | CfToClass | CfDict | CfUnion | CfFromDatetime | CfIsType.

Definition converterFunctionTag (cf : ConverterFunction) : string :=
  match cf with
  | CfNone => "none"
  | CfBool => "bool"
  | CfInt => "int"
  | CfFromFloat => "from-float"
  | CfToFloat => "to-float"
  | CfStr => "str"
  | CfToEnum => "to-enum"
  | CfList => "list"
  | CfToClass => "to-class"
  | CfDict => "dict"
  | CfUnion => "union"
  | CfFromDatetime => "from-datetime"
  | CfIsType => "is-type"
  end.

Definition ConverterFunction_eqb (a b : ConverterFunction) : bool :=
  String.eqb (converterFunctionTag a) (converterFunctionTag b).

(** ** The generation monad

    The renderer mutates two collections while it compiles: the imports
    ([Map<string, Set<string>>], both insertion-ordered) and the set of
    converter functions in use.  [panic] aborts the generation. *)

Record RenderState : Type := {
  imports : list (string * list string);
  deserializerFunctions : list ConverterFunction
}.

Definition emptyRenderState : RenderState :=
  {| imports := []; deserializerFunctions := [] |}.

Inductive Outcome (A : Type) : Type :=
| Done (a : A)
| Panicked (message : string).
Arguments Done {A} a.
Arguments Panicked {A} message.

Definition Gen (A : Type) : Type := RenderState -> Outcome (A * RenderState).

Definition ret {A : Type} (a : A) : Gen A := fun s => Done (a, s).

Definition bind {A B : Type} (m : Gen A) (k : A -> Gen B) : Gen B :=
  fun s =>
    match m s with
    | Done (a, s') => k a s'
    | Panicked msg => Panicked msg
    end.

Definition panic {A : Type} (message : string) : Gen A :=
  fun _ => Panicked message.

Definition modify (f : RenderState -> RenderState) : Gen unit :=
  fun s => Done (tt, f s).

Notation "x <- m ;; k" := (bind m (fun x => k))
  (at level 61, m at next level, right associativity).
Notation "m ;;; k" := (bind m (fun _ => k))
  (at level 61, right associativity).

Section MapM.
Context {A B : Type}.
Variable f : A -> Gen B.

(** [Array.prototype.map] with an effectful callback: left to right. *)
Fixpoint mapM (items : list A) : Gen (list B) :=
  match items with
  | [] => ret []
  | x :: rest => y <- f x ;; ys <- mapM rest ;; ret (y :: ys)
  end.
End MapM.

(** [mapM] keeps the order and the number of the items: the results are
    those of the calls on the items, one after the other, each call starting
    in the state the one before it left. *)
Inductive RunsInOrder {A B : Type} (f : A -> Gen B)
  : list A -> list B -> RenderState -> RenderState -> Prop :=
| RunsNil (s : RenderState) : RunsInOrder f [] [] s s
| RunsCons (x : A) (y : B) (xs : list A) (ys : list B) (s s1 s2 : RenderState) :
    f x s = Done (y, s1) ->
    RunsInOrder f xs ys s1 s2 ->
    RunsInOrder f (x :: xs) (y :: ys) s s2.

(** A step that only builds source text. *)
Definition pureStep (g : Sourcelike -> Sourcelike) : Sourcelike -> Gen Sourcelike :=
  fun v => ret (g v).

(** ** Value-or-lambda *)

Section ValueOrLambda.
Context `{SourceSupport}.

Record ValueOrLambda : Type := {
  value : option Sourcelike;
  lambda : option MultiWord
}.

Definition makeValue (vol : ValueOrLambda) : Gen Sourcelike :=
  match value vol with
  | None => panic "Cannot make value from lambda without value"
  | Some v =>
      match lambda vol with
      | Some l => ret (Arr [parenIfNeeded l; Str "("; v; Str ")"])
      | None => ret v
      end
  end.

Definition makeLambda (vol : ValueOrLambda) : MultiWord :=
  match lambda vol with
  | Some l =>
      match value vol with
      | None => l
      | Some _ => multiWord (Str "") [Str "lambda x: "; parenIfNeeded l; Str "(x)"]
      end
  | None =>
      match value vol with
      | Some v => multiWord (Str " ") [Str "lambda x:"; v]
      | None => multiWord (Str " ") [Str "lambda x:"; Str "x"]
      end
  end.

(** The second argument of [compose] is either a function on source
    fragments or another value-or-lambda ([typeof f === "function"]). *)
Inductive ComposeArg : Type :=
| Step (f : Sourcelike -> Gen Sourcelike)
| Pending (f : ValueOrLambda).

Definition compose (input : ValueOrLambda) (f : ComposeArg) : Gen ValueOrLambda :=
  match f with
  | Step f =>
      match value input with
      | Some _ =>
          v <- makeValue input ;;
          r <- f v ;;
          ret {| value := Some r; lambda := None |}
      | None =>
          match lambda input with
          | Some l =>
              r <- f (Arr [parenIfNeeded l; Str "(x)"]) ;;
              ret {| value := None;
                     lambda := Some (multiWord (Str " ") [Str "lambda x:"; r]) |}
          | None =>
              r <- f (Str "x") ;;
              ret {| value := None;
                     lambda := Some (multiWord (Str " ") [Str "lambda x:"; r]) |}
          end
      end
  | Pending f =>
      match value f with
      | Some _ => panic "Cannot compose into a value"
      | None =>
          match lambda f with
          | None => ret input
          | Some fl =>
              match value input with
              | None =>
                  match lambda input with
                  | None => ret f
                  | Some il =>
                      ret {| value := None;
                             lambda := Some (multiWord (Str "")
                               [Str "lambda x: "; parenIfNeeded fl; Str "(";
                                parenIfNeeded il; Str "(x))"]) |}
                  end
              | Some _ =>
                  v <- makeValue input ;;
                  ret {| value := Some v; lambda := Some fl |}
              end
          end
      end
  end.

Definition identity : ValueOrLambda := {| value := None; lambda := None |}.

End ValueOrLambda.

(** ** The type graph, as far as this file walks it

    A type is a shape together with an optional transformation attribute
    ([transformationForType]).  Classes and enums are leaves here: the
    compiler only mentions their names.  A transformation carries the
    transformer and target type of both directions ([xf.reverse]). *)

Inductive TransformedStringTypeKind : Type :=
| KDate | KTime | KDateTime | KIntegerString.

Inductive QType : Type :=
| MkType (attribute : option Transformation) (shape : Shape)
with Shape : Type :=
| AnyType
| NullType
| BoolType
| IntegerType
| DoubleType
| StringType
| ArrayType (items : QType)
| ClassType (name : Name)
| MapType (values : QType)
| EnumType (name : Name)
| UnionType (members : list QType)
| TransformedStringType (kind : TransformedStringTypeKind)
with Transformation : Type :=
| MkTransformation (targetType : QType) (xfer : Transformer)
                   (reverseTargetType : QType) (reverseXfer : Transformer)
with Transformer : Type :=
| DecodingChoiceTransformer (sourceType : QType) (transformers : list Transformer)
| ChoiceTransformer (sourceType : QType) (transformers : list Transformer)
| DecodingTransformer (sourceType : QType) (consumer : option Transformer)
| EncodingTransformer (sourceType : QType)
| UnionInstantiationTransformer (sourceType : QType)
| UnionMemberMatchTransformer (sourceType : QType) (consumer : option Transformer)
                              (memberType : QType)
| ParseStringTransformer (sourceType : QType) (consumer : option Transformer)
| StringifyTransformer (sourceType : QType) (consumer : option Transformer)
| OtherTransformer (kind : string) (sourceType : QType).

Definition transformationForType (t : QType) : option Transformation :=
  match t with MkType a _ => a end.

Definition shapeOf (t : QType) : Shape :=
  match t with MkType _ s => s end.

Definition transformedKindTag (k : TransformedStringTypeKind) : string :=
  match k with
  | KDate => "date"
  | KTime => "time"
  | KDateTime => "date-time"
  | KIntegerString => "integer-string"
  end.

(** [t.kind] *)
Definition kindOf (t : QType) : string :=
  match shapeOf t with
  | AnyType => "any"
  | NullType => "null"
  | BoolType => "bool"
  | IntegerType => "integer"
  | DoubleType => "double"
  | StringType => "string"
  | ArrayType _ => "array"
  | ClassType _ => "class"
  | MapType _ => "map"
  | EnumType _ => "enum"
  | UnionType _ => "union"
  | TransformedStringType k => transformedKindTag k
  end.

(** [xfer.sourceType] *)
Definition sourceTypeOf (x : Transformer) : QType :=
  match x with
  | DecodingChoiceTransformer t _ => t
  | ChoiceTransformer t _ => t
  | DecodingTransformer t _ => t
  | EncodingTransformer t => t
  | UnionInstantiationTransformer t => t
  | UnionMemberMatchTransformer t _ _ => t
  | ParseStringTransformer t _ => t
  | StringifyTransformer t _ => t
  | OtherTransformer _ t => t
  end.

(** [PythonTargetLanguage.stringTypeMapping] *)
Definition stringTypeMapping : list (TransformedStringTypeKind * TransformedStringTypeKind) :=
  [ (KDate, KDateTime); (KTime, KDateTime); (KDateTime, KDateTime);
    (KIntegerString, KIntegerString) ].

(** ** Imports and converter registry *)

Definition setUnionInto (s : list string) (names : list string) : list string :=
  fold_left (fun acc n => if existsb (String.eqb n) acc then acc else acc ++ [n]) names s.

Fixpoint mapUpdateInto (m : list (string * list string)) (k : string)
    (f : option (list string) -> list string) : list (string * list string) :=
  match m with
  | [] => [(k, f None)]
  | (k', v) :: rest =>
      if String.eqb k' k then (k', f (Some v)) :: rest
      else (k', v) :: mapUpdateInto rest k f
  end.

Definition setAdd (cf : ConverterFunction) (s : list ConverterFunction) : list ConverterFunction :=
  if existsb (ConverterFunction_eqb cf) s then s else s ++ [cf].

(** [String.prototype.replace] with a one-character pattern: the first
    occurrence only. *)
Fixpoint replaceFirst (c : ascii) (by_ : string) (s : string) : string :=
  match s with
  | EmptyString => EmptyString
  | String a rest =>
      if Ascii.eqb a c then by_ ++ rest else String a (replaceFirst c by_ rest)
  end.

Definition startsWith (s p : string) : bool := String.prefix p s.

Section Registry.
Context `{SourceSupport}.
Variable pyOptions : PythonOptions.

Definition withImport (module name : string) : Gen Sourcelike :=
  (if typeHints (features pyOptions) || negb (String.eqb module "typing") then
     modify (fun s =>
       {| imports := mapUpdateInto (imports s) module
                       (fun o => match o with
                                 | Some names => setUnionInto names [name]
                                 | None => [name]
                                 end);
          deserializerFunctions := deserializerFunctions s |})
   else ret tt) ;;;
  ret (Str name).

Definition withTyping (name : string) : Gen Sourcelike := withImport "typing" name.

Definition conv (cf : ConverterFunction) : Gen Sourcelike :=
  modify (fun s =>
    {| imports := imports s;
       deserializerFunctions := setAdd cf (deserializerFunctions s) |}) ;;;
  let tag := converterFunctionTag cf in
  let name := replaceFirst "-"%char "_" tag in
  if startsWith tag "from-" || startsWith tag "to-" || startsWith tag "is-"
  then ret (Str name)
  else ret (Arr [Str "from_"; Str name]).

Definition convFn (cf : ConverterFunction) (arg : ValueOrLambda) : Gen ValueOrLambda :=
  c <- conv cf ;;
  compose arg (Pending {| value := None; lambda := Some (singleWord [c]) |}).

Definition typeObject (t : QType) : Gen Sourcelike :=
  s <- match shapeOf t with
       | AnyType => ret None
       | NullType => ret (Some (Str "type(None)"))
       | BoolType => ret (Some (Str "bool"))
       | IntegerType => ret (Some (Str "int"))
       | DoubleType => ret (Some (Str "float"))
       | StringType => ret (Some (Str "str"))
       | ArrayType _ => ret (Some (Str "List"))
       | ClassType name => ret (Some (Nm name))
       | MapType _ => ret (Some (Str "dict"))
       | EnumType name => ret (Some (Nm name))
       | UnionType _ => ret None
       | TransformedStringType KDateTime =>
           d <- withImport "datetime" "datetime" ;; ret (Some d)
       | TransformedStringType _ => ret None
       end ;;
  match s with
  | None => panic ("No type object for " ++ kindOf t)
  | Some o => ret o
  end.

(** The body of a union-try call, shared by the choice transformers and
    the union cases of [deserializer] and [serializer]. *)
Definition unionCall (lambdas : list Sourcelike) : Sourcelike -> Gen Sourcelike :=
  fun v =>
    c <- conv CfUnion ;;
    ret (Arr [c; Str "(["; Arr (arrayIntercalate (Str ", ") lambdas); Str "], "; v; Str ")"]).

End Registry.

(** ** The transformer compiler

    [transformer], [deserializer] and [serializer] call each other.  The
    target type never changes along the recursion of [transformer], so its
    body is written once, for a fixed target type, over the two functions it
    calls on types; [deserializer] and [serializer] then recurse on the type
    and [transformer] is that body over them. *)

Section Compiler.
Context `{SourceSupport}.
Variable pyOptions : PythonOptions.

Section TransformerBody.
Variable deserializer serializer : ValueOrLambda -> QType -> Gen ValueOrLambda.
Variable targetType : QType.

Definition isType (t : QType) (valueToCheck : ValueOrLambda) : Gen ValueOrLambda :=
  compose valueToCheck (Step (fun v =>
    c <- conv CfIsType ;;
    o <- typeObject pyOptions t ;;
    ret (Arr [c; Str "("; o; Str ", "; v; Str ")"]))).

Fixpoint transformerBody (inputTransformer : ValueOrLambda) (xfer : Transformer)
    {struct xfer} : Gen ValueOrLambda :=
  let consume (consumer : option Transformer) (vol : ValueOrLambda) :=
    match consumer with
    | None => ret vol
    | Some c => transformerBody vol c
    end in
  match xfer with
  | DecodingChoiceTransformer _ transformers
  | ChoiceTransformer _ transformers =>
      lambdas <- mapM (fun x =>
                         vol <- transformerBody identity x ;;
                         ret (source (makeLambda vol))) transformers ;;
      compose inputTransformer (Step (unionCall lambdas))
  | DecodingTransformer sourceType consumer =>
      vol <- deserializer inputTransformer sourceType ;;
      consume consumer vol
  | EncodingTransformer sourceType =>
      serializer inputTransformer sourceType
  | UnionInstantiationTransformer _ =>
      ret inputTransformer
  | UnionMemberMatchTransformer _ consumer memberType =>
      vol <- isType memberType inputTransformer ;;
      consume consumer vol
  | ParseStringTransformer _ consumer =>
      let immediateTargetType :=
        match consumer with
        | None => targetType
        | Some c => sourceTypeOf c
        end in
      let k := kindOf immediateTargetType in
      if String.eqb k "integer" then
        vol <- compose inputTransformer
                 (Step (pureStep (fun v => Arr [Str "int("; v; Str ")"]))) ;;
        consume consumer vol
      else if String.eqb k "enum" then
        vol <- deserializer inputTransformer immediateTargetType ;;
        consume consumer vol
      else if String.eqb k "date-time" then
        vol <- convFn CfFromDatetime inputTransformer ;;
        consume consumer vol
      else
        panic ("Parsing of " ++ k ++ " in a transformer is not supported")
  | StringifyTransformer sourceType consumer =>
      let k := kindOf sourceType in
      if String.eqb k "integer" then
        vol <- compose inputTransformer
                 (Step (pureStep (fun v => Arr [Str "str("; v; Str ")"]))) ;;
        consume consumer vol
      else if String.eqb k "enum" then
        vol <- serializer inputTransformer sourceType ;;
        consume consumer vol
      else if String.eqb k "date-time" then
        vol <- compose inputTransformer
                 (Step (pureStep (fun v => Arr [v; Str ".isoformat()"]))) ;;
        consume consumer vol
      else
        panic ("Parsing of " ++ k ++ " in a transformer is not supported")
  | OtherTransformer kind _ =>
      panic ("Transformer " ++ kind ++ " is not supported")
  end.
End TransformerBody.

Fixpoint deserializer (value : ValueOrLambda) (t : QType) {struct t} : Gen ValueOrLambda :=
  match t with
  | MkType (Some (MkTransformation targetType xfer _ _)) _ =>
      transformerBody deserializer serializer targetType value xfer
  | MkType None shape =>
      match shape with
      | AnyType => ret value
      | NullType => convFn CfNone value
      | BoolType => convFn CfBool value
      | IntegerType => convFn CfInt value
      | DoubleType => convFn CfFromFloat value
      | StringType => convFn CfStr value
      | ArrayType items =>
          compose value (Step (fun v =>
            c <- conv CfList ;;
            el <- deserializer identity items ;;
            ret (Arr [c; Str "("; source (makeLambda el); Str ", "; v; Str ")"])))
      | ClassType name =>
          compose value
            (Pending {| value := None;
                        lambda := Some (singleWord [Nm name; Str ".from_dict"]) |})
      | MapType values =>
          compose value (Step (fun v =>
            c <- conv CfDict ;;
            el <- deserializer identity values ;;
            ret (Arr [c; Str "("; source (makeLambda el); Str ", "; v; Str ")"])))
      | EnumType name =>
          compose value
            (Pending {| value := None; lambda := Some (singleWord [Nm name]) |})
      | UnionType members =>
          deserializers <- mapM (fun m =>
                                   vol <- deserializer identity m ;;
                                   ret (source (makeLambda vol))) members ;;
          compose value (Step (unionCall deserializers))
      | TransformedStringType KDateTime => convFn CfFromDatetime value
      | TransformedStringType k =>
          panic ("Transformed type " ++ transformedKindTag k ++ " not supported")
      end
  end
with serializer (value : ValueOrLambda) (t : QType) {struct t} : Gen ValueOrLambda :=
  match t with
  | MkType (Some (MkTransformation _ _ reverseTargetType reverseXfer)) _ =>
      transformerBody deserializer serializer reverseTargetType value reverseXfer
  | MkType None shape =>
      match shape with
      | AnyType => ret value
      | NullType => convFn CfNone value
      | BoolType => convFn CfBool value
      | IntegerType => convFn CfInt value
      | DoubleType => convFn CfToFloat value
      | StringType => convFn CfStr value
      | ArrayType items =>
          compose value (Step (fun v =>
            c <- conv CfList ;;
            el <- serializer identity items ;;
            ret (Arr [c; Str "("; source (makeLambda el); Str ", "; v; Str ")"])))
      | ClassType name =>
          compose value (Step (fun v =>
            c <- conv CfToClass ;;
            ret (Arr [c; Str "("; Nm name; Str ", "; v; Str ")"])))
      | MapType values =>
          compose value (Step (fun v =>
            c <- conv CfDict ;;
            el <- serializer identity values ;;
            ret (Arr [c; Str "("; source (makeLambda el); Str ", "; v; Str ")"])))
      | EnumType name =>
          compose value (Step (fun v =>
            c <- conv CfToEnum ;;
            ret (Arr [c; Str "("; Nm name; Str ", "; v; Str ")"])))
      | UnionType members =>
          serializers <- mapM (fun m =>
                                 vol <- serializer identity m ;;
                                 ret (source (makeLambda vol))) members ;;
          compose value (Step (unionCall serializers))
      | TransformedStringType KDateTime =>
          compose value (Step (pureStep (fun v => Arr [v; Str ".isoformat()"])))
      | TransformedStringType k =>
          panic ("Transformed type " ++ transformedKindTag k ++ " not supported")
      end
  end.

Definition transformer (inputTransformer : ValueOrLambda) (xfer : Transformer)
    (targetType : QType) : Gen ValueOrLambda :=
  transformerBody deserializer serializer targetType inputTransformer xfer.

(** The local [consume] of [transformer]. *)
Definition consume (targetType : QType) (consumer : option Transformer)
    (vol : ValueOrLambda) : Gen ValueOrLambda :=
  match consumer with
  | None => ret vol
  | Some c => transformer vol c targetType
  end.

End Compiler.

(** ** Name styling

    A JavaScript string is a sequence of UTF-16 code units. *)

Definition JSString : Type := list Z.

Record WordInName : Type := {
  word : JSString;
  isAcronym : bool
}.

Definition WordStyle : Type := JSString -> JSString.

(** What the JavaScript runtime and the unicode-properties package provide:
    the general category of a code point, NFKC normalization and the two
    case mappings of [String.prototype]. *)
Class UnicodeData : Type := {
  getCategory : Z -> string;
  normalizeNFKC : JSString -> JSString;
  toUpperCase : JSString -> JSString;
  toLowerCase : JSString -> JSString
}.

(** The part of [../support/Strings] that this file imports. *)
Class StringsSupport : Type := {
  splitIntoWords : JSString -> list WordInName;
  combineWords :
    list WordInName -> (JSString -> JSString) ->
    WordStyle -> WordStyle -> WordStyle -> WordStyle ->
    JSString -> (Z -> bool) -> JSString;
  utf16LegalizeCharacters : (Z -> bool) -> JSString -> JSString;
  firstUpperWordStyle : WordStyle;
  allUpperWordStyle : WordStyle;
  allLowerWordStyle : WordStyle;
  isAscii : Z -> bool;
  isLetter : Z -> bool;
  isLetterOrUnderscoreOrDigit : Z -> bool
}.

(** [String.fromCharCode]: the argument is taken modulo 2^16. *)
Definition fromCharCode (utf16Unit : Z) : JSString := [(utf16Unit mod 65536)%Z].

(** [array.indexOf(category) >= 0] *)
Definition memberOf (category : string) (categories : list string) : bool :=
  existsb (String.eqb category) categories.

(** The arguments of one call of [combineWords]. *)
Record CombineWordsCall : Type := {
  cwWords : list WordInName;
  cwRemoveInvalidCharacters : JSString -> JSString;
  cwFirstWordStyle : WordStyle;
  cwRestWordStyle : WordStyle;
  cwFirstWordAcronymStyle : WordStyle;
  cwRestAcronymStyle : WordStyle;
  cwSeparator : JSString;
  cwIsStartCharacter : Z -> bool
}.

Inductive Namer : Type :=
| funPrefixNamer (prefix : string) (nameStyle : JSString -> JSString).

Definition nameStyleOf (n : Namer) : JSString -> JSString :=
  match n with funPrefixNamer _ f => f end.

Section NameStyle.
Context `{UnicodeData} `{StringsSupport}.

Definition isStartCharacter2 (utf16Unit : Z) : bool :=
  isAscii utf16Unit && isLetter utf16Unit.

Definition isPartCharacter2 (utf16Unit : Z) : bool :=
  isAscii utf16Unit && isLetterOrUnderscoreOrDigit utf16Unit.

Definition isNormalizedStartCharacter3 (utf16Unit : Z) : bool :=
  let category := getCategory utf16Unit in
  memberOf category ["Lu"; "Ll"; "Lt"; "Lm"; "Lo"; "Nl"].

Definition isNormalizedPartCharacter3 (utf16Unit : Z) : bool :=
  if isNormalizedStartCharacter3 utf16Unit then true
  else
    let category := getCategory utf16Unit in
    memberOf category ["Mn"; "Mc"; "Nd"; "Pc"].

Definition isStartCharacter3 (utf16Unit : Z) : bool :=
  let s := normalizeNFKC (fromCharCode utf16Unit) in
  match s with
  | [] => false
  | c0 :: rest =>
      if negb (isNormalizedStartCharacter3 c0) then false
      else forallb isNormalizedPartCharacter3 rest
  end.

Definition isPartCharacter3 (utf16Unit : Z) : bool :=
  let s := normalizeNFKC (fromCharCode utf16Unit) in
  forallb isNormalizedPartCharacter3 s.

Definition legalizeName2 : JSString -> JSString :=
  utf16LegalizeCharacters isPartCharacter2.

Definition legalizeName3 : JSString -> JSString :=
  utf16LegalizeCharacters isPartCharacter3.

Definition runCombineWords (c : CombineWordsCall) : JSString :=
  combineWords (cwWords c) (cwRemoveInvalidCharacters c)
    (cwFirstWordStyle c) (cwRestWordStyle c)
    (cwFirstWordAcronymStyle c) (cwRestAcronymStyle c)
    (cwSeparator c) (cwIsStartCharacter c).

Definition classNameStyleCall (version : PythonVersion) (original : JSString)
    : CombineWordsCall :=
  let words := splitIntoWords original in
  {| cwWords := words;
     cwRemoveInvalidCharacters :=
       match version with V2 => legalizeName2 | V3 => legalizeName3 end;
     cwFirstWordStyle := firstUpperWordStyle;
     cwRestWordStyle := firstUpperWordStyle;
     cwFirstWordAcronymStyle := allUpperWordStyle;
     cwRestAcronymStyle := allUpperWordStyle;
     cwSeparator := [];
     cwIsStartCharacter :=
       match version with V2 => isStartCharacter2 | V3 => isStartCharacter3 end |}.

Definition classNameStyle (version : PythonVersion) (original : JSString) : JSString :=
  runCombineWords (classNameStyleCall version original).

Definition snakeNameStyleCall (version : PythonVersion) (original : JSString)
    (uppercase : bool) : CombineWordsCall :=
  let wordStyle := if uppercase then allUpperWordStyle else allLowerWordStyle in
  let words := splitIntoWords original in
  {| cwWords := words;
     cwRemoveInvalidCharacters :=
       match version with V2 => legalizeName2 | V3 => legalizeName3 end;
     cwFirstWordStyle := wordStyle;
     cwRestWordStyle := wordStyle;
     cwFirstWordAcronymStyle := wordStyle;
     cwRestAcronymStyle := wordStyle;
     cwSeparator := [95%Z];
     cwIsStartCharacter := isStartCharacter3 |}.

Definition snakeNameStyle (version : PythonVersion) (original : JSString)
    (uppercase : bool) : JSString :=
  runCombineWords (snakeNameStyleCall version original uppercase).

(** The namers of the renderer. *)
Variable pyOptions : PythonOptions.

Definition makeNamedTypeNamer : Namer :=
  funPrefixNamer "type" (fun s => classNameStyle (version (features pyOptions)) s).

Definition namerForObjectProperty : Namer :=
  funPrefixNamer "property"
    (fun s => snakeNameStyle (version (features pyOptions)) s false).

Definition makeEnumCaseNamer : Namer :=
  funPrefixNamer "enum-case"
    (fun s => snakeNameStyle (version (features pyOptions)) s true).

Definition converterNamer : Namer :=
  funPrefixNamer "converter"
    (fun s => snakeNameStyle (version (features pyOptions)) s false).

End NameStyle.

Definition forbiddenTypeNames : list string :=
  [ "Any"; "True"; "False"; "None"; "Enum"; "List"; "Dict"; "Optional"; "Union";
    "Iterable"; "Type"; "TypeVar"; "T"; "EnumT" ].

Definition forbiddenPropertyNames : list string :=
  [ "and"; "as"; "assert"; "async"; "await"; "bool"; "break"; "class"; "continue";
    "datetime"; "def"; "del"; "dict"; "elif"; "else"; "except"; "finally"; "float";
    "for"; "from"; "global"; "if"; "import"; "in"; "int"; "is"; "lambda"; "nonlocal";
    "not"; "or"; "pass"; "print"; "raise"; "return"; "self"; "str"; "try"; "while";
    "with"; "yield" ].

(** ** The union-try helper of the generated code

    [emitUnionConverter] writes this Python function out verbatim. *)

Definition unionConverterLines : list string :=
  [ "def from_union(fs, x):";
    "    for f in fs:";
    "        try:";
    "            return f(x)";
    "        except:";
    "            pass";
    "    assert False" ].

Section PythonRuntime.
(** Python values, exceptions and whatever part of the interpreter state a
    call can read or change.  A callable takes one argument and either
    raises or returns. *)
Variables Value Exn World : Type.
Variable AssertionError : Exn.

Definition Callable : Type := Value -> World -> (Exn + Value) * World.

(** The [for] loop over [fs]; [try: return f(x)] leaves the function on
    the first call that returns, [except: pass] drops whatever a call
    raised and goes on; [assert False] ends the function when the loop
    runs out. *)
Fixpoint from_union (fs : list Callable) (x : Value) (w : World)
    : (Exn + Value) * World :=
  match fs with
  | [] => (inl AssertionError, w)
  | f :: rest =>
      match f x w with
      | (inr v, w') => (inr v, w')
      | (inl _, w') => from_union rest x w'
      end
  end.

(** Calling every function of [fs] on [x] in turn, each call raising:
    the interpreter state after the last one, if all of them raise. *)
Fixpoint allRaise (fs : list Callable) (x : Value) (w : World) : option World :=
  match fs with
  | [] => Some w
  | f :: rest =>
      match f x w with
      | (inl _, w') => allRaise rest x w'
      | (inr _, _) => None
      end
  end.
End PythonRuntime.

(** ** Instances for running the definitions *)

(** An instance of the [../Source] interface for running the compiler on
    examples: a multi-word is its source and whether it needs parentheses
    when it is applied. *)
Record PlainMultiWord : Type := {
  pmSource : Sourcelike;
  pmNeedsParens : bool
}.

Definition plainMultiWord (separator : Sourcelike) (words : list Sourcelike)
    : PlainMultiWord :=
  match words with
  | [w] => {| pmSource := Arr [w]; pmNeedsParens := false |}
  | _ => {| pmSource := Arr (arrayIntercalate separator words); pmNeedsParens := true |}
  end.

#[export] Instance plainSource : SourceSupport := {|
  MultiWord := PlainMultiWord;
  source := pmSource;
  singleWord := fun items => {| pmSource := Arr items; pmNeedsParens := false |};
  multiWord := plainMultiWord;
  parenIfNeeded := fun m =>
    if pmNeedsParens m then Arr [Str "("; pmSource m; Str ")"] else pmSource m
|}.

(** Flattening a source fragment to text; a name prints as proposed. *)
Fixpoint render (s : Sourcelike) : string :=
  match s with
  | Str x => x
  | Nm (MkName x) => x
  | Arr items =>
      (fix renderAll (l : list Sourcelike) : string :=
         match l with
         | [] => ""
         | x :: rest => (render x ++ renderAll rest)%string
         end) items
  end.

(** The code units of a Rocq string of ASCII characters. *)
Fixpoint utf16 (s : string) : JSString :=
  match s with
  | EmptyString => []
  | String a rest => Z.of_nat (nat_of_ascii a) :: utf16 rest
  end.

Local Open Scope Z_scope.

(** The general categories of Basic Latin (U+0000..U+007F) and of the
    letters block U+00C0..U+00FF of Latin-1, as in the Unicode character
    database.  Other code points are not tabulated here. *)
Definition latinCategory (c : Z) : string :=
  if c <? 0x20 then "Cc" else if c =? 0x20 then "Zs"
  else if c <=? 0x23 then "Po" else if c =? 0x24 then "Sc"
  else if c <=? 0x27 then "Po" else if c =? 0x28 then "Ps"
  else if c =? 0x29 then "Pe" else if c =? 0x2A then "Po"
  else if c =? 0x2B then "Sm" else if c =? 0x2C then "Po"
  else if c =? 0x2D then "Pd" else if c <=? 0x2F then "Po"
  else if c <=? 0x39 then "Nd" else if c <=? 0x3B then "Po"
  else if c <=? 0x3E then "Sm" else if c <=? 0x40 then "Po"
  else if c <=? 0x5A then "Lu" else if c =? 0x5B then "Ps"
  else if c =? 0x5C then "Po" else if c =? 0x5D then "Pe"
  else if c =? 0x5E then "Sk" else if c =? 0x5F then "Pc"
  else if c =? 0x60 then "Sk" else if c <=? 0x7A then "Ll"
  else if c =? 0x7B then "Ps" else if c =? 0x7C then "Sm"
  else if c =? 0x7D then "Pe" else if c =? 0x7E then "Sm"
  else if c =? 0x7F then "Cc"
  else if c <? 0xC0 then "Cn"
  else if c <=? 0xD6 then "Lu" else if c =? 0xD7 then "Sm"
  else if c <=? 0xDE then "Lu" else if c <=? 0xF6 then "Ll"
  else if c =? 0xF7 then "Sm" else if c <=? 0xFF then "Ll"
  else "Cn".

Definition asciiUpper (c : Z) : Z :=
  if (0x61 <=? c) && (c <=? 0x7A) then c - 0x20 else c.

Definition asciiLower (c : Z) : Z :=
  if (0x41 <=? c) && (c <=? 0x5A) then c + 0x20 else c.

(** Unicode data restricted to the tabulated code points: every one of them
    is its own NFKC form; the case mappings act on Basic Latin. *)
#[export] Instance latinData : UnicodeData := {|
  getCategory := latinCategory;
  normalizeNFKC := fun s => s;
  toUpperCase := map asciiUpper;
  toLowerCase := map asciiLower
|}.

Local Close Scope Z_scope.

(** ** The word splitter and combiner, from the specification

    [splitIntoWords], [combineWords], [utf16LegalizeCharacters], the word
    styles and the character predicates are imported from
    [../support/Strings], which is not among the sources.  The definitions
    of this module follow section 4.1 of the specification. *)

Module SpecStrings.
Section Over.
Context `{UnicodeData}.

(** Modelled from the spec: the classes by which [splitIntoWords] of
    [../support/Strings] tells words apart ("upper-case run, lower-case
    run, digit run"), and the characters that belong to no word. *)
Inductive CharClass : Type := Upper | Lower | Digit | NonWord.

(** Modelled from the spec: equality of classes, for the missing
    [splitIntoWords]. *)
Definition CharClass_eqb (a b : CharClass) : bool :=
  match a, b with
  | Upper, Upper | Lower, Lower | Digit, Digit | NonWord, NonWord => true
  | _, _ => false
  end.

(** Modelled from the spec: the class of a character, missing with
    [splitIntoWords]; it goes by "Unicode
    letter/digit/mark category" (step 1); anything else is a
    non-identifier character and breaks words. *)
Definition classOf (c : Z) : CharClass :=
  let category := getCategory c in
  if memberOf category ["Lu"; "Lt"] then Upper
  else if memberOf category ["Ll"; "Lm"; "Lo"; "Mn"; "Mc"; "Me"] then Lower
  else if memberOf category ["Nd"] then Digit
  else NonWord.

(** Modelled from the spec: the first pass of the missing
    [splitIntoWords], the maximal substrings of one class ("a maximal
    substring of the original label classified uniformly"). *)
Fixpoint runs (s : JSString) : list (CharClass * JSString) :=
  match s with
  | [] => []
  | c :: rest =>
    match runs rest with
    | (k, w) :: more =>
        if CharClass_eqb (classOf c) k then (k, c :: w) :: more
        else (classOf c, [c]) :: (k, w) :: more
    | [] => [(classOf c, [c])]
    end
  end.

(** Modelled from the spec: the second pass of the missing
    [splitIntoWords], the words of a label (step 1 and the "Word" entry of
    the data model).  A lower-case run and a digit run are words.
    An upper-case run that a lower-case run follows gives its last letter
    to that run, which makes the capitalised word the scenario
    "Class Name!!" needs; what is left of an upper-case run is an
    acronym. *)
Fixpoint wordsOfRuns (rs : list (CharClass * JSString)) : list WordInName :=
  match rs with
  | [] => []
  | (Upper, u) :: rest =>
    match rest with
    | (Lower, l) :: rest' =>
        (if (1 <? length u)%nat
         then [{| word := removelast u; isAcronym := true |}] else [])
        ++ {| word := last u 0%Z :: l; isAcronym := false |} :: wordsOfRuns rest'
    | _ => {| word := u; isAcronym := true |} :: wordsOfRuns rest
    end
  | (Lower, l) :: rest => {| word := l; isAcronym := false |} :: wordsOfRuns rest
  | (Digit, d) :: rest => {| word := d; isAcronym := false |} :: wordsOfRuns rest
  | (NonWord, _) :: rest => wordsOfRuns rest
  end.

(** Modelled from the spec: [splitIntoWords] of [../support/Strings]. *)
Definition splitIntoWords (s : JSString) : list WordInName := wordsOfRuns (runs s).

(** Modelled from the spec: [utf16LegalizeCharacters] of
    [../support/Strings]; "characters outside it ... are dropped"
    (step 2). *)
Definition utf16LegalizeCharacters (isLegal : Z -> bool) (s : JSString) : JSString :=
  filter isLegal s.

(** Modelled from the spec: [firstUpperWordStyle] of
    [../support/Strings], the "upper-camel" policy of step 3. *)
Definition firstUpperWordStyle (s : JSString) : JSString :=
  match s with
  | [] => []
  | c :: rest => toUpperCase [c] ++ toLowerCase rest
  end.

(** Modelled from the spec: [allUpperWordStyle] of [../support/Strings],
    "uniform upper ... case per word" (step 3). *)
Definition allUpperWordStyle (s : JSString) : JSString := toUpperCase s.

(** Modelled from the spec: [allLowerWordStyle] of [../support/Strings],
    "uniform ... lower case per word" (step 3). *)
Definition allLowerWordStyle (s : JSString) : JSString := toLowerCase s.

(** Modelled from the spec: [isAscii] of [../support/Strings], by its
    name and the "older, ASCII-only grammar". *)
Definition isAscii (c : Z) : bool := (c <? 128)%Z.

(** Modelled from the spec: [isLetter] of [../support/Strings], by its
    name and the "letter category lookup" of the data model. *)
Definition isLetter (c : Z) : bool :=
  memberOf (getCategory c) ["Lu"; "Ll"; "Lt"; "Lo"].

(** Modelled from the spec: the decimal digits, for the missing
    [isLetterOrUnderscoreOrDigit]. *)
Definition isDigit (c : Z) : bool := memberOf (getCategory c) ["Nd"].

(** Modelled from the spec: [isLetterOrUnderscoreOrDigit] of
    [../support/Strings], by its name. *)
Definition isLetterOrUnderscoreOrDigit (c : Z) : bool :=
  isLetter c || (c =? 95)%Z || isDigit c.

(** Modelled from the spec: "joined with" a separator (step 3); part of
    the missing [combineWords]. *)
Fixpoint join (separator : JSString) (ws : list JSString) : JSString :=
  match ws with
  | [] => []
  | [w] => w
  | w :: rest => w ++ separator ++ join separator rest
  end.

(** Modelled from the spec: [combineWords] of [../support/Strings],
    steps 2 to 4.  Every word is legalized and
    the ones that come out empty are left out; the first word takes the
    first-word style and the others the rest style, acronyms their own;
    the words are joined with the separator.  The specification leaves
    the repair of step 4 to the grammar: here an identifier without words
    becomes the word "empty", and one that does not begin with a start
    character gets the word "the" in front. *)
Definition combineWords (ws : list WordInName)
  (removeInvalidCharacters : JSString -> JSString)
  (firstWordStyle restWordStyle firstWordAcronymStyle restAcronymStyle : WordStyle)
  (separator : JSString) (isStartCharacter : Z -> bool) : JSString :=
  let legalize w :=
  {| word := removeInvalidCharacters (word w); isAcronym := isAcronym w |} in
  let kept :=
  filter (fun w => negb (length (word w) =? 0)%nat) (map legalize ws) in
  let legalizedWords :=
  match kept with
  | [] => [{| word := removeInvalidCharacters (utf16 "empty"); isAcronym := false |}]
  | _ => kept
  end in
  let styleRest w :=
  (if isAcronym w then restAcronymStyle else restWordStyle) (word w) in
  match legalizedWords with
  | [] => []
  | first :: rest =>
    let styledFirstWord :=
      (if isAcronym first then firstWordAcronymStyle else firstWordStyle)
        (word first) in
    let startsWell :=
      match styledFirstWord with
      | c :: _ => isStartCharacter c
      | [] => false
      end in
    if startsWell
    then join separator (styledFirstWord :: map styleRest rest)
    else join separator
           (firstWordStyle (removeInvalidCharacters (utf16 "the"))
            :: map styleRest legalizedWords)
  end.
End Over.

(** Modelled from the spec: section 4.1 as one instance of the interface
    the name stylers are written against. *)
#[global] Instance specStrings `{UnicodeData} : StringsSupport :=
  Build_StringsSupport splitIntoWords combineWords utf16LegalizeCharacters
  firstUpperWordStyle allUpperWordStyle allLowerWordStyle
  isAscii isLetter isLetterOrUnderscoreOrDigit.
End SpecStrings.


(** ** Sample inputs *)

Definition options27 : PythonOptions :=
  {| features := {| version := V2; typeHints := false; dataClasses := false |};
     justTypes := false |}.

Definition options36 : PythonOptions :=
  {| features := {| version := V3; typeHints := true; dataClasses := false |};
     justTypes := false |}.

Definition options37 : PythonOptions :=
  {| features := {| version := V3; typeHints := true; dataClasses := true |};
     justTypes := true |}.

(** A type without a transformation. *)
Definition plain (s : Shape) : QType := MkType None s.

(** The value-or-lambda of a variable of the generated code. *)
Definition variable (x : string) : ValueOrLambda :=
  {| value := Some (Str x); lambda := None |}.

(** Branch functions over integers that log their calls. *)
Definition raising (tag : string) : Callable Z string (list string) :=
  fun _ w => (inl "ValueError", w ++ [tag]).

Definition returning (tag : string) (g : Z -> Z) : Callable Z string (list string) :=
  fun x w => (inr (g x), w ++ [tag]).

(** The text of a compiled value-or-lambda and the converters registered
    on the way, or the panic message. *)
Definition rendered (r : Outcome (ValueOrLambda * RenderState))
    : option string * option string * list ConverterFunction + string :=
  match r with
  | Done (vol, st) =>
      inl (option_map render (value vol),
           option_map (fun l => render (source l)) (lambda vol),
           deserializerFunctions st)
  | Panicked message => inr message
  end.

(** * Further definitions *)

(** ** Whole types

    [everyShape ok t]: no type inside [t] carries a transformation and the
    shape of every one of them passes [ok]. *)
Fixpoint everyShape (ok : Shape -> bool) (t : QType) {struct t} : bool :=
  match t with
  | MkType (Some _) _ => false
  | MkType None shape =>
      ok shape &&
      match shape with
      | ArrayType items => everyShape ok items
      | MapType values => everyShape ok values
      | UnionType members => forallb (everyShape ok) members
      | _ => true
      end
  end.

(** The transformed string kind this backend has converters for. *)
Definition isDateTimeOrPlain (s : Shape) : bool :=
  match s with
  | TransformedStringType KDateTime => true
  | TransformedStringType _ => false
  | _ => true
  end.

(** The shapes of decoded JSON whose value the generated code keeps as it
    is: no classes, enums, doubles or transformed strings. *)
Definition isJsonShape (s : Shape) : bool :=
  match s with
  | AnyType | NullType | BoolType | IntegerType | StringType
  | ArrayType _ | MapType _ | UnionType _ => true
  | _ => false
  end.

Definition hasValue `{SourceSupport} (vol : ValueOrLambda) : bool :=
  match value vol with Some _ => true | None => false end.

(** [Map.prototype.get] on the imports. *)
Fixpoint importedFrom (module : string) (m : list (string * list string))
    : option (list string) :=
  match m with
  | [] => None
  | (k, names) :: rest => if String.eqb k module then Some names else importedFrom module rest
  end.

(** The import map after [withImport(module, name)] went through. *)
Definition addImport (module name : string) (m : list (string * list string))
    : list (string * list string) :=
  mapUpdateInto m module
    (fun o => match o with
              | Some names => setUnionInto names [name]
              | None => [name]
              end).

(** What a run of the compiler may do to the renderer state: converter
    functions are added at the end of the set, and the only import it can
    ask for is [datetime] from [datetime]. *)
Definition Extends (s s' : RenderState) : Prop :=
  (exists more, deserializerFunctions s' = deserializerFunctions s ++ more)
  /\ (NoDup (deserializerFunctions s) -> NoDup (deserializerFunctions s'))
  /\ (imports s' = imports s
      \/ imports s' = addImport "datetime" "datetime" (imports s)).

(** Properties of one optional component. *)
Definition optionAll {A : Type} (R : A -> Prop) (o : option A) : Prop :=
  match o with
  | Some a => R a
  | None => True
  end.

(** A computation that, when it returns, has only extended the state. *)
Definition StepOk {A : Type} (m : Gen A) : Prop :=
  forall s r s', m s = Done (r, s') -> Extends s s'.

(** A computation that returns in every state, and one that panics in
    every state with a message of a given kind. *)
Definition Succeeds {A : Type} (m : Gen A) : Prop :=
  forall s, exists a s', m s = Done (a, s').

Definition PanicsWith {A : Type} (M : string -> Prop) (m : Gen A) : Prop :=
  forall s, exists msg, m s = Panicked msg /\ M msg.

Section CompilerNotions.
Context `{SourceSupport}.
Variable o : PythonOptions.

(** A compilation step on [input]: when it returns, the result has a value
    exactly when [input] has one and the state has only been extended. *)
Definition VolOk (input : ValueOrLambda) (m : Gen ValueOrLambda) : Prop :=
  forall s vol s', m s = Done (vol, s') ->
    hasValue vol = hasValue input /\ Extends s s'.

(** Both directions of a type, and a transformer under every target type
    that is itself in order. *)
Definition TypeOk (t : QType) : Prop :=
  forall input, VolOk input (deserializer o input t) /\ VolOk input (serializer o input t).

Definition TransformerOk (x : Transformer) : Prop :=
  forall targetType, TypeOk targetType ->
  forall input, VolOk input (transformer o input x targetType).

(** The panic of a transformed string type without converter. *)
Definition unsupportedMessage (msg : string) : Prop :=
  exists k, k <> KDateTime
            /\ msg = ("Transformed type " ++ transformedKindTag k ++ " not supported")%string.

(** A type without transformations compiles in both directions when all
    its transformed strings are date-times, and panics otherwise. *)
Definition OutcomeOf (t : QType) : Prop :=
  everyShape (fun _ => true) t = true ->
  forall input,
    if everyShape isDateTimeOrPlain t
    then Succeeds (deserializer o input t) /\ Succeeds (serializer o input t)
    else PanicsWith unsupportedMessage (deserializer o input t)
         /\ PanicsWith unsupportedMessage (serializer o input t).

End CompilerNotions.

(** ** The converters of the generated code

    The other functions that [emitConverter] writes out, over a model of
    the Python values that [json.loads] returns.  Integers are those of
    Python 3; [PyUnicode] is the second string type of Python 2.  A
    dictionary is the list of its items in iteration order. *)

Section PythonConverters.
Variables Float Exn World : Type.
Variable AssertionError : Exn.
(** [float(x)] on an integer: a float, or the overflow error. *)
Variable floatOfInt : Z -> Exn + Float.

Inductive PyValue : Type :=
| PyNone
| PyBool (b : bool)
| PyInt (n : Z)
| PyFloat (x : Float)
| PyStr (s : string)
| PyUnicode (s : string)
| PyList (items : list PyValue)
| PyDict (items : list (PyValue * PyValue)).

Definition PyCallable : Type := Callable PyValue Exn World.

(** [isinstance(x, bool)]; [isinstance(x, int)], where a [bool] is an
    [int] too; [isinstance(x, float)]. *)
Definition isBool (x : PyValue) : bool :=
  match x with PyBool _ => true | _ => false end.

Definition isInt (x : PyValue) : bool :=
  match x with PyInt _ | PyBool _ => true | _ => false end.

Definition isFloat (x : PyValue) : bool :=
  match x with PyFloat _ => true | _ => false end.

(** [assert c] followed by [return x]. *)
Definition assertReturn (c : bool) (x : PyValue) : PyCallable :=
  fun _ w => if c then (inr x, w) else (inl AssertionError, w).

(** [emitNoneConverter]: [assert x is None; return x]. *)
Definition from_none : PyCallable :=
  fun x => assertReturn (match x with PyNone => true | _ => false end) x x.

(** [emitBoolConverter]: [assert isinstance(x, bool); return x]. *)
Definition from_bool : PyCallable :=
  fun x => assertReturn (isBool x) x x.

(** [emitIntConverter]:
    [assert isinstance(x, int) and not isinstance(x, bool); return x]. *)
Definition from_int : PyCallable :=
  fun x => assertReturn (isInt x && negb (isBool x)) x x.

(** [emitFromFloatConverter]:
    [assert isinstance(x, (float, int)) and not isinstance(x, bool);
     return float(x)]. *)
Definition from_float : PyCallable :=
  fun x w =>
    if (isFloat x || isInt x) && negb (isBool x) then
      match x with
      | PyInt n =>
          match floatOfInt n with
          | inr f => (inr (PyFloat f), w)
          | inl e => (inl e, w)
          end
      | _ => (inr x, w)
      end
    else (inl AssertionError, w).

(** [emitToFloatConverter]: [assert isinstance(x, float); return x]. *)
Definition to_float : PyCallable :=
  fun x => assertReturn (isFloat x) x x.

(** [emitStrConverter]: [assert isinstance(x, strType); return x], where
    [strType] is [(str, unicode)] for version 2 and [str] otherwise. *)
Definition from_str (version : PythonVersion) : PyCallable :=
  fun x =>
    assertReturn
      (match version, x with
       | _, PyStr _ => true
       | V2, PyUnicode _ => true
       | _, _ => false
       end) x x.

(** [[f(y) for y in x]]: the calls in order, up to the first that raises. *)
Fixpoint callEach (f : PyCallable) (ys : list PyValue) (w : World)
    : (Exn + list PyValue) * World :=
  match ys with
  | [] => (inr [], w)
  | y :: rest =>
      match f y w with
      | (inl e, w1) => (inl e, w1)
      | (inr v, w1) =>
          match callEach f rest w1 with
          | (inl e, w2) => (inl e, w2)
          | (inr vs, w2) => (inr (v :: vs), w2)
          end
      end
  end.

(** [emitListConverter]:
    [assert isinstance(x, list); return [f(y) for y in x]]. *)
Definition from_list (f : PyCallable) : PyCallable :=
  fun x w =>
    match x with
    | PyList ys =>
        match callEach f ys w with
        | (inr vs, w1) => (inr (PyList vs), w1)
        | (inl e, w1) => (inl e, w1)
        end
    | _ => (inl AssertionError, w)
    end.

(** [{ k: f(v) for (k, v) in x.items() }] *)
Fixpoint callEachValue (f : PyCallable) (items : list (PyValue * PyValue)) (w : World)
    : (Exn + list (PyValue * PyValue)) * World :=
  match items with
  | [] => (inr [], w)
  | (k, v) :: rest =>
      match f v w with
      | (inl e, w1) => (inl e, w1)
      | (inr v', w1) =>
          match callEachValue f rest w1 with
          | (inl e, w2) => (inl e, w2)
          | (inr items', w2) => (inr ((k, v') :: items'), w2)
          end
      end
  end.

(** [emitDictConverter]:
    [assert isinstance(x, dict); return { k: f(v) for (k, v) in x.items() }]. *)
Definition from_dict (f : PyCallable) : PyCallable :=
  fun x w =>
    match x with
    | PyDict items =>
        match callEachValue f items w with
        | (inr items', w1) => (inr (PyDict items'), w1)
        | (inl e, w1) => (inl e, w1)
        end
    | _ => (inl AssertionError, w)
    end.

(** A converter that checks and does nothing else: it returns its argument
    or raises, and leaves the interpreter state alone. *)
Definition Checks (f : PyCallable) : Prop :=
  forall x w, f x w = (inr x, w) \/ exists e, f x w = (inl e, w).

End PythonConverters.

(** ** Emitting the support code

    The emitters talk to the rendering layer through [emitLine], [indent],
    [emitMultiline] and [ensureBlankLine].  What that layer does with a call
    is not this file's business: an emitter is modelled by the calls it
    makes, in order, each with the depth of [indent] it is made at, together
    with the fields of the renderer it changes. *)

Inductive SurfaceCall : Type :=
| EmitLine (depth : nat) (parts : list Sourcelike)
| EmitMultiline (depth : nat) (linesString : list string)
| EnsureBlankLine (depth : nat) (numBlankLines : nat).

Record EmitState : Type := {
  renderState : RenderState;
  haveTypeVar : bool;
  haveEnumTypeVar : bool;
  haveDateutil : bool;
  depth : nat;
  calls : list SurfaceCall
}.

Definition initialEmitState : EmitState :=
  {| renderState := emptyRenderState;
     haveTypeVar := false; haveEnumTypeVar := false; haveDateutil := false;
     depth := 0; calls := [] |}.

Definition Emit (A : Type) : Type := EmitState -> Outcome (A * EmitState).

Definition emitRet {A : Type} (a : A) : Emit A := fun s => Done (a, s).

Definition emitBind {A B : Type} (m : Emit A) (k : A -> Emit B) : Emit B :=
  fun s =>
    match m s with
    | Done (a, s') => k a s'
    | Panicked msg => Panicked msg
    end.

Notation "x <~ m ;; k" := (emitBind m (fun x => k))
  (at level 61, m at next level, right associativity).
Notation "m ;;~ k" := (emitBind m (fun _ => k))
  (at level 61, right associativity).

(** A computation on the imports and the converter set, run inside an
    emitter. *)
Definition liftGen {A : Type} (m : Gen A) : Emit A :=
  fun s =>
    match m (renderState s) with
    | Done (a, r) =>
        Done (a, {| renderState := r;
                    haveTypeVar := haveTypeVar s;
                    haveEnumTypeVar := haveEnumTypeVar s;
                    haveDateutil := haveDateutil s;
                    depth := depth s;
                    calls := calls s |})
    | Panicked msg => Panicked msg
    end.

Definition record (c : nat -> SurfaceCall) : Emit unit :=
  fun s =>
    Done (tt, {| renderState := renderState s;
                 haveTypeVar := haveTypeVar s;
                 haveEnumTypeVar := haveEnumTypeVar s;
                 haveDateutil := haveDateutil s;
                 depth := depth s;
                 calls := calls s ++ [c (depth s)] |}).

Definition emitLine (parts : list Sourcelike) : Emit unit :=
  record (fun d => EmitLine d parts).

Definition emitMultiline (linesString : list string) : Emit unit :=
  record (fun d => EmitMultiline d linesString).

Definition ensureBlankLine (numBlankLines : nat) : Emit unit :=
  record (fun d => EnsureBlankLine d numBlankLines).

Definition setDepth (d : nat) : Emit unit :=
  fun s =>
    Done (tt, {| renderState := renderState s;
                 haveTypeVar := haveTypeVar s;
                 haveEnumTypeVar := haveEnumTypeVar s;
                 haveDateutil := haveDateutil s;
                 depth := d;
                 calls := calls s |}).

(** [indent(f)]: [f] runs one level deeper. *)
Definition indent (f : Emit unit) : Emit unit :=
  fun s => (setDepth (S (depth s)) ;;~ f ;;~ setDepth (depth s)) s.

Definition setFlags (tv etv du : bool -> bool) : Emit unit :=
  fun s =>
    Done (tt, {| renderState := renderState s;
                 haveTypeVar := tv (haveTypeVar s);
                 haveEnumTypeVar := etv (haveEnumTypeVar s);
                 haveDateutil := du (haveDateutil s);
                 depth := depth s;
                 calls := calls s |}).

Definition keep (b : bool) : bool := b.
Definition setTrue (_ : bool) : bool := true.

(** The one-character string of a double quote. *)
Definition doubleQuote : string := String (ascii_of_nat 34) EmptyString.

Section Emitters.
Context `{SourceSupport}.
Variable pyOptions : PythonOptions.
(** [stringEscape] of [../support/Strings]. *)
Variable stringEscape : string -> string.

Definition emitBlock (line : Sourcelike) (f : Emit unit) : Emit unit :=
  emitLine [line] ;;~ indent f.

(** [string(s)] *)
Definition pythonString (s : string) : Sourcelike :=
  let openQuote :=
    match version (features pyOptions) with
    | V2 => String "u" doubleQuote
    | V3 => doubleQuote
    end in
  Arr [Str openQuote; Str (stringEscape s); Str doubleQuote].

Definition typeHint (sl : list Sourcelike) : Sourcelike :=
  if typeHints (features pyOptions) then Arr sl else Arr [].

Definition typingDecl (name : Sourcelike) (type : string) : Gen Sourcelike :=
  t <- withTyping pyOptions type ;;
  ret (Arr [name; typeHint [Str ": "; t]]).

Definition typingReturn (type : string) : Gen Sourcelike :=
  t <- withTyping pyOptions type ;;
  ret (typeHint [Str " -> "; t]).

Definition emitTypeVar (tvar : string) (constraints : Sourcelike) : Emit unit :=
  if negb (typeHints (features pyOptions)) then emitRet tt
  else
    t <~ liftGen (withTyping pyOptions "TypeVar") ;;
    emitLine [Str tvar; Str " = "; t; Str "("; pythonString tvar; constraints; Str ")"].

Definition typeVar : Emit string :=
  setFlags setTrue keep keep ;;~
  liftGen (withTyping pyOptions "TypeVar") ;;~
  emitRet "T".

Definition enumTypeVar : Emit string :=
  setFlags keep setTrue keep ;;~
  liftGen (withTyping pyOptions "TypeVar") ;;~
  liftGen (withImport pyOptions "enum" "Enum") ;;~
  emitRet "EnumT".

Definition cast (type v : Sourcelike) : Gen Sourcelike :=
  if negb (typeHints (features pyOptions)) then ret v
  else
    c <- withTyping pyOptions "cast" ;;
    ret (Arr [c; Str "("; type; Str ", "; v; Str ")"]).

(** The head of a converter without type variable:
    [def name(x: Any) -> result:]. *)
Definition plainHead (name : string) (result : list Sourcelike) : Gen Sourcelike :=
  d <- typingDecl (Str "x") "Any" ;;
  ret (Arr [Str name; d; Str ")"; typeHint result; Str ":"]).

Definition emitNoneConverter : Emit unit :=
  head <~ liftGen (d <- typingDecl (Str "x") "Any" ;;
                   a <- withTyping pyOptions "Any" ;;
                   ret (Arr [Str "def from_none("; d; Str ")";
                             typeHint [Str " -> "; a]; Str ":"])) ;;
  emitBlock head
    (emitLine [Str "assert x is None"] ;;~
     emitLine [Str "return x"]).

Definition emitBoolConverter : Emit unit :=
  head <~ liftGen (plainHead "def from_bool(" [Str " -> bool"]) ;;
  emitBlock head
    (emitLine [Str "assert isinstance(x, bool)"] ;;~
     emitLine [Str "return x"]).

Definition emitIntConverter : Emit unit :=
  head <~ liftGen (plainHead "def from_int(" [Str " -> int"]) ;;
  emitBlock head
    (emitLine [Str "assert isinstance(x, int) and not isinstance(x, bool)"] ;;~
     emitLine [Str "return x"]).

Definition emitFromFloatConverter : Emit unit :=
  head <~ liftGen (plainHead "def from_float(" [Str " -> float"]) ;;
  emitBlock head
    (emitLine [Str "assert isinstance(x, (float, int)) and not isinstance(x, bool)"] ;;~
     emitLine [Str "return float(x)"]).

Definition emitToFloatConverter : Emit unit :=
  head <~ liftGen (plainHead "def to_float(" [Str " -> float"]) ;;
  emitBlock head
    (emitLine [Str "assert isinstance(x, float)"] ;;~
     emitLine [Str "return x"]).

Definition emitStrConverter : Emit unit :=
  head <~ liftGen (plainHead "def from_str(" [Str " -> str"]) ;;
  emitBlock head
    (let strType :=
       match version (features pyOptions) with
       | V2 => "(str, unicode)"
       | V3 => "str"
       end in
     emitLine [Str "assert isinstance(x, "; Str strType; Str ")"] ;;~
     emitLine [Str "return x"]).

Definition emitToEnumConverter : Emit unit :=
  tvar <~ enumTypeVar ;;
  head <~ liftGen (ty <- withTyping pyOptions "Type" ;;
                   d <- typingDecl (Str "x") "Any" ;;
                   ret (Arr [Str "def to_enum(c";
                             typeHint [Str ": "; ty; Str "["; Str tvar; Str "]"];
                             Str ", "; d; Str ")";
                             typeHint [Str " -> "; Str tvar]; Str ":"])) ;;
  emitBlock head
    (emitLine [Str "assert isinstance(x, c)"] ;;~
     emitLine [Str "return x.value"]).

Definition emitListConverter : Emit unit :=
  tvar <~ typeVar ;;
  head <~ liftGen (callable <- withTyping pyOptions "Callable" ;;
                   any <- withTyping pyOptions "Any" ;;
                   d <- typingDecl (Str "x") "Any" ;;
                   list <- withTyping pyOptions "List" ;;
                   ret (Arr [Str "def from_list(f";
                             typeHint [Str ": "; callable; Str "[["; any; Str "], ";
                                       Str tvar; Str "]"];
                             Str ", "; d; Str ")";
                             typeHint [Str " -> "; list; Str "["; Str tvar; Str "]"];
                             Str ":"])) ;;
  emitBlock head
    (emitLine [Str "assert isinstance(x, list)"] ;;~
     emitLine [Str "return [f(y) for y in x]"]).

Definition emitToClassConverter : Emit unit :=
  tvar <~ typeVar ;;
  head <~ liftGen (ty <- withTyping pyOptions "Type" ;;
                   d <- typingDecl (Str "x") "Any" ;;
                   ret (Arr [Str "def to_class(c";
                             typeHint [Str ": "; ty; Str "["; Str tvar; Str "]"];
                             Str ", "; d; Str ")";
                             typeHint [Str " -> dict"]; Str ":"])) ;;
  emitBlock head
    (emitLine [Str "assert isinstance(x, c)"] ;;~
     c <~ liftGen (any <- withTyping pyOptions "Any" ;; cast any (Str "x")) ;;
     emitLine [Str "return "; c; Str ".to_dict()"]).

Definition emitDictConverter : Emit unit :=
  tvar <~ typeVar ;;
  head <~ liftGen (callable <- withTyping pyOptions "Callable" ;;
                   any <- withTyping pyOptions "Any" ;;
                   d <- typingDecl (Str "x") "Any" ;;
                   dict <- withTyping pyOptions "Dict" ;;
                   ret (Arr [Str "def from_dict(f";
                             typeHint [Str ": "; callable; Str "[["; any; Str "], ";
                                       Str tvar; Str "]"];
                             Str ", "; d; Str ")";
                             typeHint [Str " -> "; dict; Str "[str, "; Str tvar; Str "]"];
                             Str ":"])) ;;
  emitBlock head
    (emitLine [Str "assert isinstance(x, dict)"] ;;~
     emitLine [Str "return { k: f(v) for (k, v) in x.items() }"]).

Definition emitUnionConverter : Emit unit :=
  emitMultiline unionConverterLines.

Definition emitFromDatetimeConverter : Emit unit :=
  head <~ liftGen (d <- typingDecl (Str "x") "Any" ;;
                   dt <- withImport pyOptions "datetime" "datetime" ;;
                   ret (Arr [Str "def from_datetime("; d; Str ")";
                             typeHint [Str " -> "; dt]; Str ":"])) ;;
  emitBlock head
    (setFlags keep keep setTrue ;;~
     emitLine [Str "return dateutil.parser.parse(x)"]).

Definition emitIsTypeConverter : Emit unit :=
  tvar <~ typeVar ;;
  head <~ liftGen (ty <- withTyping pyOptions "Type" ;;
                   d <- typingDecl (Str "x") "Any" ;;
                   ret (Arr [Str "def is_type(t";
                             typeHint [Str ": "; ty; Str "["; Str tvar; Str "]"];
                             Str ", "; d; Str ")";
                             typeHint [Str " -> "; Str tvar]; Str ":"])) ;;
  emitBlock head
    (emitLine [Str "assert isinstance(x, t)"] ;;~
     emitLine [Str "return x"]).

Definition emitConverter (cf : ConverterFunction) : Emit unit :=
  match cf with
  | CfNone => emitNoneConverter
  | CfBool => emitBoolConverter
  | CfInt => emitIntConverter
  | CfFromFloat => emitFromFloatConverter
  | CfToFloat => emitToFloatConverter
  | CfStr => emitStrConverter
  | CfToEnum => emitToEnumConverter
  | CfList => emitListConverter
  | CfToClass => emitToClassConverter
  | CfDict => emitDictConverter
  | CfUnion => emitUnionConverter
  | CfFromDatetime => emitFromDatetimeConverter
  | CfIsType => emitIsTypeConverter
  end.

(** [forEachWithBlankLines] of the rendering layer is not in this file:
    [emitSupportCode] takes it as it finds it.  It gets the entries, the
    blank line configuration and the emitter, which it calls with the value
    and the key of an entry. *)
Variable forEachWithBlankLines :
  forall K V : Type, list (K * V) -> string * nat -> (V -> K -> Emit unit) -> Emit unit.

(** [JSONPythonRenderer.emitSupportCode]: the set is copied before the
    emitters run. *)
Definition emitSupportCode : Emit unit :=
  fun s =>
    let map := map (fun f => (f, f)) (deserializerFunctions (renderState s)) in
    forEachWithBlankLines _ _ map ("interposing", 2) (fun cf _ => emitConverter cf) s.

Fixpoint emitEach {A : Type} (emitter : A -> Emit unit) (items : list A) : Emit unit :=
  match items with
  | [] => emitRet tt
  | x :: rest => emitter x ;;~ emitEach emitter rest
  end.

(** [PythonRenderer.emitImports]: one line for every module of the map.
    The callback does not touch the map. *)
Definition emitImportsBase : Emit unit :=
  fun s =>
    emitEach (fun entry =>
                emitLine [Str "from "; Str (fst entry); Str " import ";
                          Str (String.concat ", " (snd entry))])
             (imports (renderState s)) s.

(** [JSONPythonRenderer.emitImports] *)
Definition emitImports : Emit unit :=
  emitImportsBase ;;~
  (fun s => (if haveDateutil s then emitLine [Str "import dateutil.parser"]
             else emitRet tt) s) ;;~
  (fun s =>
     if negb (haveTypeVar s) && negb (haveEnumTypeVar s) then emitRet tt s
     else
       (ensureBlankLine 2 ;;~
        (fun s1 => (if haveTypeVar s1
                    then tvar <~ typeVar ;; emitTypeVar tvar (Arr [])
                    else emitRet tt) s1) ;;~
        (fun s2 => (if haveEnumTypeVar s2
                    then tvar <~ enumTypeVar ;;
                         e <~ liftGen (withImport pyOptions "enum" "Enum") ;;
                         emitTypeVar tvar (Arr [Str ", bound="; e])
                    else emitRet tt) s2)) s).

End Emitters.

(** [name] is among the names recorded for [module]. *)
Definition imported (module name : string) (m : list (string * list string)) : Prop :=
  exists names, importedFrom module m = Some names /\ In name names.

(** The imports map is a map of sets: no module twice, no name twice. *)
Definition wellFormedImports (m : list (string * list string)) : Prop :=
  NoDup (map fst m) /\ Forall (fun entry => NoDup (snd entry)) m.

(** What the type variable flags promise: when one of them is set (and type
    hints are on) [TypeVar] has been imported from [typing], and when the
    flag of the enum type variable is set [Enum] has been imported from
    [enum]. *)
Definition TypeVarsRecorded (o : PythonOptions) (s : EmitState) : Prop :=
  (haveTypeVar s = true \/ haveEnumTypeVar s = true ->
   typeHints (features o) = true ->
   imported "typing" "TypeVar" (imports (renderState s)))
  /\ (haveEnumTypeVar s = true -> imported "enum" "Enum" (imports (renderState s))).

(** The text a call starts with. *)
Definition headText (c : SurfaceCall) : string :=
  match c with
  | EmitLine _ parts => render (Arr parts)
  | EmitMultiline _ (l :: _) => l
  | _ => ""
  end.

(** [s'] has the imports of [s] and possibly more. *)
Definition importsGrow (s s' : RenderState) : Prop :=
  forall m n, imported m n (imports s) -> imported m n (imports s').

(** A computation on the imports that returns something with [R], keeps the
    converter set and only adds imports. *)
Definition GenOk {A : Type} (R : A -> Prop) (g : Gen A) : Prop :=
  forall rs, exists a rs',
    g rs = Done (a, rs') /\ R a
    /\ deserializerFunctions rs' = deserializerFunctions rs
    /\ importsGrow rs rs'.

(** An emitter that, started in a state with [I], returns something with
    [R] after adding calls at the end of the calls made so far; it is back
    at its depth, has registered no converter, has only added imports and
    has kept [I]. *)
Definition Runs (I : EmitState -> Prop) {A : Type} (R : A -> Prop) (m : Emit A)
    : Prop :=
  forall s, I s ->
    exists a s' more,
      m s = Done (a, s') /\ R a
      /\ calls s' = calls s ++ more
      /\ depth s' = depth s
      /\ deserializerFunctions (renderState s') = deserializerFunctions (renderState s)
      /\ importsGrow (renderState s) (renderState s')
      /\ I s'.

(** The same for an emitter that makes no call. *)
Definition RunsQuietly (I : EmitState -> Prop) {A : Type} (R : A -> Prop) (m : Emit A)
    : Prop :=
  forall s, I s ->
    exists a s',
      m s = Done (a, s') /\ R a
      /\ calls s' = calls s
      /\ depth s' = depth s
      /\ deserializerFunctions (renderState s') = deserializerFunctions (renderState s)
      /\ importsGrow (renderState s) (renderState s')
      /\ I s'.

(** A property of states that does not look at the calls, the depth or the
    dateutil flag, and survives further imports. *)
Definition Stable (I : EmitState -> Prop) : Prop :=
  forall s s',
    I s ->
    haveTypeVar s' = haveTypeVar s ->
    haveEnumTypeVar s' = haveEnumTypeVar s ->
    importsGrow (renderState s) (renderState s') ->
    I s'.

(** An emitter whose first call starts with [text]. *)
Definition Defines (I : EmitState -> Prop) (text : string) (m : Emit unit) : Prop :=
  forall s, I s ->
    exists s' first rest,
      m s = Done (tt, s')
      /\ calls s' = calls s ++ first :: rest
      /\ startsWith (headText first) text = true
      /\ depth s' = depth s
      /\ deserializerFunctions (renderState s') = deserializerFunctions (renderState s)
      /\ importsGrow (renderState s) (renderState s')
      /\ I s'.

(** The Python name of a converter function, as [conv] returns it. *)
Definition converterName (cf : ConverterFunction) : string :=
  match conv cf emptyRenderState with
  | Done (r, _) => render r
  | Panicked _ => ""
  end.

(** The line of [emitImports] for one entry of the imports. *)
Definition importLine (d : nat) (entry : string * list string) : SurfaceCall :=
  EmitLine d [Str "from "; Str (fst entry); Str " import ";
              Str (String.concat ", " (snd entry))].

(** The state [s] after further calls, everything else as it was. *)
Definition afterCalls (s : EmitState) (more : list SurfaceCall) : EmitState :=
  {| renderState := renderState s;
     haveTypeVar := haveTypeVar s;
     haveEnumTypeVar := haveEnumTypeVar s;
     haveDateutil := haveDateutil s;
     depth := depth s;
     calls := calls s ++ more |}.

(** The calls of a converter's definition: what [emitConverter] adds for
    it in some state, starting with its [def]. *)
Definition definitionOf (o : PythonOptions) (cf : ConverterFunction)
    (block : list SurfaceCall) : Prop :=
  (exists first rest,
     block = first :: rest
     /\ startsWith (headText first) ("def " ++ converterName cf ++ "(") = true)
  /\ (exists s s', emitConverter o cf s = Done (tt, s')
                   /\ calls s' = calls s ++ block).

(** Calls that define the converters of a list one after the other, with
    requests for blank lines before, between and after them and nothing
    else. *)
Inductive DefinesInOrder (o : PythonOptions)
  : list ConverterFunction -> list SurfaceCall -> Prop :=
| DefinesNone : DefinesInOrder o [] []
| DefinesBlankLine (d n : nat) (cfs : list ConverterFunction) (more : list SurfaceCall) :
    DefinesInOrder o cfs more ->
    DefinesInOrder o cfs (EnsureBlankLine d n :: more)
| DefinesConverter (cf : ConverterFunction) (cfs : list ConverterFunction)
    (block more : list SurfaceCall) :
    definitionOf o cf block ->
    DefinesInOrder o cfs more ->
    DefinesInOrder o (cf :: cfs) (block ++ more).

(** A run that calls the emitter on the entries in order and, before,
    between and after these calls, only asks for blank lines. *)
Inductive Iterates {K V : Type} (emitter : V -> K -> Emit unit)
  : list (K * V) -> EmitState -> EmitState -> Prop :=
| IteratesDone (s : EmitState) : Iterates emitter [] s s
| IteratesBlankLine (n : nat) (entries : list (K * V)) (s s' : EmitState) :
    Iterates emitter entries (afterCalls s [EnsureBlankLine (depth s) n]) s' ->
    Iterates emitter entries s s'
| IteratesEntry (k : K) (v : V) (rest : list (K * V)) (s s1 s' : EmitState) :
    emitter v k s = Done (tt, s1) ->
    Iterates emitter rest s1 s' ->
    Iterates emitter ((k, v) :: rest) s s'.

(** What is assumed of [forEachWithBlankLines]: with an emitter that
    returns on every entry it returns, and its run is of this kind. *)
Definition IteratesWithBlankLines
    (forEach : forall K V : Type,
        list (K * V) -> string * nat -> (V -> K -> Emit unit) -> Emit unit) : Prop :=
  forall (K V : Type) (entries : list (K * V)) (config : string * nat)
         (emitter : V -> K -> Emit unit) (s : EmitState),
    (forall k v s0, exists s1, emitter v k s0 = Done (tt, s1)) ->
    exists s', forEach K V entries config emitter s = Done (tt, s')
               /\ Iterates emitter entries s s'.

(** The declaration of a type variable as [emitTypeVar] writes it when
    [TypeVar] needs no new import. *)
Definition typeVarLine (o : PythonOptions) (stringEscape : string -> string)
    (d : nat) (tvar : string) (constraints : Sourcelike) : SurfaceCall :=
  EmitLine d [Str tvar; Str " = "; Str "TypeVar"; Str "(";
              pythonString o stringEscape tvar; constraints; Str ")"].

(** What follows the import lines: the import of dateutil when the flag is
    set and, when a type variable is in use, a request for blank lines and
    the declarations of the type variables (with type hints only). *)
Definition afterImports (o : PythonOptions) (stringEscape : string -> string)
    (s : EmitState) : list SurfaceCall :=
  (if haveDateutil s then [EmitLine (depth s) [Str "import dateutil.parser"]] else [])
  ++ (if negb (haveTypeVar s) && negb (haveEnumTypeVar s) then []
      else
        EnsureBlankLine (depth s) 2
        :: (if haveTypeVar s && typeHints (features o)
            then [typeVarLine o stringEscape (depth s) "T" (Arr [])] else [])
        ++ (if haveEnumTypeVar s && typeHints (features o)
            then [typeVarLine o stringEscape (depth s) "EnumT"
                    (Arr [Str ", bound="; Str "Enum"])]
            else [])).

(** ** The target language

    [PythonTargetLanguage.needsTransformerForType] *)
Fixpoint needsTransformerForType (t : QType) {struct t} : bool :=
  match t with
  | MkType _ (UnionType members) => existsb needsTransformerForType members
  | _ => String.eqb (kindOf t) "integer-string"
  end.

(** ** What the compiled converters do

    [deserializer] and [serializer] compile a type to an expression over
    the converter functions: [from_list(from_int, v)] for an array of
    integers.  [deserializerOf] and [serializerOf] are the functions these
    expressions denote, case by case as in the two compilers, for the types
    whose converters are among the functions above.  Classes and enums are
    converted by the generated classes, date-times by [dateutil], and a type
    with a transformation by its transformer: these have no denotation
    here. *)

Section GeneratedConverters.
Variables Float Exn World : Type.
Variable AssertionError : Exn.
Variable floatOfInt : Z -> Exn + Float.
Variable version : PythonVersion.

Local Abbreviation PyValue := (PyValue Float).
Local Abbreviation PyCallable := (PyCallable Float Exn World).

(** [_anyType => value]: the value as it is. *)
Definition passThrough : PyCallable := fun x w => (inr x, w).

Fixpoint allSome {A : Type} (l : list (option A)) : option (list A) :=
  match l with
  | [] => Some []
  | Some a :: rest => option_map (cons a) (allSome rest)
  | None :: _ => None
  end.

Fixpoint deserializerOf (t : QType) {struct t} : option PyCallable :=
  match t with
  | MkType (Some _) _ => None
  | MkType None shape =>
      match shape with
      | AnyType => Some passThrough
      | NullType => Some (from_none Float Exn World AssertionError)
      | BoolType => Some (from_bool Float Exn World AssertionError)
      | IntegerType => Some (from_int Float Exn World AssertionError)
      | DoubleType => Some (from_float Float Exn World AssertionError floatOfInt)
      | StringType => Some (from_str Float Exn World AssertionError version)
      | ArrayType items =>
          option_map (from_list Float Exn World AssertionError) (deserializerOf items)
      | MapType values =>
          option_map (from_dict Float Exn World AssertionError) (deserializerOf values)
      | UnionType members =>
          option_map (from_union PyValue Exn World AssertionError)
            (allSome (map deserializerOf members))
      | ClassType _ | EnumType _ | TransformedStringType _ => None
      end
  end.

Fixpoint serializerOf (t : QType) {struct t} : option PyCallable :=
  match t with
  | MkType (Some _) _ => None
  | MkType None shape =>
      match shape with
      | AnyType => Some passThrough
      | NullType => Some (from_none Float Exn World AssertionError)
      | BoolType => Some (from_bool Float Exn World AssertionError)
      | IntegerType => Some (from_int Float Exn World AssertionError)
      | DoubleType => Some (to_float Float Exn World AssertionError)
      | StringType => Some (from_str Float Exn World AssertionError version)
      | ArrayType items =>
          option_map (from_list Float Exn World AssertionError) (serializerOf items)
      | MapType values =>
          option_map (from_dict Float Exn World AssertionError) (serializerOf values)
      | UnionType members =>
          option_map (from_union PyValue Exn World AssertionError)
            (allSome (map serializerOf members))
      | ClassType _ | EnumType _ | TransformedStringType _ => None
      end
  end.

(** A generic value (what [json.loads] returns) that matches the shape of
    a type.  A number at a position of type double is a float or an
    integer; with [floatsOnly] it has to be a float.  Under version 2 a
    string may be a [unicode]. *)
Fixpoint matchesShape (floatsOnly : bool) (t : QType) (v : PyValue) {struct t} : bool :=
  match t with
  | MkType (Some _) _ => false
  | MkType None shape =>
      match shape, v with
      | AnyType, _ => true
      | NullType, PyNone _ => true
      | BoolType, PyBool _ _ => true
      | IntegerType, PyInt _ _ => true
      | DoubleType, PyFloat _ _ => true
      | DoubleType, PyInt _ _ => negb floatsOnly
      | StringType, PyStr _ _ => true
      | StringType, PyUnicode _ _ =>
          match version with V2 => true | V3 => false end
      | ArrayType items, PyList _ ys => forallb (matchesShape floatsOnly items) ys
      | MapType values, PyDict _ kvs =>
          forallb (fun kv => matchesShape floatsOnly values (snd kv)) kvs
      | _, _ => false
      end
  end.

End GeneratedConverters.

(** The shapes of a type reachable without unions whose converters have a
    denotation. *)
Definition isPlainJsonShape (s : Shape) : bool :=
  match s with
  | AnyType | NullType | BoolType | IntegerType | DoubleType | StringType
  | ArrayType _ | MapType _ => true
  | _ => false
  end.

(** ** Further sample inputs *)

(** A type that needs a transformer, and types that do not. *)
Definition optionalIntegerString : QType :=
  plain (UnionType [plain NullType; plain (TransformedStringType KIntegerString)]).

Definition dateTimes : QType :=
  plain (ArrayType (plain (TransformedStringType KDateTime))).

Definition optionalStrings : QType :=
  plain (MapType (plain (UnionType [plain NullType; plain StringType]))).

(** A converter over Python values with integral floats: it adds one to an
    integer and raises on anything else, and logs its calls. *)
Definition bumping : PyCallable Z string (list string) :=
  fun x w =>
    match x with
    | PyInt _ n => (inr (PyInt Z (n + 1)), w ++ ["ok"])
    | _ => (inl "TypeError", w ++ ["bad"])
    end.

Definition exactFloat (n : Z) : string + Z := inr n.

(** [float(n)] for doubles: the nearest double, ties to the even
    significand, and the overflow error beyond the largest double.  The
    double of an integer is an integer, and stands for itself here. *)
Definition doubleOfInt (n : Z) : string + Z :=
  let a := Z.abs n in
  let excess := (Z.log2 a + 1 - 53)%Z in
  let rounded :=
    if (excess <=? 0)%Z then a
    else
      let unit := (2 ^ excess)%Z in
      let q := (a / unit)%Z in
      let r := (a mod unit)%Z in
      let half := (unit / 2)%Z in
      ((if (half <? r)%Z || ((r =? half)%Z && Z.odd q) then q + 1 else q) * unit)%Z in
  if (2 ^ 1024 <=? rounded)%Z then inl "OverflowError" else inr (Z.sgn n * rounded)%Z.

(** The state after the compiler met a list of integers and the list
    converter was emitted. *)
(** A helper of the kind [IteratesWithBlankLines] describes, for running
    [emitSupportCode]: it asks for no blank line before the first entry and
    for the configured number before each of the others. *)
Fixpoint blankLinesBefore {K V : Type} (first : nat) (entries : list (K * V))
    (config : string * nat) (emitter : V -> K -> Emit unit) : Emit unit :=
  match entries with
  | [] => emitRet tt
  | (k, v) :: rest =>
      ensureBlankLine first ;;~ emitter v k ;;~
      blankLinesBefore (snd config) rest config emitter
  end.

Definition recordedState : EmitState :=
  {| renderState :=
       {| imports := [("typing", ["TypeVar"; "Callable"; "Any"; "List"])];
          deserializerFunctions := [CfList; CfInt] |};
     haveTypeVar := true; haveEnumTypeVar := false; haveDateutil := false;
     depth := 0; calls := [] |}.

(** * Properties *)

(** ** The monad *)

Lemma bind_ret {A B : Type} (a : A) (k : A -> Gen B) (s : RenderState) :
  bind (ret a) k s = k a s.
Proof. reflexivity. Qed.

Lemma bind_done {A B : Type} (m : Gen A) (k : A -> Gen B) (s s' : RenderState) (a : A) :
  m s = Done (a, s') -> bind m k s = k a s'.
Proof. intros Hm. unfold bind. now rewrite Hm. Qed.

Lemma bind_panicked {A B : Type} (m : Gen A) (k : A -> Gen B) (s : RenderState)
    (msg : string) :
  m s = Panicked msg -> bind m k s = Panicked msg.
Proof. intros Hm. unfold bind. now rewrite Hm. Qed.

Lemma mapM_pure {A B : Type} (g : A -> B) (items : list A) (s : RenderState) :
  mapM (fun x => ret (g x)) items s = Done (map g items, s).
Proof.
  induction items as [|x rest IH]; simpl; [reflexivity|].
  unfold bind at 1. simpl. unfold bind at 1. now rewrite IH.
Qed.

Lemma mapM_done {A B : Type} (f : A -> Gen B) (items : list A) (ys : list B)
    (s s' : RenderState) :
  mapM f items s = Done (ys, s') -> RunsInOrder f items ys s s'.
Proof.
  revert ys s. induction items as [|x rest IH]; intros ys s Hrun; simpl in Hrun.
  - inversion Hrun; subst. constructor.
  - unfold bind in Hrun at 1.
    destruct (f x s) as [[y s1]|msg] eqn:Hx; [|discriminate].
    unfold bind in Hrun at 1.
    destruct (mapM f rest s1) as [[ys' s2]|msg] eqn:Hrest; [|discriminate].
    inversion Hrun; subst. econstructor; [exact Hx|]. now apply IH.
Qed.

Lemma RunsInOrder_length {A B : Type} (f : A -> Gen B) (xs : list A) (ys : list B)
    (s s' : RenderState) :
  RunsInOrder f xs ys s s' -> length ys = length xs.
Proof. induction 1; simpl; congruence. Qed.

(** ** Value-or-lambda *)

Section CompositionFacts.
Context `{SourceSupport}.

(** A value-or-lambda with a value always collapses. *)
Lemma makeValue_defined (vol : ValueOrLambda) (v : Sourcelike) (s : RenderState) :
  value vol = Some v ->
  exists e, makeValue vol s = Done (e, s).
Proof.
  intros Hv. unfold makeValue. rewrite Hv.
  destruct (lambda vol); eexists; reflexivity.
Qed.

(** [compose] with a step that may register converters or panic: the
    step is run on the collapsed value, on the pending function applied
    to [x], or on [x] itself. *)
Lemma compose_step_unfold (input : ValueOrLambda) (f : Sourcelike -> Gen Sourcelike) :
  compose input (Step f) =
  match value input, lambda input with
  | Some _, _ =>
      v <- makeValue input ;; r <- f v ;; ret {| value := Some r; lambda := None |}
  | None, Some l =>
      r <- f (Arr [parenIfNeeded l; Str "(x)"]) ;;
      ret {| value := None; lambda := Some (multiWord (Str " ") [Str "lambda x:"; r]) |}
  | None, None =>
      r <- f (Str "x") ;;
      ret {| value := None; lambda := Some (multiWord (Str " ") [Str "lambda x:"; r]) |}
  end.
Proof. destruct input as [[v|] [l|]]; reflexivity. Qed.

(** C1. The composition rule of [compose] for a step from expressions to
    expressions.  A representation with a concrete value gives a concrete
    value, the step applied to it (to the pending function applied to the
    expression when both are present); a pending function alone gives a
    new pending function that applies the pending function and then the
    step; the neutral start gives the step itself as pending function.
    The renderer state is left as it was. *)
Theorem compose_step_rule (g : Sourcelike -> Sourcelike) (s : RenderState) :
  (forall v,
      compose {| value := Some v; lambda := None |} (Step (pureStep g)) s
      = Done ({| value := Some (g v); lambda := None |}, s))
  /\ (forall v l,
      compose {| value := Some v; lambda := Some l |} (Step (pureStep g)) s
      = Done ({| value := Some (g (Arr [parenIfNeeded l; Str "("; v; Str ")"]));
                 lambda := None |}, s))
  /\ (forall l,
      compose {| value := None; lambda := Some l |} (Step (pureStep g)) s
      = Done ({| value := None;
                 lambda := Some (multiWord (Str " ")
                   [Str "lambda x:"; g (Arr [parenIfNeeded l; Str "(x)"])]) |}, s))
  /\ compose identity (Step (pureStep g)) s
     = Done ({| value := None;
                lambda := Some (multiWord (Str " ") [Str "lambda x:"; g (Str "x")]) |}, s).
Proof. repeat split; intros; reflexivity. Qed.

(** C6. A value-or-lambda with both an expression and a pending function
    collapses to the function applied to the expression; two pure lambdas
    compose to one pure lambda, whose [makeLambda] is that lambda; a
    value alone collapses to itself. *)
Theorem makeValue_compose_collapse (s : RenderState) :
  (forall v l,
      makeValue {| value := Some v; lambda := Some l |} s
      = Done (Arr [parenIfNeeded l; Str "("; v; Str ")"], s))
  /\ (forall il fl,
      let chain := multiWord (Str "")
                     [Str "lambda x: "; parenIfNeeded fl; Str "(";
                      parenIfNeeded il; Str "(x))"] in
      compose {| value := None; lambda := Some il |}
              (Pending {| value := None; lambda := Some fl |}) s
      = Done ({| value := None; lambda := Some chain |}, s)
      /\ makeLambda {| value := None; lambda := Some chain |} = chain)
  /\ (forall v,
      makeValue {| value := Some v; lambda := None |} s = Done (v, s)).
Proof. repeat split; intros; reflexivity. Qed.

(** C10. Composing into a value-or-lambda that has a value panics;
    composing into a pure lambda or into the empty one returns, with the
    state unchanged; composing into the empty one returns the first
    argument. *)
Theorem compose_pending_safety (input : ValueOrLambda) (s : RenderState) :
  (forall v fl,
      compose input (Pending {| value := Some v; lambda := fl |}) s
      = Panicked "Cannot compose into a value")
  /\ (forall fl, exists r,
      compose input (Pending {| value := None; lambda := fl |}) s = Done (r, s))
  /\ compose input (Pending {| value := None; lambda := None |}) s = Done (input, s).
Proof.
  repeat split; intros; try reflexivity.
  destruct input as [[v|] [il|]], fl as [fl|]; eexists; reflexivity.
Qed.

(** What [compose] returns for the second kind of argument, case by
    case. *)
Lemma compose_pending_cases (input : ValueOrLambda) (fl : MultiWord) (s : RenderState) :
  compose input (Pending {| value := None; lambda := Some fl |}) s =
  match value input, lambda input with
  | None, None => Done ({| value := None; lambda := Some fl |}, s)
  | None, Some il =>
      Done ({| value := None;
               lambda := Some (multiWord (Str "")
                 [Str "lambda x: "; parenIfNeeded fl; Str "(";
                  parenIfNeeded il; Str "(x))"]) |}, s)
  | Some v, None => Done ({| value := Some v; lambda := Some fl |}, s)
  | Some v, Some il =>
      Done ({| value := Some (Arr [parenIfNeeded il; Str "("; v; Str ")"]);
               lambda := Some fl |}, s)
  end.
Proof. destruct input as [[v|] [il|]]; reflexivity. Qed.

End CompositionFacts.

(** ** The transformer compiler *)

Section CompilerFacts.
Context `{SourceSupport}.
Variable pyOptions : PythonOptions.

Local Abbreviation transformer := (transformer pyOptions).
Local Abbreviation deserializer := (deserializer pyOptions).
Local Abbreviation serializer := (serializer pyOptions).
Local Abbreviation consume := (consume pyOptions).

(** The defining equations of [deserializer] and [serializer] on a type
    with a transformation. *)
Lemma deserializer_transformed (value : ValueOrLambda) (shape : Shape)
    (targetType reverseTargetType : QType) (xfer reverseXfer : Transformer) :
  deserializer value
    (MkType (Some (MkTransformation targetType xfer reverseTargetType reverseXfer)) shape)
  = transformer value xfer targetType.
Proof. reflexivity. Qed.

Lemma serializer_transformed (value : ValueOrLambda) (shape : Shape)
    (targetType reverseTargetType : QType) (xfer reverseXfer : Transformer) :
  serializer value
    (MkType (Some (MkTransformation targetType xfer reverseTargetType reverseXfer)) shape)
  = transformer value reverseXfer reverseTargetType.
Proof. reflexivity. Qed.

(** The text of the union-try call and the converter it registers. *)
Lemma unionCall_done (lambdas : list Sourcelike) (v : Sourcelike) (s : RenderState) :
  unionCall lambdas v s
  = Done (Arr [Arr [Str "from_"; Str "union"]; Str "([";
               Arr (arrayIntercalate (Str ", ") lambdas); Str "], "; v; Str ")"],
          {| imports := imports s;
             deserializerFunctions := setAdd CfUnion (deserializerFunctions s) |}).
Proof. reflexivity. Qed.

(** C4. At a parse-string node the compiler looks at the kind of the
    immediate target type (the source type of the consumer, or the target
    type when there is no consumer): for "integer" it composes [int(...)],
    for "enum" it calls the deserializer of that type, for "date-time" it
    composes the [from_datetime] converter, each followed by the consumer;
    for any other kind the generation panics, in every renderer state.
    What the integer and the date-time case hand to the consumer is written
    out for every form of the input: [int(...)] around the value or inside
    a new lambda, and [from_datetime] as the pending function of the value,
    chained after the pending function of a lambda, registered as a
    converter in use. *)
Theorem transformer_parse_string (inputTransformer : ValueOrLambda)
    (sourceType : QType) (consumer : option Transformer) (targetType : QType) :
  let immediateTargetType :=
    match consumer with
    | None => targetType
    | Some c => sourceTypeOf c
    end in
  let node := ParseStringTransformer sourceType consumer in
  let int v := Arr [Str "int("; v; Str ")"] in
  let parsedInteger :=
    match value inputTransformer, lambda inputTransformer with
    | Some v, None => {| value := Some (int v); lambda := None |}
    | Some v, Some l =>
        {| value := Some (int (Arr [parenIfNeeded l; Str "("; v; Str ")"]));
           lambda := None |}
    | None, Some l =>
        {| value := None;
           lambda := Some (multiWord (Str " ")
                             [Str "lambda x:"; int (Arr [parenIfNeeded l; Str "(x)"])]) |}
    | None, None =>
        {| value := None;
           lambda := Some (multiWord (Str " ") [Str "lambda x:"; int (Str "x")]) |}
    end in
  let from_datetime := singleWord [Str "from_datetime"] in
  let parsedDateTime :=
    match value inputTransformer, lambda inputTransformer with
    | Some v, None => {| value := Some v; lambda := Some from_datetime |}
    | Some v, Some l =>
        {| value := Some (Arr [parenIfNeeded l; Str "("; v; Str ")"]);
           lambda := Some from_datetime |}
    | None, Some l =>
        {| value := None;
           lambda := Some (multiWord (Str "")
                             [Str "lambda x: "; parenIfNeeded from_datetime; Str "(";
                              parenIfNeeded l; Str "(x))"]) |}
    | None, None => {| value := None; lambda := Some from_datetime |}
    end in
  (kindOf immediateTargetType = "integer" ->
     transformer inputTransformer node targetType
     = (vol <- compose inputTransformer
                 (Step (pureStep (fun v => Arr [Str "int("; v; Str ")"]))) ;;
        consume targetType consumer vol))
  /\ (kindOf immediateTargetType = "enum" ->
     transformer inputTransformer node targetType
     = (vol <- deserializer inputTransformer immediateTargetType ;;
        consume targetType consumer vol))
  /\ (kindOf immediateTargetType = "date-time" ->
     transformer inputTransformer node targetType
     = (vol <- convFn CfFromDatetime inputTransformer ;;
        consume targetType consumer vol))
  /\ (kindOf immediateTargetType <> "integer" ->
      kindOf immediateTargetType <> "enum" ->
      kindOf immediateTargetType <> "date-time" ->
      forall s,
        transformer inputTransformer node targetType s
        = Panicked ("Parsing of " ++ kindOf immediateTargetType
                    ++ " in a transformer is not supported"))
  /\ (kindOf immediateTargetType = "integer" ->
      forall s,
        transformer inputTransformer node targetType s
        = consume targetType consumer parsedInteger s)
  /\ (kindOf immediateTargetType = "date-time" ->
      forall s,
        transformer inputTransformer node targetType s
        = consume targetType consumer parsedDateTime
            {| imports := imports s;
               deserializerFunctions :=
                 setAdd CfFromDatetime (deserializerFunctions s) |}).
Proof.
  intros imm node int parsedInteger from_datetime parsedDateTime. subst node.
  unfold transformer. cbn [transformerBody]. fold imm.
  split; [|split; [|split; [|split; [|split]]]].
  - intros Hk. rewrite Hk. destruct consumer; reflexivity.
  - intros Hk. rewrite Hk. destruct consumer; reflexivity.
  - intros Hk. rewrite Hk. destruct consumer; reflexivity.
  - intros H1 H2 H3 s.
    apply String.eqb_neq in H1, H2, H3. rewrite H1, H2, H3. reflexivity.
  - intros Hk s. rewrite Hk. subst parsedInteger int.
    destruct inputTransformer as [[v|] [l|]], consumer; reflexivity.
  - intros Hk s. rewrite Hk. subst parsedDateTime from_datetime.
    destruct inputTransformer as [[v|] [l|]], consumer; reflexivity.
Qed.

End CompilerFacts.

(** ** Name styling *)

Section NameStyleFacts.
Context `{UnicodeData} `{StringsSupport}.

(** What each styler hands to [combineWords], by version. *)
Lemma classNameStyleCall_rules (version : PythonVersion) (original : JSString) :
  let call := classNameStyleCall version original in
  match version with
  | V2 => cwRemoveInvalidCharacters call = legalizeName2
          /\ cwIsStartCharacter call = isStartCharacter2
  | V3 => cwRemoveInvalidCharacters call = legalizeName3
          /\ cwIsStartCharacter call = isStartCharacter3
  end.
Proof. destruct version; split; reflexivity. Qed.

Lemma snakeNameStyleCall_rules (version : PythonVersion) (original : JSString)
    (uppercase : bool) :
  let call := snakeNameStyleCall version original uppercase in
  cwRemoveInvalidCharacters call
  = match version with V2 => legalizeName2 | V3 => legalizeName3 end
  /\ cwIsStartCharacter call = isStartCharacter3.
Proof. split; reflexivity. Qed.

End NameStyleFacts.

(** ** The union-try helper *)

Section PythonRuntimeFacts.
Variables Value Exn World : Type.
Variable AssertionError : Exn.

Local Abbreviation from_union := (from_union Value Exn World AssertionError).
Local Abbreviation allRaise := (allRaise Value Exn World).

(** Functions that all raise are passed over. *)
Lemma from_union_skip (pre rest : list (Callable Value Exn World)) (x : Value)
    (w w1 : World) :
  allRaise pre x w = Some w1 ->
  from_union (pre ++ rest) x w = from_union rest x w1.
Proof.
  revert w. induction pre as [|f pre IH]; intros w Hall; simpl in *.
  - now inversion Hall.
  - destruct (f x w) as [[e|v] w2]; [|discriminate]. now apply IH.
Qed.

(** The result is either what some function of the list returned or the
    assertion failure. *)
Lemma from_union_total (fs : list (Callable Value Exn World)) (x : Value) (w : World) :
  (exists v w', from_union fs x w = (inr v, w'))
  \/ (exists w', from_union fs x w = (inl AssertionError, w')
                 /\ allRaise fs x w = Some w').
Proof.
  revert w. induction fs as [|f fs IH]; intros w; simpl.
  - right. now exists w.
  - destruct (f x w) as [[e|v] w2].
    + apply IH.
    + left. now exists v, w2.
Qed.

(** C3. [from_union] calls the functions in list order.  When the ones
    before [f] all raise and [f] returns [v], the result is [v] and the
    interpreter is left in the state in which the call of [f] left it,
    whatever comes after [f] in the list: nothing after the first success
    is called, and what the earlier calls raised is dropped.  When every
    function raises, the result is the assertion failure. *)
Theorem from_union_try_order :
  (forall (pre post : list (Callable Value Exn World)) (f : Callable Value Exn World)
          (x v : Value) (w w1 w2 : World),
      allRaise pre x w = Some w1 ->
      f x w1 = (inr v, w2) ->
      from_union (pre ++ f :: post) x w = (inr v, w2))
  /\ (forall (fs : list (Callable Value Exn World)) (x : Value) (w w1 : World),
      allRaise fs x w = Some w1 ->
      from_union fs x w = (inl AssertionError, w1)).
Proof.
  split.
  - intros pre post f x v w w1 w2 Hpre Hf.
    rewrite (from_union_skip pre (f :: post) x w w1 Hpre). simpl. now rewrite Hf.
  - intros fs x w w1 Hall.
    rewrite <- (app_nil_r fs). now rewrite (from_union_skip fs [] x w w1 Hall).
Qed.

End PythonRuntimeFacts.

(** ** Runs on sample inputs *)

Lemma from_union_try_order_witness :
  let fs := [raising "f1"; raising "f2"] in
  allRaise Z string (list string) fs 5%Z [] = Some ["f1"; "f2"]
  /\ returning "f3" Z.succ 5%Z ["f1"; "f2"] = (inr 6%Z, ["f1"; "f2"; "f3"])
  /\ from_union Z string (list string) "AssertionError"
       (fs ++ returning "f3" Z.succ :: [returning "f4" Z.pred; raising "f5"]) 5%Z []
     = (inr 6%Z, ["f1"; "f2"; "f3"])
  /\ from_union Z string (list string) "AssertionError" fs 5%Z []
     = (inl "AssertionError", ["f1"; "f2"]).
Proof.
  intros fs. split; [reflexivity|]. split; [reflexivity|]. split.
  - apply (proj1 (from_union_try_order Z string (list string) "AssertionError")
             fs [returning "f4" Z.pred; raising "f5"] (returning "f3" Z.succ)
             5%Z 6%Z [] ["f1"; "f2"] ["f1"; "f2"; "f3"]); reflexivity.
  - apply (proj2 (from_union_try_order Z string (list string) "AssertionError")
             fs 5%Z [] ["f1"; "f2"]); reflexivity.
Defined.

(** C5. The two scenarios of the specification, under both versions: the
    snake-lower-case style turns "my-id_2" into "my_id_2" and the type-name
    style turns "Class Name!!" into "ClassName".  The stylers take no
    forbidden set. *)
Theorem styling_scenarios :
  snakeNameStyle V2 (utf16 "my-id_2") false
  = utf16 "my_id_2"
  /\ snakeNameStyle V3 (utf16 "my-id_2") false
     = utf16 "my_id_2"
  /\ classNameStyle V2 (utf16 "Class Name!!")
     = utf16 "ClassName"
  /\ classNameStyle V3 (utf16 "Class Name!!")
     = utf16 "ClassName".
Proof. repeat split; vm_compute; reflexivity. Qed.

Lemma transformer_parse_string_witness :
  let s := plain StringType in
  (* integer: int(...) around the input *)
  transformer options36 (variable "x") (ParseStringTransformer s None)
    (plain IntegerType) emptyRenderState
  = Done ({| value := Some (Arr [Str "int("; Str "x"; Str ")"]); lambda := None |},
          emptyRenderState)
  (* enum: the deserializer of the enum type, the enum as pending function *)
  /\ transformer options36 (variable "x") (ParseStringTransformer s None)
       (plain (EnumType (MkName "Color"))) emptyRenderState
     = Done ({| value := Some (Str "x");
                lambda := Some (singleWord [Nm (MkName "Color")]) |},
             emptyRenderState)
  (* date-time: from_datetime pending on the value, and registered *)
  /\ transformer options36 (variable "x") (ParseStringTransformer s None)
       (plain (TransformedStringType KDateTime)) emptyRenderState
     = Done ({| value := Some (Str "x");
                lambda := Some (singleWord [Str "from_datetime"]) |},
             {| imports := []; deserializerFunctions := [CfFromDatetime] |})
  (* date-time inside a lambda, followed by a consumer *)
  /\ rendered (transformer options36 identity
                 (ParseStringTransformer s
                    (Some (UnionInstantiationTransformer
                             (plain (TransformedStringType KDateTime)))))
                 (plain AnyType) emptyRenderState)
     = inl (None, Some "from_datetime", [CfFromDatetime])
  (* anything else: panic *)
  /\ transformer options36 (variable "x")
       (ParseStringTransformer s (Some (EncodingTransformer (plain BoolType))))
       (plain IntegerType) emptyRenderState
     = Panicked "Parsing of bool in a transformer is not supported".
Proof.
  intros s. split; [|split; [|split; [|split]]].
  - rewrite (proj1 (proj2 (proj2 (proj2 (proj2
              (transformer_parse_string options36 (variable "x") s None
                 (plain IntegerType)))))) eq_refl).
    reflexivity.
  - rewrite (proj1 (proj2 (transformer_parse_string options36 (variable "x") s None
                             (plain (EnumType (MkName "Color"))))) eq_refl).
    reflexivity.
  - rewrite (proj2 (proj2 (proj2 (proj2 (proj2
              (transformer_parse_string options36 (variable "x") s None
                 (plain (TransformedStringType KDateTime))))))) eq_refl).
    reflexivity.
  - rewrite (proj2 (proj2 (proj2 (proj2 (proj2
              (transformer_parse_string options36 identity s
                 (Some (UnionInstantiationTransformer
                          (plain (TransformedStringType KDateTime))))
                 (plain AnyType)))))) eq_refl).
    reflexivity.
  - apply (proj1 (proj2 (proj2 (proj2 (transformer_parse_string options36 (variable "x") s
                                  (Some (EncodingTransformer (plain BoolType)))
                                  (plain IntegerType))))));
      discriminate.
Defined.

(** The compiler on small types, with the text it produces. *)

Example deserializer_array :
  rendered (deserializer options36 (variable "s") (plain (ArrayType (plain IntegerType)))
              emptyRenderState)
  = inl (Some "from_list(from_int, s)", None, [CfList; CfInt]).
Proof. reflexivity. Qed.

Example serializer_map_of_class :
  rendered (serializer options36 (variable "s")
              (plain (MapType (plain (ClassType (MkName "Foo"))))) emptyRenderState)
  = inl (Some "from_dict(lambda x: to_class(Foo, x), s)", None, [CfDict; CfToClass]).
Proof. reflexivity. Qed.

Example transformer_choice_of_two :
  rendered (transformer options36 (variable "x")
              (ChoiceTransformer (plain AnyType)
                 [DecodingTransformer (plain IntegerType) None;
                  DecodingTransformer (plain StringType) None])
              (plain AnyType) emptyRenderState)
  = inl (Some "from_union([from_int, from_str], x)", None, [CfInt; CfStr; CfUnion]).
Proof. reflexivity. Qed.

Example transformer_integer_string :
  rendered (transformer options36 (variable "x")
              (DecodingTransformer (plain StringType)
                 (Some (ParseStringTransformer (plain StringType) None)))
              (plain IntegerType) emptyRenderState)
  = inl (Some "int(from_str(x))", None, [CfStr]).
Proof. reflexivity. Qed.

Example transformer_parse_bool_panics :
  rendered (transformer options36 (variable "x")
              (ParseStringTransformer (plain StringType) None)
              (plain BoolType) emptyRenderState)
  = inr "Parsing of bool in a transformer is not supported".
Proof. reflexivity. Qed.

(** On Basic Latin the two start-character checks agree. *)
Lemma start_checks_agree_on_ascii (c : Z) :
  (0 <= c < 128)%Z -> isStartCharacter3 c = isStartCharacter2 c.
Proof.
  intros Hc.
  assert (Hall : forallb (fun n => Bool.eqb (isStartCharacter3 (Z.of_nat n))
                                            (isStartCharacter2 (Z.of_nat n)))
                         (seq 0 128) = true) by (vm_compute; reflexivity).
  rewrite forallb_forall in Hall.
  specialize (Hall (Z.to_nat c)). rewrite Z2Nat.id in Hall by lia.
  apply Bool.eqb_prop, Hall, in_seq. lia.
Qed.

(** Version-2 legalization lets Basic Latin through and nothing else. *)
Lemma legalizeName2_ascii (s : JSString) (c : Z) :
  In c (legalizeName2 s) -> (c < 128)%Z.
Proof.
  intros Hin. apply filter_In in Hin as [_ Hpart].
  unfold isPartCharacter2 in Hpart. apply andb_prop in Hpart as [Hascii _].
  now apply Z.ltb_lt in Hascii.
Qed.

Lemma asciiUpper_range (c : Z) : (0 <= c < 128)%Z -> (0 <= asciiUpper c < 128)%Z.
Proof.
  intros Hc. unfold asciiUpper.
  destruct (Z.leb_spec 97 c), (Z.leb_spec c 122); simpl; lia.
Qed.

Lemma asciiLower_range (c : Z) : (0 <= c < 128)%Z -> (0 <= asciiLower c < 128)%Z.
Proof.
  intros Hc. unfold asciiLower.
  destruct (Z.leb_spec 65 c), (Z.leb_spec c 90); simpl; lia.
Qed.

Lemma isPartCharacter2_range (c : Z) :
  isPartCharacter2 c = true -> (0 <= c < 128)%Z.
Proof.
  unfold isPartCharacter2. intros Hpart.
  apply andb_prop in Hpart as [Hascii Hword].
  apply Z.ltb_lt in Hascii. split; [|exact Hascii].
  destruct (Z.ltb_spec c 0) as [Hneg|]; [exfalso|assumption].
  assert (Hcat : latinCategory c = "Cc").
  { unfold latinCategory. destruct (Z.ltb_spec c 32); [reflexivity|lia]. }
  cbn [isLetterOrUnderscoreOrDigit SpecStrings.specStrings] in Hword.
  unfold SpecStrings.isLetterOrUnderscoreOrDigit, SpecStrings.isLetter,
    SpecStrings.isDigit in Hword.
  cbn [getCategory latinData] in Hword. rewrite Hcat in Hword.
  destruct (Z.eqb_spec c 95); [lia|]. vm_compute in Hword. discriminate.
Qed.

(** [combineWords] of section 4.1 asks the start-character check about the
    first character of the styled first word and about nothing else. *)
Lemma combineWords_start_ext (ws : list WordInName) (rm : JSString -> JSString)
    (fs rs fas ras : WordStyle) (sep : JSString) (p q : Z -> bool) :
  (forall s c tl, fs (rm s) = c :: tl -> p c = q c) ->
  (forall s c tl, fas (rm s) = c :: tl -> p c = q c) ->
  SpecStrings.combineWords ws rm fs rs fas ras sep p
  = SpecStrings.combineWords ws rm fs rs fas ras sep q.
Proof.
  intros Hfs Hfas. unfold SpecStrings.combineWords.
  set (legalize := fun w : WordInName =>
                     {| word := rm (word w); isAcronym := isAcronym w |}).
  set (kept := filter _ (map legalize ws)).
  assert (Hkept : Forall (fun w => exists s, word w = rm s) kept).
  { apply Forall_forall. intros w Hin. apply filter_In in Hin as [Hin _].
    apply in_map_iff in Hin as [w0 [<- _]]. now exists (word w0). }
  set (legalizedWords := match kept with [] => _ | _ => kept end).
  assert (Hleg : Forall (fun w => exists s, word w = rm s) legalizedWords).
  { subst legalizedWords. destruct kept; [|exact Hkept].
    constructor; [|constructor]. now exists (utf16 "empty"). }
  destruct legalizedWords as [|first rest]; [reflexivity|].
  inversion Hleg as [|? ? [s Hs] _]; subst. rewrite Hs.
  destruct (isAcronym first).
  - destruct (fas (rm s)) as [|c tl] eqn:E; [reflexivity|].
    now rewrite (Hfas s c tl E).
  - destruct (fs (rm s)) as [|c tl] eqn:E; [reflexivity|].
    now rewrite (Hfs s c tl E).
Qed.

(** With the word combiner of section 4.1 and on the tabulated code points,
    the snake-case identifiers of version 2 are the ones the ASCII-only
    start check would give: the check only ever sees Basic Latin there. *)
Lemma snakeNameStyle_version2_identifier (original : JSString) (uppercase : bool) :
  let wordStyle := if uppercase then allUpperWordStyle else allLowerWordStyle in
  snakeNameStyle V2 original uppercase
  = combineWords (splitIntoWords original) legalizeName2
      wordStyle wordStyle wordStyle wordStyle [95%Z] isStartCharacter2.
Proof.
  intros wordStyle. unfold snakeNameStyle, runCombineWords, snakeNameStyleCall.
  cbn [cwWords cwRemoveInvalidCharacters cwFirstWordStyle cwRestWordStyle
       cwFirstWordAcronymStyle cwRestAcronymStyle cwSeparator cwIsStartCharacter].
  fold wordStyle. cbn [combineWords SpecStrings.specStrings].
  assert (Hstyle : forall s c tl, wordStyle (legalizeName2 s) = c :: tl ->
                                  isStartCharacter3 c = isStartCharacter2 c).
  { intros s c tl Heq. apply start_checks_agree_on_ascii.
    assert (Hin : exists c0, In c0 (legalizeName2 s)
                             /\ (c = asciiUpper c0 \/ c = asciiLower c0)).
    { subst wordStyle. destruct uppercase;
        cbn [allUpperWordStyle allLowerWordStyle SpecStrings.specStrings] in Heq;
        unfold SpecStrings.allUpperWordStyle, SpecStrings.allLowerWordStyle in Heq;
        cbn [toUpperCase toLowerCase latinData] in Heq;
        destruct (legalizeName2 s) as [|c0 rest]; try discriminate;
        simpl in Heq; inversion Heq; exists c0; simpl; auto. }
    destruct Hin as [c0 [Hin Hc]].
    apply filter_In in Hin as [_ Hpart]. apply isPartCharacter2_range in Hpart.
    destruct Hc as [-> | ->];
      [now apply asciiUpper_range | now apply asciiLower_range]. }
  apply combineWords_start_ext; exact Hstyle.
Qed.


(** * Further properties *)

(** ** Induction over types and transformers *)

Section TypeInduction.
Variable P : QType -> Prop.
Variable Q : Transformer -> Prop.


Hypothesis P_leaf : forall shape,
  match shape with
  | ArrayType _ | MapType _ | UnionType _ => False
  | _ => True
  end -> P (MkType None shape).
Hypothesis P_array : forall items, P items -> P (MkType None (ArrayType items)).
Hypothesis P_map : forall values, P values -> P (MkType None (MapType values)).
Hypothesis P_union : forall members, Forall P members -> P (MkType None (UnionType members)).
Hypothesis P_transformed : forall targetType xfer reverseTargetType reverseXfer shape,
  P targetType -> Q xfer -> P reverseTargetType -> Q reverseXfer ->
  P (MkType (Some (MkTransformation targetType xfer reverseTargetType reverseXfer)) shape).

Let Q' (x : Transformer) : Prop := Q x /\ P (sourceTypeOf x).

Hypothesis Q_decodingChoice : forall st xs,
  P st -> Forall Q xs -> Q (DecodingChoiceTransformer st xs).
Hypothesis Q_choice : forall st xs,
  P st -> Forall Q xs -> Q (ChoiceTransformer st xs).
Hypothesis Q_decoding : forall st c,
  P st -> optionAll Q' c -> Q (DecodingTransformer st c).
Hypothesis Q_encoding : forall st, P st -> Q (EncodingTransformer st).
Hypothesis Q_unionInstantiation : forall st, P st -> Q (UnionInstantiationTransformer st).
Hypothesis Q_unionMemberMatch : forall st c mt,
  P st -> optionAll Q' c -> P mt -> Q (UnionMemberMatchTransformer st c mt).
Hypothesis Q_parseString : forall st c,
  P st -> optionAll Q' c -> Q (ParseStringTransformer st c).
Hypothesis Q_stringify : forall st c,
  P st -> optionAll Q' c -> Q (StringifyTransformer st c).
Hypothesis Q_other : forall k st, P st -> Q (OtherTransformer k st).

Fixpoint QType_induction (t : QType) {struct t} : P t :=
  match t with
  | MkType None shape =>
      match shape as s return P (MkType None s) with
      | ArrayType items => P_array items (QType_induction items)
      | MapType values => P_map values (QType_induction values)
      | UnionType members =>
          P_union members
            ((fix all (l : list QType) : Forall P l :=
                match l with
                | [] => Forall_nil P
                | m :: rest => Forall_cons m (QType_induction m) (all rest)
                end) members)
      | s => P_leaf s I
      end
  | MkType (Some (MkTransformation tgt x rtgt rx)) shape =>
      P_transformed tgt x rtgt rx shape
        (QType_induction tgt) (Transformer_induction x)
        (QType_induction rtgt) (Transformer_induction rx)
  end
with Transformer_induction (x : Transformer) {struct x} : Q x :=
  let all :=
    fix all (l : list Transformer) : Forall Q l :=
      match l with
      | [] => Forall_nil Q
      | y :: rest => Forall_cons y (Transformer_induction y) (all rest)
      end in
  let opt (c : option Transformer) : optionAll Q' c :=
    match c as c0 return optionAll Q' c0 with
    | Some y => conj (Transformer_induction y) (QType_induction (sourceTypeOf y))
    | None => I
    end in
  match x with
  | DecodingChoiceTransformer st xs => Q_decodingChoice st xs (QType_induction st) (all xs)
  | ChoiceTransformer st xs => Q_choice st xs (QType_induction st) (all xs)
  | DecodingTransformer st c => Q_decoding st c (QType_induction st) (opt c)
  | EncodingTransformer st => Q_encoding st (QType_induction st)
  | UnionInstantiationTransformer st => Q_unionInstantiation st (QType_induction st)
  | UnionMemberMatchTransformer st c mt =>
      Q_unionMemberMatch st c mt (QType_induction st) (opt c) (QType_induction mt)
  | ParseStringTransformer st c => Q_parseString st c (QType_induction st) (opt c)
  | StringifyTransformer st c => Q_stringify st c (QType_induction st) (opt c)
  | OtherTransformer k st => Q_other k st (QType_induction st)
  end.

End TypeInduction.

(** ** The renderer state under compilation *)

Lemma ConverterFunction_eqb_eq (a b : ConverterFunction) :
  ConverterFunction_eqb a b = true <-> a = b.
Proof.
  split.
  - destruct a, b; intros Heq; try reflexivity; discriminate Heq.
  - intros ->. destruct b; reflexivity.
Qed.

Lemma setAdd_In (cf : ConverterFunction) (l : list ConverterFunction) :
  In cf (setAdd cf l).
Proof.
  unfold setAdd. destruct (existsb (ConverterFunction_eqb cf) l) eqn:Hex.
  - apply existsb_exists in Hex as [x [Hin Heq]].
    apply ConverterFunction_eqb_eq in Heq. now subst.
  - apply in_or_app. right. now left.
Qed.

Lemma setAdd_app (cf : ConverterFunction) (l : list ConverterFunction) :
  exists more, setAdd cf l = l ++ more.
Proof.
  unfold setAdd. destruct (existsb (ConverterFunction_eqb cf) l).
  - exists []. now rewrite app_nil_r.
  - now exists [cf].
Qed.

Lemma setAdd_NoDup (cf : ConverterFunction) (l : list ConverterFunction) :
  NoDup l -> NoDup (setAdd cf l).
Proof.
  intros Hl. unfold setAdd.
  destruct (existsb (ConverterFunction_eqb cf) l) eqn:Hex; [exact Hl|].
  apply NoDup_app; [exact Hl|repeat constructor; intros []|].
  intros x Hx Hcf. destruct Hcf as [<-|[]].
  assert (Hsome : existsb (ConverterFunction_eqb cf) l = true).
  { apply existsb_exists. exists cf. split; [exact Hx|].
    now apply ConverterFunction_eqb_eq. }
  congruence.
Qed.

Lemma setUnionInto_one_idem (names : list string) (n : string) :
  setUnionInto (setUnionInto names [n]) [n] = setUnionInto names [n].
Proof.
  unfold setUnionInto. simpl.
  destruct (existsb (String.eqb n) names) eqn:Hex.
  - now rewrite Hex.
  - rewrite existsb_app, Hex. simpl. now rewrite String.eqb_refl.
Qed.

Lemma addImport_idem (module name : string) (m : list (string * list string)) :
  addImport module name (addImport module name m) = addImport module name m.
Proof.
  unfold addImport. induction m as [|[k names] rest IH]; cbn [mapUpdateInto].
  - rewrite String.eqb_refl. unfold setUnionInto. simpl. now rewrite String.eqb_refl.
  - destruct (String.eqb k module) eqn:Hk; cbn [mapUpdateInto]; rewrite Hk.
    + now rewrite setUnionInto_one_idem.
    + now rewrite IH.
Qed.

Lemma Extends_refl (s : RenderState) : Extends s s.
Proof.
  split; [|split].
  - exists []. now rewrite app_nil_r.
  - trivial.
  - now left.
Qed.

Lemma Extends_trans (s1 s2 s3 : RenderState) :
  Extends s1 s2 -> Extends s2 s3 -> Extends s1 s3.
Proof.
  intros [[m1 H1] [N1 I1]] [[m2 H2] [N2 I2]]. split; [|split].
  - exists (m1 ++ m2). now rewrite H2, H1, app_assoc.
  - auto.
  - destruct I1 as [I1|I1], I2 as [I2|I2]; rewrite I2, I1; auto.
    right. apply addImport_idem.
Qed.


Lemma StepOk_ret {A : Type} (a : A) : StepOk (ret a).
Proof. intros s r s' Hrun. inversion Hrun; subst. apply Extends_refl. Qed.

Lemma StepOk_panic {A : Type} (msg : string) : StepOk (@panic A msg).
Proof. intros s r s' Hrun. discriminate Hrun. Qed.

Lemma StepOk_bind {A B : Type} (m : Gen A) (k : A -> Gen B) :
  StepOk m -> (forall a, StepOk (k a)) -> StepOk (bind m k).
Proof.
  intros Hm Hk s r s' Hrun. unfold bind in Hrun.
  destruct (m s) as [[a s1]|msg] eqn:Hms; [|discriminate].
  eapply Extends_trans; [exact (Hm _ _ _ Hms)|exact (Hk _ _ _ _ Hrun)].
Qed.

Lemma StepOk_mapM {A B : Type} (f : A -> Gen B) (items : list A) :
  Forall (fun x => StepOk (f x)) items -> StepOk (mapM f items).
Proof.
  induction 1 as [|x rest Hx _ IH]; simpl.
  - apply StepOk_ret.
  - apply StepOk_bind; [exact Hx|]. intros y.
    apply StepOk_bind; [exact IH|]. intros ys. apply StepOk_ret.
Qed.

Lemma conv_done (cf : ConverterFunction) (s : RenderState) :
  exists r,
    conv cf s
    = Done (r, {| imports := imports s;
                  deserializerFunctions := setAdd cf (deserializerFunctions s) |}).
Proof. destruct cf; eexists; unfold conv, bind, modify; cbn; reflexivity. Qed.

Lemma StepOk_conv (cf : ConverterFunction) : StepOk (conv cf).
Proof.
  intros s r s' Hrun. destruct (conv_done cf s) as [r0 Hdone].
  rewrite Hdone in Hrun. inversion Hrun; subst. split; [|split]; simpl.
  - apply setAdd_app.
  - apply setAdd_NoDup.
  - now left.
Qed.

Lemma withImport_datetime (o : PythonOptions) (s : RenderState) :
  withImport o "datetime" "datetime" s
  = Done (Str "datetime",
          {| imports := addImport "datetime" "datetime" (imports s);
             deserializerFunctions := deserializerFunctions s |}).
Proof.
  unfold withImport, bind, modify, ret. simpl.
  now rewrite Bool.orb_true_r.
Qed.

Lemma StepOk_typeObject (o : PythonOptions) (t : QType) : StepOk (typeObject o t).
Proof.
  unfold typeObject. apply StepOk_bind.
  - destruct (shapeOf t) as [| | | | | | | | | | |k];
      try apply StepOk_ret.
    destruct k; try apply StepOk_ret.
    apply StepOk_bind; [|intros; apply StepOk_ret].
    intros s r s' Hrun. rewrite withImport_datetime in Hrun.
    inversion Hrun; subst. split; [|split]; simpl.
    + exists []. now rewrite app_nil_r.
    + trivial.
    + now right.
  - intros [r|]; [apply StepOk_ret|apply StepOk_panic].
Qed.

Section CompilerInvariant.
Context `{SourceSupport}.
Variable o : PythonOptions.

Local Abbreviation TypeOk := (TypeOk o).
Local Abbreviation TransformerOk := (TransformerOk o).


Lemma VolOk_ret (input : ValueOrLambda) : VolOk input (ret input).
Proof. intros s vol s' Hrun. inversion Hrun; subst. split; [reflexivity|apply Extends_refl]. Qed.

Lemma VolOk_panic (input : ValueOrLambda) (msg : string) : VolOk input (panic msg).
Proof. intros s vol s' Hrun. discriminate Hrun. Qed.

Lemma VolOk_bind (input : ValueOrLambda) (m : Gen ValueOrLambda)
    (k : ValueOrLambda -> Gen ValueOrLambda) :
  VolOk input m -> (forall vol, VolOk vol (k vol)) -> VolOk input (bind m k).
Proof.
  intros Hm Hk s vol s' Hrun. unfold bind in Hrun.
  destruct (m s) as [[v1 s1]|msg] eqn:Hms; [|discriminate].
  destruct (Hm _ _ _ Hms) as [Hv1 He1]. destruct (Hk _ _ _ _ Hrun) as [Hv2 He2].
  split; [congruence|eapply Extends_trans; eassumption].
Qed.

Lemma VolOk_after {A : Type} (input : ValueOrLambda) (m : Gen A)
    (k : A -> Gen ValueOrLambda) :
  StepOk m -> (forall a, VolOk input (k a)) -> VolOk input (bind m k).
Proof.
  intros Hm Hk s vol s' Hrun. unfold bind in Hrun.
  destruct (m s) as [[a s1]|msg] eqn:Hms; [|discriminate].
  destruct (Hk _ _ _ _ Hrun) as [Hv He]. split; [exact Hv|].
  eapply Extends_trans; [exact (Hm _ _ _ Hms)|exact He].
Qed.

Lemma StepOk_of_VolOk (input : ValueOrLambda) (m : Gen ValueOrLambda) :
  VolOk input m -> StepOk m.
Proof. intros Hm s r s' Hrun. exact (proj2 (Hm _ _ _ Hrun)). Qed.

Lemma VolOk_compose_step (input : ValueOrLambda) (f : Sourcelike -> Gen Sourcelike) :
  (forall v, StepOk (f v)) -> VolOk input (compose input (Step f)).
Proof.
  intros Hf s vol s' Hrun.
  destruct input as [[v|] [l|]]; cbn in Hrun; unfold bind in Hrun.
  - destruct (f _ s) as [[r s1]|msg] eqn:Hfs; [|discriminate].
    inversion Hrun; subst. split; [reflexivity|exact (Hf _ _ _ _ Hfs)].
  - destruct (f _ s) as [[r s1]|msg] eqn:Hfs; [|discriminate].
    inversion Hrun; subst. split; [reflexivity|exact (Hf _ _ _ _ Hfs)].
  - destruct (f _ s) as [[r s1]|msg] eqn:Hfs; [|discriminate].
    inversion Hrun; subst. split; [reflexivity|exact (Hf _ _ _ _ Hfs)].
  - destruct (f _ s) as [[r s1]|msg] eqn:Hfs; [|discriminate].
    inversion Hrun; subst. split; [reflexivity|exact (Hf _ _ _ _ Hfs)].
Qed.

Lemma VolOk_compose_pending (input f : ValueOrLambda) :
  VolOk input (compose input (Pending f)).
Proof.
  intros s vol s' Hrun.
  destruct f as [[fv|] [fl|]], input as [[v|] [l|]]; cbn in Hrun;
    try discriminate; inversion Hrun; subst;
    (split; [reflexivity|apply Extends_refl]).
Qed.

Lemma VolOk_convFn (cf : ConverterFunction) (input : ValueOrLambda) :
  VolOk input (convFn cf input).
Proof.
  unfold convFn. apply VolOk_after; [apply StepOk_conv|].
  intros c. apply VolOk_compose_pending.
Qed.

Lemma StepOk_unionCall (lambdas : list Sourcelike) (v : Sourcelike) :
  StepOk (unionCall lambdas v).
Proof.
  unfold unionCall. apply StepOk_bind; [apply StepOk_conv|]. intros c. apply StepOk_ret.
Qed.

Lemma StepOk_pureStep (g : Sourcelike -> Sourcelike) (v : Sourcelike) :
  StepOk (pureStep g v).
Proof. apply StepOk_ret. Qed.


(** The element converter of an array or a map, as a step. *)
Lemma StepOk_element (c : ConverterFunction) (m : Gen ValueOrLambda) (v : Sourcelike) :
  VolOk identity m ->
  StepOk (c0 <- conv c ;; el <- m ;;
          ret (Arr [c0; Str "("; source (makeLambda el); Str ", "; v; Str ")"])).
Proof.
  intros Hm. apply StepOk_bind; [apply StepOk_conv|]. intros c0.
  apply StepOk_bind; [exact (StepOk_of_VolOk _ _ Hm)|]. intros el. apply StepOk_ret.
Qed.

Lemma VolOk_union (input : ValueOrLambda) {A : Type} (f : A -> Gen ValueOrLambda)
    (items : list A) :
  Forall (fun x => VolOk identity (f x)) items ->
  VolOk input
    (lambdas <- mapM (fun x => vol <- f x ;; ret (source (makeLambda vol))) items ;;
     compose input (Step (unionCall lambdas))).
Proof.
  intros Hall. apply VolOk_after.
  - apply StepOk_mapM. eapply Forall_impl; [|exact Hall].
    intros x Hx. apply StepOk_bind; [exact (StepOk_of_VolOk _ _ Hx)|].
    intros vol. apply StepOk_ret.
  - intros lambdas. apply VolOk_compose_step. intros v. apply StepOk_unionCall.
Qed.

Lemma VolOk_consume (targetType : QType) (consumer : option Transformer)
    (vol : ValueOrLambda) :
  TypeOk targetType ->
  optionAll (fun x => TransformerOk x /\ TypeOk (sourceTypeOf x)) consumer ->
  VolOk vol (consume o targetType consumer vol).
Proof.
  intros Ht Hc. destruct consumer as [c|]; simpl.
  - apply (proj1 Hc targetType Ht).
  - apply VolOk_ret.
Qed.

Lemma compiler_ok : (forall t, TypeOk t) /\ (forall x, TransformerOk x).
Proof.
  assert (Hleaf : forall shape,
             match shape with
             | ArrayType _ | MapType _ | UnionType _ => False
             | _ => True
             end -> TypeOk (MkType None shape)).
  { intros shape Hshape input.
    destruct shape as [| | | | | |items|name|values|name|members|k];
      try contradiction; cbn [deserializer serializer];
      try (destruct k); split;
      try apply VolOk_ret; try apply VolOk_convFn; try apply VolOk_panic;
      try apply VolOk_compose_pending;
      apply VolOk_compose_step; intros v;
      try apply StepOk_pureStep;
      (apply StepOk_bind; [apply StepOk_conv|intros c; apply StepOk_ret]). }
  assert (Harray : forall items, TypeOk items -> TypeOk (MkType None (ArrayType items))).
  { intros items IH input. cbn [deserializer serializer].
    split; apply VolOk_compose_step; intros v; apply StepOk_element; apply IH. }
  assert (Hmap : forall values, TypeOk values -> TypeOk (MkType None (MapType values))).
  { intros values IH input. cbn [deserializer serializer].
    split; apply VolOk_compose_step; intros v; apply StepOk_element; apply IH. }
  assert (Hunion : forall members,
             Forall TypeOk members -> TypeOk (MkType None (UnionType members))).
  { intros members IH input. cbn [deserializer serializer]. split.
    - apply (VolOk_union input (fun m => deserializer o identity m)).
      eapply Forall_impl; [|exact IH]. intros m Hm. apply Hm.
    - apply (VolOk_union input (fun m => serializer o identity m)).
      eapply Forall_impl; [|exact IH]. intros m Hm. apply Hm. }
  assert (Hxf : forall targetType xfer reverseTargetType reverseXfer shape,
             TypeOk targetType -> TransformerOk xfer ->
             TypeOk reverseTargetType -> TransformerOk reverseXfer ->
             TypeOk (MkType (Some (MkTransformation targetType xfer
                                     reverseTargetType reverseXfer)) shape)).
  { intros tgt x rtgt rx shape Ht Hx Hrt Hrx input. split.
    - exact (Hx tgt Ht input).
    - exact (Hrx rtgt Hrt input). }
  assert (Hchoice : forall xs targetType input,
             Forall TransformerOk xs -> TypeOk targetType ->
             VolOk input
               (lambdas <- mapM (fun x => vol <- transformer o identity x targetType ;;
                                          ret (source (makeLambda vol))) xs ;;
                compose input (Step (unionCall lambdas)))).
  { intros xs tgt input Hxs Ht.
    apply (VolOk_union input (fun x => transformer o identity x tgt)).
    eapply Forall_impl; [|exact Hxs]. intros x Hx. now apply Hx. }
  assert (Hconsume : forall targetType c vol,
             TypeOk targetType ->
             optionAll (fun x => TransformerOk x /\ TypeOk (sourceTypeOf x)) c ->
             VolOk vol
               (match c with
                | None => ret vol
                | Some x => transformer o vol x targetType
                end)).
  { intros tgt c vol Ht Hc. exact (VolOk_consume tgt c vol Ht Hc). }
  assert (Hdc : forall st xs, TypeOk st -> Forall TransformerOk xs ->
                              TransformerOk (DecodingChoiceTransformer st xs)).
  { intros st xs _ Hxs tgt Ht input. now apply Hchoice. }
  assert (Hc : forall st xs, TypeOk st -> Forall TransformerOk xs ->
                             TransformerOk (ChoiceTransformer st xs)).
  { intros st xs _ Hxs tgt Ht input. now apply Hchoice. }
  assert (Hdec : forall st c, TypeOk st ->
             optionAll (fun x => TransformerOk x /\ TypeOk (sourceTypeOf x)) c ->
             TransformerOk (DecodingTransformer st c)).
  { intros st c Hst Hcons tgt Ht input.
    apply (VolOk_bind input (deserializer o input st)); [apply Hst|].
    intros vol. now apply Hconsume. }
  assert (Henc : forall st, TypeOk st -> TransformerOk (EncodingTransformer st)).
  { intros st Hst tgt Ht input. apply Hst. }
  assert (Hinst : forall st, TypeOk st -> TransformerOk (UnionInstantiationTransformer st)).
  { intros st Hst tgt Ht input. apply VolOk_ret. }
  assert (Hmatch : forall st c mt, TypeOk st ->
             optionAll (fun x => TransformerOk x /\ TypeOk (sourceTypeOf x)) c ->
             TypeOk mt -> TransformerOk (UnionMemberMatchTransformer st c mt)).
  { intros st c mt _ Hcons _ tgt Ht input.
    apply (VolOk_bind input (isType o mt input)).
    - apply VolOk_compose_step. intros v.
      apply StepOk_bind; [apply StepOk_conv|]. intros c0.
      apply StepOk_bind; [apply StepOk_typeObject|]. intros ob. apply StepOk_ret.
    - intros vol. now apply Hconsume. }
  assert (Hparse : forall st c, TypeOk st ->
             optionAll (fun x => TransformerOk x /\ TypeOk (sourceTypeOf x)) c ->
             TransformerOk (ParseStringTransformer st c)).
  { intros st c _ Hcons tgt Ht input.
    unfold transformer. cbn [transformerBody].
    set (imm := match c with None => tgt | Some x => sourceTypeOf x end).
    assert (Himm : TypeOk imm).
    { subst imm. destruct c as [x|]; [exact (proj2 Hcons)|exact Ht]. }
    destruct (String.eqb (kindOf imm) "integer").
    { apply (VolOk_bind input (compose input (Step (pureStep _)))).
      - apply VolOk_compose_step. intros v. apply StepOk_pureStep.
      - intros vol. now apply Hconsume. }
    destruct (String.eqb (kindOf imm) "enum").
    { apply (VolOk_bind input (deserializer o input imm)); [apply Himm|].
      intros vol. now apply Hconsume. }
    destruct (String.eqb (kindOf imm) "date-time").
    { apply (VolOk_bind input (convFn CfFromDatetime input)); [apply VolOk_convFn|].
      intros vol. now apply Hconsume. }
    apply VolOk_panic. }
  assert (Hstr : forall st c, TypeOk st ->
             optionAll (fun x => TransformerOk x /\ TypeOk (sourceTypeOf x)) c ->
             TransformerOk (StringifyTransformer st c)).
  { intros st c Hst Hcons tgt Ht input.
    unfold transformer. cbn [transformerBody].
    destruct (String.eqb (kindOf st) "integer").
    { apply (VolOk_bind input (compose input (Step (pureStep _)))).
      - apply VolOk_compose_step. intros v. apply StepOk_pureStep.
      - intros vol. now apply Hconsume. }
    destruct (String.eqb (kindOf st) "enum").
    { apply (VolOk_bind input (serializer o input st)); [apply Hst|].
      intros vol. now apply Hconsume. }
    destruct (String.eqb (kindOf st) "date-time").
    { apply (VolOk_bind input (compose input (Step (pureStep _)))).
      - apply VolOk_compose_step. intros v. apply StepOk_pureStep.
      - intros vol. now apply Hconsume. }
    apply VolOk_panic. }
  assert (Hother : forall k st, TypeOk st -> TransformerOk (OtherTransformer k st)).
  { intros k st _ tgt Ht input. apply VolOk_panic. }
  split.
  - now apply (QType_induction TypeOk TransformerOk).
  - now apply (Transformer_induction TypeOk TransformerOk).
Qed.

(** X1. Compiling keeps the mode of its input: whatever [deserializer],
    [serializer] or [transformer] return has a value exactly when the input
    has one, for every type and transformer. *)
Theorem compiler_keeps_mode (input : ValueOrLambda) (t : QType) (x : Transformer)
    (s s' : RenderState) (vol : ValueOrLambda) :
  (deserializer o input t s = Done (vol, s') -> hasValue vol = hasValue input)
  /\ (serializer o input t s = Done (vol, s') -> hasValue vol = hasValue input)
  /\ (transformer o input x t s = Done (vol, s') -> hasValue vol = hasValue input).
Proof.
  destruct compiler_ok as [Ht Hx]. split; [|split]; intros Hrun.
  - exact (proj1 (proj1 (Ht t input) _ _ _ Hrun)).
  - exact (proj1 (proj2 (Ht t input) _ _ _ Hrun)).
  - exact (proj1 (Hx x t (Ht t) input _ _ _ Hrun)).
Qed.

(** X2. The top-level converters and the class methods collapse what the
    compiler returns for a variable with [makeValue]: that never panics.
    When [deserializer] or [serializer] return on an input that has a value,
    [makeValue] of the result returns. *)
Theorem makeValue_after_compiling (input : ValueOrLambda) (t : QType)
    (s s' : RenderState) (vol : ValueOrLambda) :
  hasValue input = true ->
  deserializer o input t s = Done (vol, s') \/ serializer o input t s = Done (vol, s') ->
  exists e, makeValue vol s' = Done (e, s').
Proof.
  intros Hin Hrun.
  assert (Hv : hasValue vol = true).
  { rewrite <- Hin. destruct compiler_ok as [Ht _]. destruct Hrun as [Hrun|Hrun].
    - exact (proj1 (proj1 (Ht t input) _ _ _ Hrun)).
    - exact (proj1 (proj2 (Ht t input) _ _ _ Hrun)). }
  unfold hasValue in Hv. destruct (value vol) as [v|] eqn:Hvalue; [|discriminate].
  unfold makeValue. rewrite Hvalue. destruct (lambda vol); eexists; reflexivity.
Qed.

(** X3. The set of converter functions in use only grows, at its end, and
    stays free of repetitions, through every run of the compiler. *)
Theorem compiler_registers_append_only (input : ValueOrLambda) (t : QType)
    (x : Transformer) (s s' : RenderState) (vol : ValueOrLambda) :
  deserializer o input t s = Done (vol, s')
  \/ serializer o input t s = Done (vol, s')
  \/ transformer o input x t s = Done (vol, s') ->
  (exists more, deserializerFunctions s' = deserializerFunctions s ++ more)
  /\ (NoDup (deserializerFunctions s) -> NoDup (deserializerFunctions s')).
Proof.
  destruct compiler_ok as [Ht Hx]. intros Hrun.
  assert (He : Extends s s').
  { destruct Hrun as [Hrun|[Hrun|Hrun]].
    - exact (proj2 (proj1 (Ht t input) _ _ _ Hrun)).
    - exact (proj2 (proj2 (Ht t input) _ _ _ Hrun)).
    - exact (proj2 (Hx x t (Ht t) input _ _ _ Hrun)). }
  destruct He as [Happ [Hnodup _]]. now split.
Qed.

(** X4. The only import the compiler asks for is [datetime] from
    [datetime]: after a run the imports are what they were, or that with
    this one import added. *)
Theorem compiler_imports_datetime_only (input : ValueOrLambda) (t : QType)
    (x : Transformer) (s s' : RenderState) (vol : ValueOrLambda) :
  deserializer o input t s = Done (vol, s')
  \/ serializer o input t s = Done (vol, s')
  \/ transformer o input x t s = Done (vol, s') ->
  imports s' = imports s
  \/ imports s' = addImport "datetime" "datetime" (imports s).
Proof.
  destruct compiler_ok as [Ht Hx]. intros Hrun.
  assert (He : Extends s s').
  { destruct Hrun as [Hrun|[Hrun|Hrun]].
    - exact (proj2 (proj1 (Ht t input) _ _ _ Hrun)).
    - exact (proj2 (proj2 (Ht t input) _ _ _ Hrun)).
    - exact (proj2 (Hx x t (Ht t) input _ _ _ Hrun)). }
  exact (proj2 (proj2 He)).
Qed.

End CompilerInvariant.

(** ** Choice nodes *)

Lemma mapM_of_runs {A B C : Type} (f : A -> Gen B) (g : B -> C) (items : list A)
    (ys : list B) (s s' : RenderState) :
  RunsInOrder f items ys s s' ->
  mapM (fun x => y <- f x ;; ret (g y)) items s = Done (map g ys, s').
Proof.
  induction 1 as [|x y xs ys s s1 s2 Hx _ IH]; [reflexivity|].
  cbn [mapM map]. unfold bind at 1. unfold bind at 1. rewrite Hx.
  unfold ret at 1. unfold bind at 1. now rewrite IH.
Qed.

Section ChoiceFacts.
Context `{SourceSupport}.
Variable pyOptions : PythonOptions.

Local Abbreviation transformer := (transformer pyOptions).

(** What is compiled from [identity] has no value, so its lambda is its
    pending function, or [lambda x: x] when nothing is pending. *)
Lemma branch_lambda (x : Transformer) (targetType : QType) (vol : ValueOrLambda)
    (s s' : RenderState) :
  transformer identity x targetType s = Done (vol, s') ->
  value vol = None
  /\ makeLambda vol
     = match lambda vol with
       | Some l => l
       | None => multiWord (Str " ") [Str "lambda x:"; Str "x"]
       end.
Proof.
  intros Hrun.
  destruct (proj2 (compiler_ok pyOptions) x targetType
              (proj1 (compiler_ok pyOptions) targetType) identity s vol s' Hrun)
    as [Hmode _].
  unfold hasValue in Hmode. cbn [value identity] in Hmode.
  destruct vol as [[v|] l]; [discriminate|].
  split; [reflexivity|]. destruct l; reflexivity.
Qed.

Lemma branch_lambdas (transformers : list Transformer) (targetType : QType)
    (vols : list ValueOrLambda) (s s' : RenderState) :
  RunsInOrder (fun x => transformer identity x targetType) transformers vols s s' ->
  Forall (fun vol => value vol = None) vols
  /\ map (fun vol => source (makeLambda vol)) vols
     = map (fun vol => source match lambda vol with
                              | Some l => l
                              | None => multiWord (Str " ") [Str "lambda x:"; Str "x"]
                              end) vols.
Proof.
  induction 1 as [|x vol xs vols s s1 s2 Hx _ [IHv IHl]]; [split; [constructor|reflexivity]|].
  destruct (branch_lambda x targetType vol s s1 Hx) as [Hv Hl].
  split; [constructor; assumption|]. cbn [map]. now rewrite Hl, IHl.
Qed.

(** C7. At a choice node every branch is compiled from [identity] and
    turned into a lambda, in list order and without looking at the input;
    the result is the input composed with the union-try call, which gets
    the list of these lambdas and then the value.  A branch that panics
    makes the whole node panic.  When the branches compile, one after the
    other, to [vols], none of these has a value, the lambda of a branch is
    its pending function ([lambda x: x] for a branch that does nothing),
    and the node gives [from_union([lambdas], value)]: as the new value
    when the input has one, inside a lambda otherwise; [from_union] is
    registered after the converters of the branches. *)
Theorem transformer_choice (inputTransformer : ValueOrLambda)
    (sourceType : QType) (transformers : list Transformer) (targetType : QType) :
  let branch x :=
    vol <- transformer identity x targetType ;; ret (source (makeLambda vol)) in
  let result :=
    lambdas <- mapM branch transformers ;;
    compose inputTransformer (Step (unionCall lambdas)) in
  transformer inputTransformer (DecodingChoiceTransformer sourceType transformers)
    targetType = result
  /\ transformer inputTransformer (ChoiceTransformer sourceType transformers)
       targetType = result
  /\ (forall s,
        match mapM branch transformers s with
        | Done (lambdas, s1) =>
            RunsInOrder branch transformers lambdas s s1
            /\ length lambdas = length transformers
            /\ result s = compose inputTransformer (Step (unionCall lambdas)) s1
        | Panicked message => result s = Panicked message
        end)
  /\ (forall lambdas v s,
        unionCall lambdas v s
        = Done (Arr [Arr [Str "from_"; Str "union"]; Str "([";
                     Arr (arrayIntercalate (Str ", ") lambdas); Str "], "; v; Str ")"],
                {| imports := imports s;
                   deserializerFunctions :=
                     setAdd CfUnion (deserializerFunctions s) |}))
  /\ (forall vols s s1,
        RunsInOrder (fun x => transformer identity x targetType) transformers vols s s1 ->
        let lambdaOf vol :=
          source match lambda vol with
                 | Some l => l
                 | None => multiWord (Str " ") [Str "lambda x:"; Str "x"]
                 end in
        let from_union v :=
          Arr [Arr [Str "from_"; Str "union"]; Str "([";
               Arr (arrayIntercalate (Str ", ") (map lambdaOf vols)); Str "], ";
               v; Str ")"] in
        let compiled :=
          match value inputTransformer, lambda inputTransformer with
          | Some v, None => {| value := Some (from_union v); lambda := None |}
          | Some v, Some l =>
              {| value := Some (from_union (Arr [parenIfNeeded l; Str "("; v; Str ")"]));
                 lambda := None |}
          | None, Some l =>
              {| value := None;
                 lambda := Some (multiWord (Str " ")
                                   [Str "lambda x:";
                                    from_union (Arr [parenIfNeeded l; Str "(x)"])]) |}
          | None, None =>
              {| value := None;
                 lambda := Some (multiWord (Str " ")
                                   [Str "lambda x:"; from_union (Str "x")]) |}
          end in
        let registered :=
          {| imports := imports s1;
             deserializerFunctions := setAdd CfUnion (deserializerFunctions s1) |} in
        Forall (fun vol => value vol = None) vols
        /\ transformer inputTransformer
             (DecodingChoiceTransformer sourceType transformers) targetType s
           = Done (compiled, registered)
        /\ transformer inputTransformer
             (ChoiceTransformer sourceType transformers) targetType s
           = Done (compiled, registered)).
Proof.
  intros branch result.
  split; [reflexivity|]. split; [reflexivity|]. split; [|split; [reflexivity|]].
  - intros s. destruct (mapM branch transformers s) as [[lambdas s1]|message] eqn:Hrun.
    + pose proof (mapM_done _ _ _ _ _ Hrun) as Hord.
      split; [exact Hord|]. split; [exact (RunsInOrder_length _ _ _ _ _ Hord)|].
      subst result. unfold bind at 1. now rewrite Hrun.
    + subst result. unfold bind at 1. now rewrite Hrun.
  - intros vols s s1 Hruns lambdaOf from_union compiled registered.
    destruct (branch_lambdas transformers targetType vols s s1 Hruns) as [Hvalues Hlambdas].
    split; [exact Hvalues|].
    assert (Hresult : result s = Done (compiled, registered)).
    { subst result. unfold bind at 1. subst branch.
      rewrite (mapM_of_runs _ (fun vol => source (makeLambda vol)) _ _ _ _ Hruns).
      rewrite Hlambdas. subst compiled registered from_union lambdaOf.
      destruct inputTransformer as [[v|] [l|]]; reflexivity. }
    split; exact Hresult.
Qed.

End ChoiceFacts.

(** ** When the compiler returns and when it panics *)


Lemma Succeeds_ret {A : Type} (a : A) : Succeeds (ret a).
Proof. intros s. now exists a, s. Qed.

Lemma Succeeds_bind {A B : Type} (m : Gen A) (k : A -> Gen B) :
  Succeeds m -> (forall a, Succeeds (k a)) -> Succeeds (bind m k).
Proof.
  intros Hm Hk s. destruct (Hm s) as [a [s1 Hms]]. destruct (Hk a s1) as [b [s2 Hks]].
  exists b, s2. unfold bind. now rewrite Hms.
Qed.

Lemma PanicsWith_first {A B : Type} (M : string -> Prop) (m : Gen A) (k : A -> Gen B) :
  PanicsWith M m -> PanicsWith M (bind m k).
Proof.
  intros Hm s. destruct (Hm s) as [msg [Hms HM]]. exists msg. unfold bind.
  now rewrite Hms.
Qed.

Lemma PanicsWith_then {A B : Type} (M : string -> Prop) (m : Gen A) (k : A -> Gen B) :
  Succeeds m -> (forall a, PanicsWith M (k a)) -> PanicsWith M (bind m k).
Proof.
  intros Hm Hk s. destruct (Hm s) as [a [s1 Hms]]. destruct (Hk a s1) as [msg [Hks HM]].
  exists msg. unfold bind. now rewrite Hms.
Qed.

Lemma Succeeds_conv (cf : ConverterFunction) : Succeeds (conv cf).
Proof. intros s. destruct (conv_done cf s) as [r Hr]. eauto. Qed.

Lemma Succeeds_mapM {A B : Type} (f : A -> Gen B) (items : list A) :
  Forall (fun x => Succeeds (f x)) items -> Succeeds (mapM f items).
Proof.
  induction 1 as [|x rest Hx _ IH]; simpl.
  - apply Succeeds_ret.
  - apply Succeeds_bind; [exact Hx|]. intros y.
    apply Succeeds_bind; [exact IH|]. intros ys. apply Succeeds_ret.
Qed.

Lemma PanicsWith_mapM {A B : Type} (M : string -> Prop) (f : A -> Gen B)
    (ok : A -> bool) (items : list A) :
  Forall (fun x => if ok x then Succeeds (f x) else PanicsWith M (f x)) items ->
  forallb ok items = false ->
  PanicsWith M (mapM f items).
Proof.
  induction 1 as [|x rest Hx _ IH]; simpl; [discriminate|].
  destruct (ok x); simpl; intros Hrest.
  - apply PanicsWith_then; [exact Hx|]. intros y.
    apply PanicsWith_first. now apply IH.
  - now apply PanicsWith_first.
Qed.

Section CompilerOutcome.
Context `{SourceSupport}.
Variable o : PythonOptions.

Local Abbreviation OutcomeOf := (OutcomeOf o).

Lemma Succeeds_makeValue (input : ValueOrLambda) :
  hasValue input = true -> Succeeds (makeValue input).
Proof.
  intros Hv s. unfold hasValue in Hv. unfold makeValue.
  destruct (value input); [|discriminate].
  destruct (lambda input); do 2 eexists; reflexivity.
Qed.

Lemma Succeeds_compose_step (input : ValueOrLambda) (f : Sourcelike -> Gen Sourcelike) :
  (forall v, Succeeds (f v)) -> Succeeds (compose input (Step f)).
Proof.
  intros Hf. rewrite compose_step_unfold.
  destruct (value input) as [v|] eqn:Hv.
  - apply Succeeds_bind.
    + apply Succeeds_makeValue. unfold hasValue. now rewrite Hv.
    + intros e. apply Succeeds_bind; [apply Hf|]. intros r. apply Succeeds_ret.
  - destruct (lambda input);
      (apply Succeeds_bind; [apply Hf|]; intros r; apply Succeeds_ret).
Qed.

Lemma PanicsWith_compose_step (M : string -> Prop) (input : ValueOrLambda)
    (f : Sourcelike -> Gen Sourcelike) :
  (forall v, PanicsWith M (f v)) -> PanicsWith M (compose input (Step f)).
Proof.
  intros Hf. rewrite compose_step_unfold.
  destruct (value input) as [v|] eqn:Hv.
  - apply PanicsWith_then.
    + apply Succeeds_makeValue. unfold hasValue. now rewrite Hv.
    + intros e. apply PanicsWith_first. apply Hf.
  - destruct (lambda input); apply PanicsWith_first; apply Hf.
Qed.

Lemma Succeeds_compose_lambda (input : ValueOrLambda) (fl : MultiWord) :
  Succeeds (compose input (Pending {| value := None; lambda := Some fl |})).
Proof.
  intros s. rewrite compose_pending_cases.
  destruct (value input), (lambda input); do 2 eexists; reflexivity.
Qed.

Lemma Succeeds_convFn (cf : ConverterFunction) (input : ValueOrLambda) :
  Succeeds (convFn cf input).
Proof.
  unfold convFn. apply Succeeds_bind; [apply Succeeds_conv|].
  intros c. apply Succeeds_compose_lambda.
Qed.


Lemma Succeeds_element (c : ConverterFunction) (m : Gen ValueOrLambda) (v : Sourcelike) :
  Succeeds m ->
  Succeeds (c0 <- conv c ;; el <- m ;;
            ret (Arr [c0; Str "("; source (makeLambda el); Str ", "; v; Str ")"])).
Proof.
  intros Hm. apply Succeeds_bind; [apply Succeeds_conv|]. intros c0.
  apply Succeeds_bind; [exact Hm|]. intros el. apply Succeeds_ret.
Qed.

Lemma PanicsWith_element (M : string -> Prop) (c : ConverterFunction)
    (m : Gen ValueOrLambda) (v : Sourcelike) :
  PanicsWith M m ->
  PanicsWith M (c0 <- conv c ;; el <- m ;;
                ret (Arr [c0; Str "("; source (makeLambda el); Str ", "; v; Str ")"])).
Proof.
  intros Hm. apply PanicsWith_then; [apply Succeeds_conv|]. intros c0.
  now apply PanicsWith_first.
Qed.

Lemma Succeeds_unionCall (lambdas : list Sourcelike) (v : Sourcelike) :
  Succeeds (unionCall lambdas v).
Proof.
  unfold unionCall. apply Succeeds_bind; [apply Succeeds_conv|]. intros c.
  apply Succeeds_ret.
Qed.

(** The union case, for either direction [f]. *)
Lemma union_outcome (f : ValueOrLambda -> QType -> Gen ValueOrLambda)
    (members : list QType) (input : ValueOrLambda) :
  Forall (fun m => if everyShape isDateTimeOrPlain m
                   then Succeeds (f identity m)
                   else PanicsWith unsupportedMessage (f identity m)) members ->
  let compiled :=
    lambdas <- mapM (fun m => vol <- f identity m ;; ret (source (makeLambda vol)))
                 members ;;
    compose input (Step (unionCall lambdas)) in
  if forallb (everyShape isDateTimeOrPlain) members
  then Succeeds compiled
  else PanicsWith unsupportedMessage compiled.
Proof.
  intros Hall compiled. subst compiled.
  destruct (forallb (everyShape isDateTimeOrPlain) members) eqn:Hok.
  - apply Succeeds_bind.
    + apply Succeeds_mapM. rewrite forallb_forall in Hok.
      apply Forall_forall. intros m Hin.
      rewrite Forall_forall in Hall. specialize (Hall m Hin).
      rewrite (Hok m Hin) in Hall.
      apply Succeeds_bind; [exact Hall|]. intros vol. apply Succeeds_ret.
    + intros lambdas. apply Succeeds_compose_step. intros v. apply Succeeds_unionCall.
  - apply PanicsWith_first.
    apply (PanicsWith_mapM unsupportedMessage _ (everyShape isDateTimeOrPlain));
      [|exact Hok].
    eapply Forall_impl; [|exact Hall]. intros m Hm. cbv beta in Hm.
    destruct (everyShape isDateTimeOrPlain m).
    + apply Succeeds_bind; [exact Hm|]. intros vol. apply Succeeds_ret.
    + now apply PanicsWith_first.
Qed.

Lemma unsupported_kind (k : TransformedStringTypeKind) {A : Type} :
  k <> KDateTime ->
  PanicsWith unsupportedMessage
    (@panic A ("Transformed type " ++ transformedKindTag k ++ " not supported")).
Proof. intros Hk s. eexists. split; [reflexivity|]. now exists k. Qed.

Lemma outcome_all (t : QType) : OutcomeOf t.
Proof.
  revert t. apply (QType_induction OutcomeOf (fun _ => True)); try (intros; exact I).
  - (* leaves *)
    intros shape Hshape _ input.
    destruct shape as [| | | | | |items|name|values|name|members|k];
      try contradiction; cbn [everyShape isDateTimeOrPlain andb deserializer serializer].
    1-6, 8: split; try apply Succeeds_ret; try apply Succeeds_convFn;
      try apply Succeeds_compose_lambda;
      (apply Succeeds_compose_step; intros v;
       apply Succeeds_bind; [apply Succeeds_conv|intros c; apply Succeeds_ret]).
    + split; [apply Succeeds_compose_lambda|].
      apply Succeeds_compose_step; intros v.
      apply Succeeds_bind; [apply Succeeds_conv|intros c; apply Succeeds_ret].
    + destruct k; cbn [andb].
      * split; now apply unsupported_kind.
      * split; now apply unsupported_kind.
      * split; [apply Succeeds_convFn|].
        apply Succeeds_compose_step. intros v. apply Succeeds_ret.
      * split; now apply unsupported_kind.
  - (* arrays *)
    intros items IH Hfree input. cbn [everyShape andb] in Hfree |- *.
    specialize (IH Hfree identity). cbn [deserializer serializer].
    destruct (everyShape isDateTimeOrPlain items).
    + split; apply Succeeds_compose_step; intros v; apply Succeeds_element; apply IH.
    + split; apply PanicsWith_compose_step; intros v; apply PanicsWith_element; apply IH.
  - (* maps *)
    intros values IH Hfree input. cbn [everyShape andb] in Hfree |- *.
    specialize (IH Hfree identity). cbn [deserializer serializer].
    destruct (everyShape isDateTimeOrPlain values).
    + split; apply Succeeds_compose_step; intros v; apply Succeeds_element; apply IH.
    + split; apply PanicsWith_compose_step; intros v; apply PanicsWith_element; apply IH.
  - (* unions *)
    intros members IH Hfree input. cbn [everyShape andb] in Hfree |- *.
    rewrite forallb_forall in Hfree.
    assert (Hboth : Forall (fun m =>
              if everyShape isDateTimeOrPlain m
              then Succeeds (deserializer o identity m) /\ Succeeds (serializer o identity m)
              else PanicsWith unsupportedMessage (deserializer o identity m)
                   /\ PanicsWith unsupportedMessage (serializer o identity m)) members).
    { apply Forall_forall. intros m Hin. rewrite Forall_forall in IH.
      exact (IH m Hin (Hfree m Hin) identity). }
    pose proof (union_outcome (deserializer o) members input) as Hd.
    pose proof (union_outcome (serializer o) members input) as Hs.
    cbn [deserializer serializer].
    cbv zeta in Hd, Hs.
    destruct (forallb (everyShape isDateTimeOrPlain) members); split;
      (apply Hd || apply Hs);
      (eapply Forall_impl; [|exact Hboth]); intros m Hm; cbv beta in Hm;
      destruct (everyShape isDateTimeOrPlain m); apply Hm.
  - (* transformed types *)
    intros tgt x rtgt rx shape _ _ _ _ Hfree. discriminate Hfree.
Qed.

(** X5. A type without transformations compiles, in both directions and
    whatever the input and the state, when every transformed string type in
    it is a date-time; when one of them is not, both directions panic with
    the message that names the kind. *)
Theorem compiler_outcome (t : QType) (input : ValueOrLambda) :
  everyShape (fun _ => true) t = true ->
  if everyShape isDateTimeOrPlain t
  then Succeeds (deserializer o input t) /\ Succeeds (serializer o input t)
  else PanicsWith unsupportedMessage (deserializer o input t)
       /\ PanicsWith unsupportedMessage (serializer o input t).
Proof. intros Hfree. exact (outcome_all t Hfree input). Qed.

End CompilerOutcome.

(** ** Types whose two directions coincide *)

Lemma mapM_ext_in {A B : Type} (f g : A -> Gen B) (items : list A) :
  Forall (fun x => f x = g x) items -> mapM f items = mapM g items.
Proof.
  induction 1 as [|x rest Hx _ IH]; simpl; [reflexivity|].
  now rewrite Hx, IH.
Qed.

Section JsonTypes.
Context `{SourceSupport}.
Variable o : PythonOptions.

(** X6. For types made of any, null, bool, integer, string, arrays, maps
    and unions of these, without transformations, the serializer is the
    deserializer: both directions compile to the same code and register
    the same converters. *)
Theorem serializer_is_deserializer (t : QType) (value : ValueOrLambda) :
  everyShape isJsonShape t = true ->
  serializer o value t = deserializer o value t.
Proof.
  revert value. revert t.
  apply (QType_induction
           (fun t => forall value, everyShape isJsonShape t = true ->
                                   serializer o value t = deserializer o value t)
           (fun _ => True)); try (intros; exact I).
  - intros shape Hshape value Hjson.
    destruct shape; try contradiction; try discriminate Hjson; reflexivity.
  - intros items IH value Hjson. cbn [everyShape isJsonShape andb] in Hjson.
    cbn [deserializer serializer]. now rewrite (IH identity Hjson).
  - intros values IH value Hjson. cbn [everyShape isJsonShape andb] in Hjson.
    cbn [deserializer serializer]. now rewrite (IH identity Hjson).
  - intros members IH value Hjson. cbn [everyShape isJsonShape andb] in Hjson.
    rewrite forallb_forall in Hjson. cbn [deserializer serializer].
    rewrite (mapM_ext_in
               (fun m => vol <- serializer o identity m ;; ret (source (makeLambda vol)))
               (fun m => vol <- deserializer o identity m ;; ret (source (makeLambda vol)))
               members); [reflexivity|].
    apply Forall_forall. intros m Hin. rewrite Forall_forall in IH.
    now rewrite (IH m Hin identity (Hjson m Hin)).
  - intros tgt x rtgt rx shape _ _ _ _ value Hjson. discriminate Hjson.
Qed.

End JsonTypes.

(** ** The converters of the generated code *)

Section PythonConverterFacts.
Variables Float Exn World : Type.
Variable AssertionError : Exn.
Variable floatOfInt : Z -> Exn + Float.

Local Abbreviation PyValue := (PyValue Float).
Local Abbreviation PyCallable := (PyCallable Float Exn World).
Local Abbreviation from_none := (from_none Float Exn World AssertionError).
Local Abbreviation from_bool := (from_bool Float Exn World AssertionError).
Local Abbreviation from_int := (from_int Float Exn World AssertionError).
Local Abbreviation from_float := (from_float Float Exn World AssertionError floatOfInt).
Local Abbreviation to_float := (to_float Float Exn World AssertionError).
Local Abbreviation from_str := (from_str Float Exn World AssertionError).
Local Abbreviation from_list := (from_list Float Exn World AssertionError).
Local Abbreviation from_dict := (from_dict Float Exn World AssertionError).
Local Abbreviation from_union := (from_union PyValue Exn World AssertionError).
Local Abbreviation callEach := (callEach Float Exn World).
Local Abbreviation callEachValue := (callEachValue Float Exn World).
Local Abbreviation Checks := (Checks Float Exn World).

Lemma Checks_assertReturn (c : PyValue -> bool) :
  Checks (fun x => assertReturn Float Exn World AssertionError (c x) x x).
Proof.
  intros x w. unfold assertReturn. destruct (c x); [now left|right; now eexists].
Qed.

(** X7. The converters for null, bool, int, str and the float serializer
    only check: they return their argument as it is or raise, and do not
    touch the interpreter state.  A bool is not accepted as an integer or as
    a number, although it is an instance of [int]; the integers themselves
    are. *)
Theorem primitive_converters_check (version : PythonVersion) :
  Checks from_none /\ Checks from_bool /\ Checks from_int
  /\ Checks to_float /\ Checks (from_str version)
  /\ (forall b w, from_int (PyBool Float b) w = (inl AssertionError, w)
                  /\ from_float (PyBool Float b) w = (inl AssertionError, w))
  /\ (forall n w, from_int (PyInt Float n) w = (inr (PyInt Float n), w)).
Proof.
  repeat split; try (intros; reflexivity).
  - apply (Checks_assertReturn (fun x => match x with PyNone _ => true | _ => false end)).
  - apply (Checks_assertReturn (isBool Float)).
  - apply (Checks_assertReturn (fun x => isInt Float x && negb (isBool Float x))).
  - apply (Checks_assertReturn (isFloat Float)).
  - apply (Checks_assertReturn
             (fun x => match version, x with
                       | _, PyStr _ _ => true
                       | V2, PyUnicode _ _ => true
                       | _, _ => false
                       end)).
Qed.

Lemma callEach_app_raise (f : PyCallable) (pre post : list PyValue) (y : PyValue)
    (vs : list PyValue) (e : Exn) (w w1 w2 : World) :
  callEach f pre w = (inr vs, w1) ->
  f y w1 = (inl e, w2) ->
  callEach f (pre ++ y :: post) w = (inl e, w2).
Proof.
  revert vs w. induction pre as [|p pre IH]; intros vs w Hpre Hy; simpl in *.
  - inversion Hpre; subst. now rewrite Hy.
  - destruct (f p w) as [[e1|v1] w'] eqn:Hp; [discriminate|].
    destruct (callEach f pre w') as [[e2|vs2] w''] eqn:Hrest; [discriminate|].
    inversion Hpre; subst. now rewrite (IH vs2 w' Hrest Hy).
Qed.

Lemma callEach_results (f : PyCallable) (ys vs : list PyValue) (w w' : World) :
  callEach f ys w = (inr vs, w') ->
  Forall2 (fun y v => exists w1 w2, f y w1 = (inr v, w2)) ys vs.
Proof.
  revert vs w. induction ys as [|y ys IH]; intros vs w Hrun; simpl in Hrun.
  - inversion Hrun; subst. constructor.
  - destruct (f y w) as [[e1|v1] w1] eqn:Hy; [discriminate|].
    destruct (callEach f ys w1) as [[e2|vs2] w2] eqn:Hrest; [discriminate|].
    inversion Hrun; subst. constructor; [now exists w, w1|]. now apply (IH vs2 w1).
Qed.

(** X8. [from_list] rejects what is not a list without calling [f].  On a
    list it calls [f] on the elements in order: the first call that raises
    ends it with that exception, in the state that call left, and the
    elements after it are not converted; when no call raises the result is
    the list of the results, element by element. *)
Theorem from_list_behaviour (f : PyCallable) :
  (forall x w, (forall ys, x <> PyList Float ys) ->
               from_list f x w = (inl AssertionError, w))
  /\ (forall pre post y vs e w w1 w2,
        callEach f pre w = (inr vs, w1) ->
        f y w1 = (inl e, w2) ->
        from_list f (PyList Float (pre ++ y :: post)) w = (inl e, w2))
  /\ (forall ys w v w',
        from_list f (PyList Float ys) w = (inr v, w') ->
        exists vs, v = PyList Float vs
                   /\ Forall2 (fun y r => exists w1 w2, f y w1 = (inr r, w2)) ys vs).
Proof.
  split; [|split].
  - intros x w Hx. destruct x; try reflexivity. now destruct (Hx items).
  - intros pre post y vs e w w1 w2 Hpre Hy. simpl.
    now rewrite (callEach_app_raise f pre post y vs e w w1 w2 Hpre Hy).
  - intros ys w v w' Hrun. simpl in Hrun.
    destruct (callEach f ys w) as [[e|vs] w1] eqn:Hall; [discriminate|].
    inversion Hrun; subst. exists vs. split; [reflexivity|].
    exact (callEach_results f ys vs w w' Hall).
Qed.

Lemma callEach_checks (f : PyCallable) (ys : list PyValue) (w : World) :
  Checks f ->
  callEach f ys w = (inr ys, w) \/ exists e, callEach f ys w = (inl e, w).
Proof.
  intros Hf. induction ys as [|y ys IH]; simpl; [now left|].
  destruct (Hf y w) as [Hy|[e Hy]]; rewrite Hy.
  - destruct IH as [IH|[e IH]]; rewrite IH; [now left|right; now exists e].
  - right. now exists e.
Qed.

Lemma callEachValue_checks (f : PyCallable) (items : list (PyValue * PyValue))
    (w : World) :
  Checks f ->
  callEachValue f items w = (inr items, w)
  \/ exists e, callEachValue f items w = (inl e, w).
Proof.
  intros Hf. induction items as [|[k v] items IH]; simpl; [now left|].
  destruct (Hf v w) as [Hv|[e Hv]]; rewrite Hv.
  - destruct IH as [IH|[e IH]]; rewrite IH; [now left|right; now exists e].
  - right. now exists e.
Qed.

Lemma from_union_checks (fs : list PyCallable) :
  Forall Checks fs -> Checks (from_union fs).
Proof.
  intros Hfs x w. induction Hfs as [|f fs Hf _ IH]; simpl.
  - right. now eexists.
  - destruct (Hf x w) as [Hx|[e Hx]]; rewrite Hx; [now left|exact IH].
Qed.

(** X9. Checking is kept by the converters that take converters: over a
    checking element converter [from_list] and [from_dict] check, and
    [from_union] over checking branches checks.  So a converter put
    together from these and the primitive ones returns its argument
    unchanged whenever it returns, and accepts its own result again. *)
Theorem checking_converters_compose :
  (forall f, Checks f -> Checks (from_list f))
  /\ (forall f, Checks f -> Checks (from_dict f))
  /\ (forall fs, Forall Checks fs -> Checks (from_union fs))
  /\ (forall f x w v w',
        Checks f -> f x w = (inr v, w') ->
        v = x /\ w' = w /\ f v w' = (inr v, w')).
Proof.
  split; [|split; [|split]].
  - intros f Hf x w. destruct x; try (right; now eexists). simpl.
    destruct (callEach_checks f items w Hf) as [Hall|[e Hall]]; rewrite Hall;
      [now left|right; now exists e].
  - intros f Hf x w. destruct x; try (right; now eexists). simpl.
    destruct (callEachValue_checks f items w Hf) as [Hall|[e Hall]]; rewrite Hall;
      [now left|right; now exists e].
  - exact from_union_checks.
  - intros f x w v w' Hf Hrun. destruct (Hf x w) as [Hx|[e Hx]]; rewrite Hx in Hrun.
    + inversion Hrun; subst. now repeat split.
    + discriminate.
Qed.

(** X10. The float serializer accepts whatever the float deserializer
    returns, and returns it unchanged; the deserializer turns an integer
    into a float, and the serializer does not accept an integer. *)
Theorem from_float_to_float :
  (forall x w v w', from_float x w = (inr v, w') ->
                    w' = w /\ to_float v w' = (inr v, w'))
  /\ (forall n w x, floatOfInt n = inr x ->
                    from_float (PyInt Float n) w = (inr (PyFloat Float x), w))
  /\ (forall n w, to_float (PyInt Float n) w = (inl AssertionError, w)).
Proof.
  split; [|split].
  - intros x w v w' Hrun. unfold from_float in Hrun.
    destruct x; simpl in Hrun; try discriminate.
    + destruct (floatOfInt n) as [e|f]; [discriminate|].
      inversion Hrun; subst. now split.
    + inversion Hrun; subst. now split.
  - intros n w x Hx. unfold from_float. simpl. now rewrite Hx.
  - reflexivity.
Qed.

End PythonConverterFacts.

(** ** Imports *)

Lemma setUnionInto_one_In (names : list string) (n x : string) :
  In x (setUnionInto names [n]) <-> In x names \/ x = n.
Proof.
  unfold setUnionInto. simpl.
  destruct (existsb (String.eqb n) names) eqn:Hex.
  - split; [now left|]. intros [Hin| ->]; [exact Hin|].
    apply existsb_exists in Hex as [y [Hy Heq]]. apply String.eqb_eq in Heq. now subst.
  - rewrite in_app_iff. simpl. split.
    + intros [Hin|[<-|[]]]; auto.
    + intros [Hin| ->]; auto.
Qed.

Lemma setUnionInto_one_NoDup (names : list string) (n : string) :
  NoDup names -> NoDup (setUnionInto names [n]).
Proof.
  intros Hn. unfold setUnionInto. simpl.
  destruct (existsb (String.eqb n) names) eqn:Hex; [exact Hn|].
  apply NoDup_app; [exact Hn|repeat constructor; intros []|].
  intros x Hx [<-|[]].
  assert (existsb (String.eqb n) names = true); [|congruence].
  apply existsb_exists. exists n. split; [exact Hx|apply String.eqb_refl].
Qed.

Lemma setUnionInto_one_present (names : list string) (n : string) :
  In n names -> setUnionInto names [n] = names.
Proof.
  intros Hin. unfold setUnionInto. simpl.
  assert (Hex : existsb (String.eqb n) names = true).
  { apply existsb_exists. exists n. split; [exact Hin|apply String.eqb_refl]. }
  now rewrite Hex.
Qed.

Lemma importedFrom_addImport (module name other : string)
    (m : list (string * list string)) :
  importedFrom other (addImport module name m)
  = if String.eqb module other
    then Some (match importedFrom module m with
               | Some names => setUnionInto names [name]
               | None => [name]
               end)
    else importedFrom other m.
Proof.
  unfold addImport. induction m as [|[k names] rest IH]; cbn [mapUpdateInto importedFrom].
  - destruct (String.eqb module other) eqn:Hmo; [reflexivity|reflexivity].
  - destruct (String.eqb k module) eqn:Hk; cbn [importedFrom].
    + apply String.eqb_eq in Hk. subst k.
      destruct (String.eqb module other); reflexivity.
    + destruct (String.eqb k other) eqn:Hko.
      * apply String.eqb_eq in Hko. subst k.
        rewrite String.eqb_sym in Hk. now rewrite Hk.
      * exact IH.
Qed.

Lemma addImport_present (module name : string) (m : list (string * list string)) :
  imported module name m -> addImport module name m = m.
Proof.
  intros [names [Hfrom Hin]]. unfold addImport.
  induction m as [|[k ns] rest IH]; cbn [mapUpdateInto importedFrom] in *; [discriminate|].
  destruct (String.eqb k module) eqn:Hk.
  - inversion Hfrom; subst. now rewrite setUnionInto_one_present.
  - now rewrite (IH Hfrom).
Qed.

Lemma addImport_keys (module name : string) (m : list (string * list string)) :
  map fst (addImport module name m)
  = if existsb (String.eqb module) (map fst m) then map fst m
    else map fst m ++ [module].
Proof.
  unfold addImport. induction m as [|[k ns] rest IH]; cbn [mapUpdateInto map fst existsb].
  - reflexivity.
  - rewrite (String.eqb_sym module k).
    destruct (String.eqb k module) eqn:Hk; cbn [map fst orb].
    + reflexivity.
    + rewrite IH. now destruct (existsb (String.eqb module) (map fst rest)).
Qed.

Lemma addImport_wellFormed (module name : string) (m : list (string * list string)) :
  wellFormedImports m -> wellFormedImports (addImport module name m).
Proof.
  intros [Hkeys Hnames]. split.
  - rewrite addImport_keys.
    destruct (existsb (String.eqb module) (map fst m)) eqn:Hex; [exact Hkeys|].
    apply NoDup_app; [exact Hkeys|repeat constructor; intros []|].
    intros x Hx [<-|[]].
    assert (existsb (String.eqb module) (map fst m) = true); [|congruence].
    apply existsb_exists. exists module. split; [exact Hx|apply String.eqb_refl].
  - clear Hkeys. unfold addImport.
    induction Hnames as [|[k ns] rest Hns Hrest IH]; cbn [mapUpdateInto].
    + repeat constructor. intros [].
    + destruct (String.eqb k module).
      * constructor; [|exact Hrest]. cbn [snd]. now apply setUnionInto_one_NoDup.
      * constructor; [exact Hns|exact IH].
Qed.

Lemma addImport_grows (module name : string) (i : list (string * list string))
    (m n : string) :
  imported m n i -> imported m n (addImport module name i).
Proof.
  intros [names [Hfrom Hin]]. unfold imported.
  rewrite importedFrom_addImport. destruct (String.eqb module m) eqn:Hm.
  - apply String.eqb_eq in Hm. subst m. rewrite Hfrom.
    eexists. split; [reflexivity|]. apply setUnionInto_one_In. now left.
  - now exists names.
Qed.

Lemma addImport_imported (module name : string) (i : list (string * list string)) :
  imported module name (addImport module name i).
Proof.
  unfold imported. rewrite importedFrom_addImport, String.eqb_refl.
  eexists. split; [reflexivity|].
  destruct (importedFrom module i); [|now left].
  apply setUnionInto_one_In. now right.
Qed.

Lemma withImport_run (o : PythonOptions) (module name : string) (s : RenderState) :
  withImport o module name s
  = Done (Str name,
          if typeHints (features o) || negb (String.eqb module "typing")
          then {| imports := addImport module name (imports s);
                  deserializerFunctions := deserializerFunctions s |}
          else s).
Proof.
  unfold withImport, bind, modify, ret.
  destruct (typeHints (features o) || negb (String.eqb module "typing")); reflexivity.
Qed.

(** X11. [withImport] always returns the name.  It records the name under
    the module, keeping what was recorded before, other modules as they were
    and the map a map of sets; an import of [typing] without type hints is
    not recorded at all, and recording the same import a second time
    changes nothing. *)
Theorem withImport_records (o : PythonOptions) (module name : string) (s : RenderState) :
  exists s', withImport o module name s = Done (Str name, s')
  /\ deserializerFunctions s' = deserializerFunctions s
  /\ (typeHints (features o) = false -> module = "typing" -> s' = s)
  /\ (typeHints (features o) = true \/ module <> "typing" ->
      imported module name (imports s')
      /\ (forall m n, imported m n (imports s) -> imported m n (imports s'))
      /\ (forall m, m <> module ->
                    importedFrom m (imports s') = importedFrom m (imports s))
      /\ (wellFormedImports (imports s) -> wellFormedImports (imports s'))
      /\ withImport o module name s' = Done (Str name, s')).
Proof.
  eexists. split; [apply withImport_run|].
  destruct (typeHints (features o) || negb (String.eqb module "typing")) eqn:Hon.
  - split; [reflexivity|]. split.
    { intros Hth ->. rewrite Hth in Hon. discriminate Hon. }
    intros _. cbn [imports]. split; [|split; [|split; [|split]]].
    + apply addImport_imported.
    + intros m n. apply addImport_grows.
    + intros m Hm. rewrite importedFrom_addImport.
      destruct (String.eqb module m) eqn:Heq; [|reflexivity].
      apply String.eqb_eq in Heq. now subst.
    + apply addImport_wellFormed.
    + rewrite withImport_run, Hon. cbn [imports deserializerFunctions].
      now rewrite addImport_idem.
  - split; [reflexivity|]. split; [reflexivity|].
    intros Hor. apply Bool.orb_false_iff in Hon as [Hth Hty].
    apply Bool.negb_false_iff, String.eqb_eq in Hty.
    destruct Hor as [Hor|Hor]; [congruence|contradiction].
Qed.

(** ** The emitters *)

Lemma importsGrow_refl (s : RenderState) : importsGrow s s.
Proof. intros m n Hin. exact Hin. Qed.

Lemma importsGrow_trans (s1 s2 s3 : RenderState) :
  importsGrow s1 s2 -> importsGrow s2 s3 -> importsGrow s1 s3.
Proof. intros H12 H23 m n Hin. auto. Qed.

Lemma GenOk_ret {A : Type} (R : A -> Prop) (a : A) : R a -> GenOk R (ret a).
Proof.
  intros Ha rs. exists a, rs. repeat split; try assumption. apply importsGrow_refl.
Qed.

Lemma GenOk_bind {A B : Type} (R1 : A -> Prop) (R2 : B -> Prop) (m : Gen A)
    (k : A -> Gen B) :
  GenOk R1 m -> (forall a, R1 a -> GenOk R2 (k a)) -> GenOk R2 (bind m k).
Proof.
  intros Hm Hk rs. destruct (Hm rs) as [a [rs1 [Hrun [Ha [Hd Hi]]]]].
  destruct (Hk a Ha rs1) as [b [rs2 [Hrun2 [Hb [Hd2 Hi2]]]]].
  exists b, rs2. unfold bind. rewrite Hrun. repeat split; try assumption.
  - congruence.
  - eapply importsGrow_trans; eassumption.
Qed.

Lemma GenOk_withImport (o : PythonOptions) (module name : string) :
  GenOk (fun r => r = Str name) (withImport o module name).
Proof.
  intros rs. rewrite withImport_run. do 2 eexists. split; [reflexivity|].
  split; [reflexivity|].
  destruct (typeHints (features o) || negb (String.eqb module "typing")).
  - split; [reflexivity|]. intros m n. apply addImport_grows.
  - split; [reflexivity|apply importsGrow_refl].
Qed.

Lemma GenOk_any {A : Type} (R : A -> Prop) (g : Gen A) :
  GenOk R g -> GenOk (fun _ => True) g.
Proof.
  intros Hg rs. destruct (Hg rs) as [a [rs' [Hrun [_ Hrest]]]].
  exists a, rs'. now repeat split.
Qed.

Section EmitSteps.
Variable Inv : EmitState -> Prop.
Hypothesis Inv_stable : Stable Inv.

Lemma Runs_of_quiet {A : Type} (R : A -> Prop) (m : Emit A) :
  RunsQuietly Inv R m -> Runs Inv R m.
Proof.
  intros Hm s Hs. destruct (Hm s Hs) as [a [s' [Hrun [Ha [Hc Hrest]]]]].
  exists a, s', []. rewrite app_nil_r. now repeat split.
Qed.

Lemma RunsQuietly_ret {A : Type} (R : A -> Prop) (a : A) :
  R a -> RunsQuietly Inv R (emitRet a).
Proof.
  intros Ha s Hs. exists a, s. repeat split; try assumption. apply importsGrow_refl.
Qed.

Lemma RunsQuietly_bind {A B : Type} (R1 : A -> Prop) (R2 : B -> Prop) (m : Emit A)
    (k : A -> Emit B) :
  RunsQuietly Inv R1 m -> (forall a, R1 a -> RunsQuietly Inv R2 (k a)) ->
  RunsQuietly Inv R2 (emitBind m k).
Proof.
  intros Hm Hk s Hs.
  destruct (Hm s Hs) as [a [s1 [Hrun [Ha [Hc [Hd [Hf [Hi HI]]]]]]]].
  destruct (Hk a Ha s1 HI) as [b [s2 [Hrun2 [Hb [Hc2 [Hd2 [Hf2 [Hi2 HI2]]]]]]]].
  exists b, s2. unfold emitBind. rewrite Hrun. repeat split; try assumption;
    try congruence.
  eapply importsGrow_trans; eassumption.
Qed.

Lemma Runs_bind {A B : Type} (R1 : A -> Prop) (R2 : B -> Prop) (m : Emit A)
    (k : A -> Emit B) :
  Runs Inv R1 m -> (forall a, R1 a -> Runs Inv R2 (k a)) -> Runs Inv R2 (emitBind m k).
Proof.
  intros Hm Hk s Hs.
  destruct (Hm s Hs) as [a [s1 [m1 [Hrun [Ha [Hc [Hd [Hf [Hi HI]]]]]]]]].
  destruct (Hk a Ha s1 HI) as [b [s2 [m2 [Hrun2 [Hb [Hc2 [Hd2 [Hf2 [Hi2 HI2]]]]]]]]].
  exists b, s2, (m1 ++ m2). unfold emitBind. rewrite Hrun.
  repeat split; try assumption; try congruence.
  - now rewrite Hc2, Hc, app_assoc.
  - eapply importsGrow_trans; eassumption.
Qed.

Lemma RunsQuietly_liftGen {A : Type} (R : A -> Prop) (g : Gen A) :
  GenOk R g -> RunsQuietly Inv R (liftGen g).
Proof.
  intros Hg s Hs. destruct (Hg (renderState s)) as [a [rs' [Hrun [Ha [Hd Hi]]]]].
  unfold liftGen. rewrite Hrun. do 2 eexists. split; [reflexivity|].
  repeat split; try assumption.
  eapply Inv_stable; [exact Hs|reflexivity|reflexivity|exact Hi].
Qed.

Lemma Runs_record (c : nat -> SurfaceCall) :
  Runs Inv (fun _ => True) (record c).
Proof.
  intros s Hs. unfold record. do 3 eexists. split; [reflexivity|].
  repeat split.
  - apply importsGrow_refl.
  - eapply Inv_stable; [exact Hs|reflexivity|reflexivity|apply importsGrow_refl].
Qed.

Lemma RunsQuietly_dateutil :
  RunsQuietly Inv (fun _ => True) (setFlags keep keep setTrue).
Proof.
  intros s Hs. unfold setFlags. do 2 eexists. split; [reflexivity|].
  repeat split.
  - apply importsGrow_refl.
  - eapply Inv_stable; [exact Hs|reflexivity|reflexivity|apply importsGrow_refl].
Qed.

Lemma Runs_indent (f : Emit unit) :
  Runs Inv (fun _ => True) f -> Runs Inv (fun _ => True) (indent f).
Proof.
  intros Hf s Hs. unfold indent, emitBind, setDepth.
  set (s0 := {| renderState := renderState s; haveTypeVar := haveTypeVar s;
                haveEnumTypeVar := haveEnumTypeVar s; haveDateutil := haveDateutil s;
                depth := S (depth s); calls := calls s |}).
  assert (Hs0 : Inv s0).
  { eapply Inv_stable; [exact Hs|reflexivity|reflexivity|apply importsGrow_refl]. }
  destruct (Hf s0 Hs0) as [[] [s1 [more [Hrun [_ [Hc [Hd [Hf1 [Hi HI]]]]]]]]].
  rewrite Hrun. exists tt. eexists. exists more. split; [reflexivity|].
  cbn [calls depth renderState]. split; [exact I|]. split; [exact Hc|].
  split; [reflexivity|]. split; [exact Hf1|]. split; [exact Hi|].
  eapply Inv_stable; [exact HI|reflexivity|reflexivity|apply importsGrow_refl].
Qed.


Lemma append_empty_r (s : string) : (s ++ "")%string = s.
Proof. induction s as [|c s IH]; simpl; [reflexivity|now rewrite IH]. Qed.

Lemma prefix_append (p x : string) : String.prefix p (p ++ x) = true.
Proof.
  induction p as [|c p IH]; simpl; [now destruct x|].
  destruct (ascii_dec c c) as [_|Hne]; [exact IH|now destruct Hne].
Qed.

Lemma prefix_append_l (q p x : string) :
  String.prefix q p = true -> String.prefix q (p ++ x) = true.
Proof.
  revert p. induction q as [|c q IH]; intros p Hq.
  - now destruct (p ++ x)%string.
  - destruct p as [|b p]; [discriminate|]. simpl in *.
    destruct (ascii_dec c b); [now apply IH|discriminate].
Qed.

Lemma head_prefix (p q : string) (rest : list Sourcelike) :
  String.prefix q p = true ->
  startsWith (render (Arr (Str p :: rest))) q = true.
Proof. intros Hq. unfold startsWith. cbn [render]. now apply prefix_append_l. Qed.

Section WithOptions.
Context `{SourceSupport}.
Variable o : PythonOptions.
Hypothesis Inv_typeVar : RunsQuietly Inv (fun t => t = "T") (typeVar o).
Hypothesis Inv_enumTypeVar : RunsQuietly Inv (fun t => t = "EnumT") (enumTypeVar o).

Lemma GenOk_withTyping (name : string) :
  GenOk (fun _ => True) (withTyping o name).
Proof. apply (GenOk_any (fun r => r = Str name)). apply GenOk_withImport. Qed.

Lemma GenOk_typingDecl (name : Sourcelike) (type : string) :
  GenOk (fun _ => True) (typingDecl o name type).
Proof.
  unfold typingDecl. eapply GenOk_bind; [apply GenOk_withTyping|].
  intros t _. now apply GenOk_ret.
Qed.

Lemma GenOk_cast (type v : Sourcelike) : GenOk (fun _ => True) (cast o type v).
Proof.
  unfold cast. destruct (negb (typeHints (features o))); [now apply GenOk_ret|].
  eapply GenOk_bind; [apply GenOk_withTyping|]. intros c _. now apply GenOk_ret.
Qed.

Lemma Defines_block (p : string) (g : Gen Sourcelike) (body : Emit unit) :
  GenOk (fun hd => startsWith (render hd) p = true) g ->
  Runs Inv (fun _ => True) body ->
  Defines Inv p (head <~ liftGen g ;; emitBlock head body).
Proof.
  intros Hg Hbody s Hs.
  destruct (RunsQuietly_liftGen _ g Hg s Hs)
    as [hd [s1 [Hrun1 [Hhd [Hc1 [Hd1 [Hf1 [Hi1 HI1]]]]]]]].
  assert (Hblock : Runs Inv (fun _ => True) (emitBlock hd body)).
  { unfold emitBlock. eapply Runs_bind; [apply Runs_record|].
    intros _ _. now apply Runs_indent. }
  unfold emitBind. rewrite Hrun1. unfold emitBlock, emitBind, emitLine, record.
  set (s2 := {| renderState := renderState s1; haveTypeVar := haveTypeVar s1;
                haveEnumTypeVar := haveEnumTypeVar s1; haveDateutil := haveDateutil s1;
                depth := depth s1; calls := calls s1 ++ [EmitLine (depth s1) [hd]] |}).
  assert (Hs2 : Inv s2).
  { eapply Inv_stable; [exact HI1|reflexivity|reflexivity|apply importsGrow_refl]. }
  destruct (Runs_indent body Hbody s2 Hs2)
    as [[] [s3 [more [Hrun3 [_ [Hc3 [Hd3 [Hf3 [Hi3 HI3]]]]]]]]].
  rewrite Hrun3. exists s3, (EmitLine (depth s1) [hd]), more.
  split; [reflexivity|]. split.
  { rewrite Hc3. cbn [calls s2]. now rewrite Hc1, <- app_assoc. }
  split.
  { cbn [headText]. unfold startsWith in *. cbn [render] in *.
    now rewrite append_empty_r. }
  split; [now rewrite Hd3|]. split; [now rewrite Hf3|].
  split; [|exact HI3]. eapply importsGrow_trans; [exact Hi1|exact Hi3].
Qed.

Lemma Defines_after {A : Type} (R : A -> Prop) (p : string) (m : Emit A)
    (k : A -> Emit unit) :
  RunsQuietly Inv R m -> (forall a, R a -> Defines Inv p (k a)) ->
  Defines Inv p (emitBind m k).
Proof.
  intros Hm Hk s Hs.
  destruct (Hm s Hs) as [a [s1 [Hrun [Ha [Hc [Hd [Hf [Hi HI]]]]]]]].
  destruct (Hk a Ha s1 HI) as [s2 [first [rest [Hrun2 [Hc2 [Hp [Hd2 [Hf2 [Hi2 HI2]]]]]]]]].
  exists s2, first, rest. unfold emitBind. rewrite Hrun.
  repeat split; try assumption; try congruence.
  eapply importsGrow_trans; eassumption.
Qed.

Lemma Runs_two_lines (a b : list Sourcelike) :
  Runs Inv (fun _ => True) (emitLine a ;;~ emitLine b).
Proof.
  eapply Runs_bind; [apply Runs_record|]. intros _ _. apply Runs_record.
Qed.

Ltac head_ok :=
  repeat (eapply GenOk_bind;
          [first [apply GenOk_withTyping | apply GenOk_typingDecl
                 | apply (GenOk_any _ _ (GenOk_withImport _ _ _))]
          |intros ? _]);
  apply GenOk_ret; apply head_prefix; reflexivity.

Lemma emitConverter_Defines (cf : ConverterFunction) :
  Defines Inv
    (match cf with
     | CfNone => "def from_none("
     | CfBool => "def from_bool("
     | CfInt => "def from_int("
     | CfFromFloat => "def from_float("
     | CfToFloat => "def to_float("
     | CfStr => "def from_str("
     | CfToEnum => "def to_enum("
     | CfList => "def from_list("
     | CfToClass => "def to_class("
     | CfDict => "def from_dict("
     | CfUnion => "def from_union("
     | CfFromDatetime => "def from_datetime("
     | CfIsType => "def is_type("
     end)
    (emitConverter o cf).
Proof.
  destruct cf; cbn [emitConverter].
  - apply Defines_block; [head_ok|apply Runs_two_lines].
  - apply Defines_block; [unfold plainHead; head_ok|apply Runs_two_lines].
  - apply Defines_block; [unfold plainHead; head_ok|apply Runs_two_lines].
  - apply Defines_block; [unfold plainHead; head_ok|apply Runs_two_lines].
  - apply Defines_block; [unfold plainHead; head_ok|apply Runs_two_lines].
  - apply Defines_block; [unfold plainHead; head_ok|apply Runs_two_lines].
  - eapply Defines_after; [apply Inv_enumTypeVar|]. intros tvar _.
    apply Defines_block; [head_ok|apply Runs_two_lines].
  - eapply Defines_after; [apply Inv_typeVar|]. intros tvar _.
    apply Defines_block; [head_ok|apply Runs_two_lines].
  - eapply Defines_after; [apply Inv_typeVar|]. intros tvar _.
    apply Defines_block; [head_ok|].
    eapply Runs_bind; [apply Runs_record|]. intros _ _.
    eapply Runs_bind; [|intros c _; apply Runs_record].
    apply Runs_of_quiet. apply (RunsQuietly_liftGen (fun _ => True)).
    eapply GenOk_bind; [apply GenOk_withTyping|]. intros any _. apply GenOk_cast.
  - eapply Defines_after; [apply Inv_typeVar|]. intros tvar _.
    apply Defines_block; [head_ok|apply Runs_two_lines].
  - intros s Hs. unfold emitUnionConverter, emitMultiline, record.
    do 3 eexists. split; [reflexivity|]. cbn [calls depth renderState].
    split; [reflexivity|]. split; [reflexivity|]. split; [reflexivity|].
    split; [reflexivity|]. split; [apply importsGrow_refl|].
    eapply Inv_stable; [exact Hs|reflexivity|reflexivity|apply importsGrow_refl].
  - apply Defines_block; [head_ok|].
    eapply Runs_bind; [apply Runs_of_quiet, RunsQuietly_dateutil|].
    intros _ _. apply Runs_record.
  - eapply Defines_after; [apply Inv_typeVar|]. intros tvar _.
    apply Defines_block; [head_ok|apply Runs_two_lines].
Qed.

End WithOptions.
End EmitSteps.

(** ** The emitters *)



Section EmitterFacts.
Context `{SourceSupport}.
Variable o : PythonOptions.

Lemma conv_name (cf : ConverterFunction) (st st' : RenderState) (r : Sourcelike) :
  conv cf st = Done (r, st') -> render r = converterName cf.
Proof.
  intros Hconv. destruct cf; unfold conv, bind, modify in Hconv; cbn in Hconv;
    inversion Hconv; subst; reflexivity.
Qed.

Lemma typeVar_run (s : EmitState) :
  exists rs,
    typeVar o s
    = Done ("T", {| renderState := rs; haveTypeVar := true;
                    haveEnumTypeVar := haveEnumTypeVar s;
                    haveDateutil := haveDateutil s;
                    depth := depth s; calls := calls s |})
    /\ deserializerFunctions rs = deserializerFunctions (renderState s)
    /\ importsGrow (renderState s) rs
    /\ (typeHints (features o) = true -> imported "typing" "TypeVar" (imports rs)).
Proof.
  unfold typeVar, emitBind, setFlags, liftGen, withTyping. cbn [renderState].
  rewrite withImport_run, String.eqb_refl. eexists. split; [reflexivity|].
  destruct (typeHints (features o)); cbn [orb negb].
  - split; [reflexivity|]. split; [intros m n; apply addImport_grows|].
    intros _. apply addImport_imported.
  - split; [reflexivity|]. split; [apply importsGrow_refl|discriminate].
Qed.

Lemma enumTypeVar_run (s : EmitState) :
  exists rs,
    enumTypeVar o s
    = Done ("EnumT", {| renderState := rs; haveTypeVar := haveTypeVar s;
                        haveEnumTypeVar := true;
                        haveDateutil := haveDateutil s;
                        depth := depth s; calls := calls s |})
    /\ deserializerFunctions rs = deserializerFunctions (renderState s)
    /\ importsGrow (renderState s) rs
    /\ (typeHints (features o) = true -> imported "typing" "TypeVar" (imports rs))
    /\ imported "enum" "Enum" (imports rs).
Proof.
  unfold enumTypeVar, emitBind, setFlags, liftGen, withTyping. cbn [renderState].
  rewrite withImport_run, String.eqb_refl. cbn [renderState]. rewrite withImport_run.
  eexists. split; [reflexivity|].
  replace (negb (String.eqb "enum" "typing")) with true by reflexivity.
  rewrite Bool.orb_true_r.
  destruct (typeHints (features o)); cbn [orb negb imports deserializerFunctions].
  - split; [reflexivity|]. split; [|split].
    + intros m n Hin. now apply addImport_grows, addImport_grows.
    + intros _. apply addImport_grows, addImport_imported.
    + apply addImport_imported.
  - split; [reflexivity|]. split; [|split].
    + intros m n Hin. now apply addImport_grows.
    + discriminate.
    + apply addImport_imported.
Qed.

Lemma Stable_True : Stable (fun _ => True).
Proof. intros s s' _ _ _ _. exact I. Qed.

Lemma Stable_TypeVarsRecorded : Stable (TypeVarsRecorded o).
Proof.
  intros s s' [Htv Hetv] Hf1 Hf2 Hgrow. split.
  - rewrite Hf1, Hf2. intros Hflag Hth. apply Hgrow. now apply Htv.
  - rewrite Hf2. intros Hflag. apply Hgrow. now apply Hetv.
Qed.

Lemma typeVar_quiet_True : RunsQuietly (fun _ => True) (fun t => t = "T") (typeVar o).
Proof.
  intros s _. destruct (typeVar_run s) as [rs [Hrun [Hd [Hg _]]]].
  do 2 eexists. split; [exact Hrun|]. now repeat split.
Qed.

Lemma enumTypeVar_quiet_True :
  RunsQuietly (fun _ => True) (fun t => t = "EnumT") (enumTypeVar o).
Proof.
  intros s _. destruct (enumTypeVar_run s) as [rs [Hrun [Hd [Hg _]]]].
  do 2 eexists. split; [exact Hrun|]. now repeat split.
Qed.

Lemma typeVar_quiet_recorded :
  RunsQuietly (TypeVarsRecorded o) (fun t => t = "T") (typeVar o).
Proof.
  intros s [Htv Hetv]. destruct (typeVar_run s) as [rs [Hrun [Hd [Hg Himp]]]].
  do 2 eexists. split; [exact Hrun|]. repeat split; try assumption.
  - intros _ Hth. now apply Himp.
  - cbn [haveEnumTypeVar renderState]. intros Hflag. apply Hg. now apply Hetv.
Qed.

Lemma enumTypeVar_quiet_recorded :
  RunsQuietly (TypeVarsRecorded o) (fun t => t = "EnumT") (enumTypeVar o).
Proof.
  intros s _. destruct (enumTypeVar_run s) as [rs [Hrun [Hd [Hg [Himp Henum]]]]].
  do 2 eexists. split; [exact Hrun|]. repeat split; try assumption.
  - intros _ Hth. now apply Himp.
  - intros _. exact Henum.
Qed.

Lemma converter_def_text (cf : ConverterFunction) :
  ("def " ++ converterName cf ++ "(")%string
  = match cf with
    | CfNone => "def from_none("
    | CfBool => "def from_bool("
    | CfInt => "def from_int("
    | CfFromFloat => "def from_float("
    | CfToFloat => "def to_float("
    | CfStr => "def from_str("
    | CfToEnum => "def to_enum("
    | CfList => "def from_list("
    | CfToClass => "def to_class("
    | CfDict => "def from_dict("
    | CfUnion => "def from_union("
    | CfFromDatetime => "def from_datetime("
    | CfIsType => "def is_type("
    end.
Proof. destruct cf; reflexivity. Qed.

(** X12. Every converter function that the compiler can refer to is
    defined by its emitter under the name [conv] returns for it: the first
    thing [emitConverter] hands to the rendering layer starts with [def],
    that name and an opening parenthesis.  The emitter returns, registers no
    converter and ends at the depth at which it started. *)
Theorem emitConverter_defines (cf : ConverterFunction) (s : EmitState) :
  exists s' first rest,
    emitConverter o cf s = Done (tt, s')
    /\ calls s' = calls s ++ first :: rest
    /\ (forall st r st', conv cf st = Done (r, st') ->
          startsWith (headText first) ("def " ++ render r ++ "(") = true)
    /\ deserializerFunctions (renderState s') = deserializerFunctions (renderState s)
    /\ depth s' = depth s.
Proof.
  destruct (emitConverter_Defines (fun _ => True) Stable_True o
              typeVar_quiet_True enumTypeVar_quiet_True cf s I)
    as [s' [first [rest [Hrun [Hc [Hp [Hd [Hf _]]]]]]]].
  exists s', first, rest. repeat split; try assumption.
  intros st r st' Hconv. rewrite (conv_name cf st st' r Hconv).
  now rewrite converter_def_text.
Qed.

(** X13. The type variable flags never run ahead of the imports: if, with
    type hints on, [TypeVar] is imported whenever a flag is set, and [Enum]
    whenever the flag of the enum type variable is set, then this is still
    so after [emitConverter], for every converter function. *)
Theorem emitConverter_keeps_TypeVarsRecorded (cf : ConverterFunction) (s : EmitState) :
  TypeVarsRecorded o s ->
  exists s', emitConverter o cf s = Done (tt, s') /\ TypeVarsRecorded o s'.
Proof.
  intros Hs.
  destruct (emitConverter_Defines (TypeVarsRecorded o) Stable_TypeVarsRecorded o
              typeVar_quiet_recorded enumTypeVar_quiet_recorded cf s Hs)
    as [s' [first [rest [Hrun [_ [_ [_ [_ [_ HI]]]]]]]]].
  now exists s'.
Qed.


Lemma afterCalls_nil (s : EmitState) : afterCalls s [] = s.
Proof. destruct s. unfold afterCalls. cbn. now rewrite app_nil_r. Qed.

Lemma afterCalls_app (s : EmitState) (a b : list SurfaceCall) :
  afterCalls (afterCalls s a) b = afterCalls s (a ++ b).
Proof. unfold afterCalls. cbn. now rewrite app_assoc. Qed.

Lemma record_run (c : nat -> SurfaceCall) (s : EmitState) :
  record c s = Done (tt, afterCalls s [c (depth s)]).
Proof. reflexivity. Qed.

Lemma emitConverter_returns (cf : ConverterFunction) (s : EmitState) :
  exists s', emitConverter o cf s = Done (tt, s').
Proof.
  destruct (emitConverter_Defines (fun _ => True) Stable_True o
              typeVar_quiet_True enumTypeVar_quiet_True cf s I)
    as [s' [first [rest [Hrun _]]]].
  now exists s'.
Qed.

Lemma Iterates_defines (Inv : EmitState -> Prop)
    (entries : list (ConverterFunction * ConverterFunction)) (s s' : EmitState) :
  Stable Inv ->
  RunsQuietly Inv (fun t => t = "T") (typeVar o) ->
  RunsQuietly Inv (fun t => t = "EnumT") (enumTypeVar o) ->
  Iterates (fun cf _ => emitConverter o cf) entries s s' ->
  Inv s ->
  exists more,
    calls s' = calls s ++ more
    /\ DefinesInOrder o (map snd entries) more
    /\ deserializerFunctions (renderState s') = deserializerFunctions (renderState s)
    /\ Inv s'.
Proof.
  intros Hstable Htv Hetv Hruns.
  induction Hruns as [s|n entries s s' _ IH|k cf rest s s1 s' Hrun _ IH]; intros Hs.
  - exists []. rewrite app_nil_r. repeat split; [constructor|exact Hs].
  - assert (Hs1 : Inv (afterCalls s [EnsureBlankLine (depth s) n])).
    { eapply Hstable; [exact Hs|reflexivity|reflexivity|apply importsGrow_refl]. }
    destruct (IH Hs1) as [more [Hcalls [Hdefs [Hfuns HI]]]].
    exists (EnsureBlankLine (depth s) n :: more).
    split; [|split; [now constructor|split; [exact Hfuns|exact HI]]].
    rewrite Hcalls. cbn [calls afterCalls]. now rewrite <- app_assoc.
  - destruct (emitConverter_Defines Inv Hstable o Htv Hetv cf s Hs)
      as [s1' [first [block [Hrun' [Hc [Hp [_ [Hf [_ HI]]]]]]]]].
    rewrite Hrun in Hrun'. inversion Hrun'; subst s1'.
    destruct (IH HI) as [more [Hcalls [Hdefs [Hfuns HI']]]].
    exists ((first :: block) ++ more).
    split; [|split; [|split; [now rewrite Hfuns|exact HI']]].
    + rewrite Hcalls, Hc. now rewrite <- app_assoc.
    + cbn [map snd]. constructor; [|exact Hdefs].
      split.
      * exists first, block. split; [reflexivity|]. now rewrite converter_def_text.
      * now exists s, s1.
Qed.

Lemma map_snd_twice {A : Type} (l : list A) : map snd (map (fun f => (f, f)) l) = l.
Proof. induction l as [|x rest IH]; [reflexivity|]. cbn [map snd]. now rewrite IH. Qed.

(** X14. Whatever [forEachWithBlankLines] does about blank lines, as long
    as it calls the emitter on the entries in order and otherwise only asks
    for blank lines: [emitSupportCode] defines the converter functions in
    use, one definition each and in the order in which the compiler
    registered them, each as [emitConverter] writes it, with nothing but
    requests for blank lines around them; the set of converters in use is
    the same afterwards, and the type variable flags still have their
    imports. *)
Theorem emitSupportCode_defines_all
    (forEachWithBlankLines :
       forall K V : Type,
         list (K * V) -> string * nat -> (V -> K -> Emit unit) -> Emit unit)
    (s : EmitState) :
  IteratesWithBlankLines forEachWithBlankLines ->
  exists s' more,
    emitSupportCode o forEachWithBlankLines s = Done (tt, s')
    /\ calls s' = calls s ++ more
    /\ DefinesInOrder o (deserializerFunctions (renderState s)) more
    /\ deserializerFunctions (renderState s') = deserializerFunctions (renderState s)
    /\ (TypeVarsRecorded o s -> TypeVarsRecorded o s').
Proof.
  intros Hhelper. unfold emitSupportCode.
  destruct (Hhelper _ _ (map (fun f => (f, f)) (deserializerFunctions (renderState s)))
              ("interposing", 2) (fun cf _ => emitConverter o cf) s
              (fun _ cf s0 => emitConverter_returns cf s0))
    as [s' [Hrun Hruns]].
  destruct (Iterates_defines (fun _ => True) _ s s' Stable_True typeVar_quiet_True
              enumTypeVar_quiet_True Hruns I)
    as [more [Hcalls [Hdefs [Hfuns _]]]].
  rewrite map_snd_twice in Hdefs.
  exists s', more.
  split; [exact Hrun|]. split; [exact Hcalls|]. split; [exact Hdefs|].
  split; [exact Hfuns|].
  intros Hs.
  destruct (Iterates_defines (TypeVarsRecorded o) _ s s' Stable_TypeVarsRecorded
              typeVar_quiet_recorded enumTypeVar_quiet_recorded Hruns Hs)
    as [_ [_ [_ [_ HI]]]].
  exact HI.
Qed.

Lemma emitImportsBase_run (s : EmitState) :
  emitImportsBase s
  = Done (tt, afterCalls s (map (importLine (depth s)) (imports (renderState s)))).
Proof.
  unfold emitImportsBase. generalize (imports (renderState s)) as entries.
  intros entries. revert s.
  induction entries as [|entry rest IH]; intros s.
  - cbn. now rewrite afterCalls_nil.
  - cbn [emitEach map]. unfold emitBind, emitLine. rewrite record_run, IH.
    rewrite afterCalls_app. reflexivity.
Qed.

Lemma withImport_present (module name : string) (rs : RenderState) :
  (typeHints (features o) || negb (String.eqb module "typing") = true ->
   imported module name (imports rs)) ->
  withImport o module name rs = Done (Str name, rs).
Proof.
  intros Hin. rewrite withImport_run.
  destruct (typeHints (features o) || negb (String.eqb module "typing")); [|reflexivity].
  rewrite (addImport_present _ _ _ (Hin eq_refl)). now destruct rs.
Qed.

Lemma withTyping_present (name : string) (rs : RenderState) :
  (typeHints (features o) = true -> imported "typing" name (imports rs)) ->
  withTyping o name rs = Done (Str name, rs).
Proof.
  intros Hin. unfold withTyping. apply withImport_present.
  rewrite String.eqb_refl, Bool.orb_false_r. exact Hin.
Qed.

Lemma typeVar_present (s : EmitState) :
  haveTypeVar s = true ->
  (typeHints (features o) = true ->
   imported "typing" "TypeVar" (imports (renderState s))) ->
  typeVar o s = Done ("T", s).
Proof.
  intros Hflag Hin. unfold typeVar, emitBind, setFlags, liftGen. cbn [renderState].
  rewrite (withTyping_present _ _ Hin). unfold emitRet, setTrue, keep.
  destruct s. cbn in *. now subst.
Qed.

Lemma enumTypeVar_present (s : EmitState) :
  haveEnumTypeVar s = true ->
  (typeHints (features o) = true ->
   imported "typing" "TypeVar" (imports (renderState s))) ->
  imported "enum" "Enum" (imports (renderState s)) ->
  enumTypeVar o s = Done ("EnumT", s).
Proof.
  intros Hflag Hin Henum. unfold enumTypeVar, emitBind, setFlags, liftGen.
  cbn [renderState]. rewrite (withTyping_present _ _ Hin). cbn [renderState].
  rewrite withImport_present by (intros _; exact Henum).
  unfold emitRet, setTrue, keep. destruct s. cbn in *. now subst.
Qed.

Lemma emitTypeVar_present (stringEscape : string -> string) (tvar : string)
    (constraints : Sourcelike) (s : EmitState) :
  (typeHints (features o) = true ->
   imported "typing" "TypeVar" (imports (renderState s))) ->
  emitTypeVar o stringEscape tvar constraints s
  = Done (tt, afterCalls s
                (if typeHints (features o)
                 then [typeVarLine o stringEscape (depth s) tvar constraints]
                 else [])).
Proof.
  intros Hin. unfold emitTypeVar.
  destruct (typeHints (features o)) eqn:Hth; cbn [negb].
  - unfold emitBind, liftGen. rewrite withTyping_present by (now rewrite Hth).
    destruct s; reflexivity.
  - unfold emitRet. now rewrite afterCalls_nil.
Qed.

Lemma dateutil_step (s0 s : EmitState) :
  (if haveDateutil s0 then emitLine [Str "import dateutil.parser"] else emitRet tt) s
  = Done (tt, afterCalls s
                (if haveDateutil s0
                 then [EmitLine (depth s) [Str "import dateutil.parser"]] else [])).
Proof.
  destruct (haveDateutil s0).
  - apply record_run.
  - unfold emitRet. now rewrite afterCalls_nil.
Qed.

Lemma typeVar_declared (stringEscape : string -> string) (s : EmitState) :
  haveTypeVar s = true ->
  (typeHints (features o) = true ->
   imported "typing" "TypeVar" (imports (renderState s))) ->
  (tvar <~ typeVar o ;; emitTypeVar o stringEscape tvar (Arr [])) s
  = Done (tt, afterCalls s
                (if typeHints (features o)
                 then [typeVarLine o stringEscape (depth s) "T" (Arr [])]
                 else [])).
Proof.
  intros Hflag Hin. unfold emitBind. rewrite (typeVar_present s Hflag Hin).
  now apply emitTypeVar_present.
Qed.

Lemma enumTypeVar_declared (stringEscape : string -> string) (s : EmitState) :
  haveEnumTypeVar s = true ->
  (typeHints (features o) = true ->
   imported "typing" "TypeVar" (imports (renderState s))) ->
  imported "enum" "Enum" (imports (renderState s)) ->
  (tvar <~ enumTypeVar o ;;
   e <~ liftGen (withImport o "enum" "Enum") ;;
   emitTypeVar o stringEscape tvar (Arr [Str ", bound="; e])) s
  = Done (tt, afterCalls s
                (if typeHints (features o)
                 then [typeVarLine o stringEscape (depth s) "EnumT"
                         (Arr [Str ", bound="; Str "Enum"])]
                 else [])).
Proof.
  intros Hflag Hin Henum. unfold emitBind at 1.
  rewrite (enumTypeVar_present s Hflag Hin Henum).
  unfold emitBind, liftGen.
  rewrite withImport_present by (intros _; exact Henum).
  assert (Heta : {| renderState := renderState s; haveTypeVar := haveTypeVar s;
                    haveEnumTypeVar := haveEnumTypeVar s;
                    haveDateutil := haveDateutil s; depth := depth s;
                    calls := calls s |} = s) by (now destruct s).
  rewrite Heta. now apply emitTypeVar_present.
Qed.

(** X15. Once the type variable flags have their imports, [emitImports]
    only prints: it writes one line for every module of the imports, in
    their order, then the dateutil import, the blank lines and the type
    variable declarations that the flags ask for, and it leaves the
    imports, the converters in use and the flags as they were; no import is
    recorded after the import lines have been written. *)
Theorem emitImports_only_prints (stringEscape : string -> string) (s : EmitState) :
  TypeVarsRecorded o s ->
  emitImports o stringEscape s
  = Done (tt, afterCalls s
                (map (importLine (depth s)) (imports (renderState s))
                 ++ afterImports o stringEscape s)).
Proof.
  intros [Htv Henum]. unfold emitImports, afterImports.
  unfold emitBind at 1. rewrite emitImportsBase_run.
  set (base := map (importLine (depth s)) (imports (renderState s))).
  cbv beta iota. unfold emitBind at 1. rewrite dateutil_step, afterCalls_app.
  cbv beta iota.
  change (haveDateutil (afterCalls s base)) with (haveDateutil s).
  change (depth (afterCalls s base)) with (depth s).
  set (dl := if haveDateutil s
             then [EmitLine (depth s) [Str "import dateutil.parser"]] else []).
  change (haveTypeVar (afterCalls s (base ++ dl))) with (haveTypeVar s).
  change (haveEnumTypeVar (afterCalls s (base ++ dl))) with (haveEnumTypeVar s).
  destruct (haveTypeVar s) eqn:Hflag; destruct (haveEnumTypeVar s) eqn:Heflag;
    cbv beta iota delta [negb andb].
  - unfold emitBind at 1. unfold ensureBlankLine. rewrite record_run, afterCalls_app.
    cbv beta iota. unfold emitBind at 1.
    change (haveTypeVar (afterCalls s ((base ++ dl) ++ [EnsureBlankLine
              (depth (afterCalls s (base ++ dl))) 2]))) with (haveTypeVar s).
    rewrite Hflag. rewrite typeVar_declared by auto. rewrite afterCalls_app.
    cbv beta iota.
    match goal with
    | |- context [haveEnumTypeVar (afterCalls s ?l)] =>
        change (haveEnumTypeVar (afterCalls s l)) with (haveEnumTypeVar s)
    end.
    rewrite Heflag. rewrite enumTypeVar_declared by auto. rewrite afterCalls_app.
    rewrite <- !app_assoc. reflexivity.
  - unfold emitBind at 1. unfold ensureBlankLine. rewrite record_run, afterCalls_app.
    cbv beta iota. unfold emitBind at 1.
    change (haveTypeVar (afterCalls s ((base ++ dl) ++ [EnsureBlankLine
              (depth (afterCalls s (base ++ dl))) 2]))) with (haveTypeVar s).
    rewrite Hflag. rewrite typeVar_declared by auto. rewrite afterCalls_app.
    cbv beta iota.
    match goal with
    | |- context [haveEnumTypeVar (afterCalls s ?l)] =>
        change (haveEnumTypeVar (afterCalls s l)) with (haveEnumTypeVar s)
    end.
    rewrite Heflag. unfold emitRet. rewrite app_nil_r, <- !app_assoc. reflexivity.
  - unfold emitBind at 1. unfold ensureBlankLine. rewrite record_run, afterCalls_app.
    cbv beta iota. unfold emitBind at 1.
    change (haveTypeVar (afterCalls s ((base ++ dl) ++ [EnsureBlankLine
              (depth (afterCalls s (base ++ dl))) 2]))) with (haveTypeVar s).
    rewrite Hflag. unfold emitRet at 1. cbv beta iota.
    match goal with
    | |- context [haveEnumTypeVar (afterCalls s ?l)] =>
        change (haveEnumTypeVar (afterCalls s l)) with (haveEnumTypeVar s)
    end.
    rewrite Heflag. rewrite enumTypeVar_declared by auto.
    rewrite afterCalls_app, <- !app_assoc. reflexivity.
  - unfold emitRet. now rewrite app_nil_r.
Qed.

End EmitterFacts.

(** ** The target language and the compiler *)

Lemma needsTransformer_not_plain (t : QType) :
  everyShape (fun _ => true) t = true ->
  needsTransformerForType t = true ->
  everyShape isDateTimeOrPlain t = false.
Proof.
  revert t.
  apply (QType_induction
           (fun t => everyShape (fun _ => true) t = true ->
                     needsTransformerForType t = true ->
                     everyShape isDateTimeOrPlain t = false)
           (fun _ => True)); try (intros; exact I).
  - intros shape Hshape _ Hneeds.
    destruct shape as [| | | | | |items|name|values|name|members|k];
      try contradiction; try discriminate Hneeds.
    destruct k; try discriminate Hneeds. reflexivity.
  - intros items _ _ Hneeds. discriminate Hneeds.
  - intros values _ _ Hneeds. discriminate Hneeds.
  - intros members IH Hfree Hneeds.
    cbn [everyShape andb] in Hfree |- *. cbn [needsTransformerForType] in Hneeds.
    apply existsb_exists in Hneeds as [m [Hin Hm]].
    rewrite forallb_forall in Hfree. rewrite Forall_forall in IH.
    destruct (forallb (everyShape isDateTimeOrPlain) members) eqn:Hall; [|reflexivity].
    rewrite forallb_forall in Hall. specialize (Hall m Hin).
    now rewrite (IH m Hin (Hfree m Hin) Hm) in Hall.
  - intros tgt x rtgt rx shape _ _ _ _ Hfree. discriminate Hfree.
Qed.

Section TargetLanguage.
Context `{SourceSupport}.
Variable o : PythonOptions.

(** X16. A type for which the target language asks for a transformer
    cannot be compiled without one: when no transformation is attached, both
    directions panic on it, whatever the input and the state.  And for the
    kinds that [stringTypeMapping] maps to, the plain type compiles exactly
    when the target language asks for no transformer. *)
Theorem needed_transformer_is_required (t : QType) (input : ValueOrLambda) :
  (everyShape (fun _ => true) t = true ->
   needsTransformerForType t = true ->
   PanicsWith unsupportedMessage (deserializer o input t)
   /\ PanicsWith unsupportedMessage (serializer o input t))
  /\ (forall k k', In (k, k') stringTypeMapping ->
        let plainType := MkType None (TransformedStringType k') in
        if needsTransformerForType plainType
        then PanicsWith unsupportedMessage (deserializer o input plainType)
             /\ PanicsWith unsupportedMessage (serializer o input plainType)
        else Succeeds (deserializer o input plainType)
             /\ Succeeds (serializer o input plainType)).
Proof.
  split.
  - intros Hfree Hneeds.
    pose proof (outcome_all o t Hfree input) as Hout.
    now rewrite (needsTransformer_not_plain t Hfree Hneeds) in Hout.
  - intros k k' Hin plainType. subst plainType.
    assert (Hk : k' = KDateTime \/ k' = KIntegerString).
    { cbn in Hin.
      repeat (destruct Hin as [Hin|Hin]; [inversion Hin; auto|]). contradiction. }
    destruct Hk as [-> | ->].
    + exact (outcome_all o (MkType None (TransformedStringType KDateTime)) eq_refl input).
    + exact (outcome_all o (MkType None (TransformedStringType KIntegerString))
               eq_refl input).
Qed.

End TargetLanguage.

(** ** Identifier characters of version 3 *)

Section IdentifierCharacters.
Context `{UnicodeData}.

(** X17. Under version 3 a code unit that may start an identifier may also
    continue one, whatever the Unicode tables say; and both checks only see
    the code unit modulo 2^16, as [String.fromCharCode] does. *)
Theorem start_character_is_part_character (u : Z) :
  (isStartCharacter3 u = true -> isPartCharacter3 u = true)
  /\ (forall k, isStartCharacter3 (u + 65536 * k) = isStartCharacter3 u
                /\ isPartCharacter3 (u + 65536 * k) = isPartCharacter3 u).
Proof.
  split.
  - unfold isStartCharacter3, isPartCharacter3.
    destruct (normalizeNFKC (fromCharCode u)) as [|c0 rest]; [discriminate|].
    destruct (isNormalizedStartCharacter3 c0) eqn:Hstart; [|discriminate].
    cbn [negb forallb]. intros Hrest.
    assert (Hpart : isNormalizedPartCharacter3 c0 = true).
    { unfold isNormalizedPartCharacter3. now rewrite Hstart. }
    now rewrite Hpart.
  - intros k. unfold isStartCharacter3, isPartCharacter3, fromCharCode.
    replace ((u + 65536 * k) mod 65536)%Z with (u mod 65536)%Z; [split; reflexivity|].
    rewrite Z.mul_comm. now rewrite Z.mod_add by lia.
Qed.

End IdentifierCharacters.

(** ** The round trip through the compiled converters *)

Section RoundTrip.
Variables Float Exn World : Type.
Variable AssertionError : Exn.
Variable floatOfInt : Z -> Exn + Float.
Variable version : PythonVersion.

Local Abbreviation PyValue := (PyValue Float).
Local Abbreviation PyCallable := (PyCallable Float Exn World).
Local Abbreviation callEach := (callEach Float Exn World).
Local Abbreviation callEachValue := (callEachValue Float Exn World).
Local Abbreviation from_list := (from_list Float Exn World AssertionError).
Local Abbreviation from_dict := (from_dict Float Exn World AssertionError).
Local Abbreviation deserializerOf :=
  (deserializerOf Float Exn World AssertionError floatOfInt version).
Local Abbreviation serializerOf :=
  (serializerOf Float Exn World AssertionError version).
Local Abbreviation matchesShape := (matchesShape Float version).

(** What the round trip needs of a pair of converters for one type:
    [d] and [s] return a value that [exact] accepts as it is; what [d]
    returns, it returns for a value that [loose] accepts, and [exact]
    accepts it; [s] only returns what [exact] accepts, as it is. *)
Definition Converts (loose exact : PyValue -> bool) (d s : PyCallable) : Prop :=
  (forall v w, exact v = true -> d v w = (inr v, w) /\ s v w = (inr v, w))
  /\ (forall v w v' w', d v w = (inr v', w') ->
        w' = w /\ loose v = true /\ exact v' = true)
  /\ (forall v w v' w', s v w = (inr v', w') ->
        v' = v /\ w' = w /\ exact v = true).

Lemma callEach_accepts (f : PyCallable) (ok : PyValue -> bool) (ys : list PyValue)
    (w : World) :
  (forall v w0, ok v = true -> f v w0 = (inr v, w0)) ->
  forallb ok ys = true -> callEach f ys w = (inr ys, w).
Proof.
  intros Hf. induction ys as [|y rest IH]; intros Hall; [reflexivity|].
  cbn [forallb] in Hall. apply andb_prop in Hall as [Hy Hrest].
  cbn [callEach]. now rewrite (Hf y w Hy), (IH Hrest).
Qed.

Lemma callEach_returns (f : PyCallable) (before after : PyValue -> bool)
    (ys ys' : list PyValue) (w w' : World) :
  (forall v w0 v' w1, f v w0 = (inr v', w1) ->
      w1 = w0 /\ before v = true /\ after v' = true) ->
  callEach f ys w = (inr ys', w') ->
  w' = w /\ forallb before ys = true /\ forallb after ys' = true.
Proof.
  intros Hf. revert ys' w'. induction ys as [|y rest IH]; intros ys' w' Hrun.
  - inversion Hrun; subst. now repeat split.
  - cbn [callEach] in Hrun.
    destruct (f y w) as [[e|v] w1] eqn:Hy; [discriminate|].
    destruct (Hf y w v w1 Hy) as [-> [Hb Ha]].
    destruct (callEach f rest w) as [[e|vs] w2] eqn:Hrest; [discriminate|].
    inversion Hrun; subst. destruct (IH vs w' eq_refl) as [-> [Hbs Has]].
    cbn [forallb]. now rewrite Hb, Ha, Hbs, Has.
Qed.

Lemma callEach_unchanged (f : PyCallable) (ok : PyValue -> bool)
    (ys ys' : list PyValue) (w w' : World) :
  (forall v w0 v' w1, f v w0 = (inr v', w1) -> v' = v /\ w1 = w0 /\ ok v = true) ->
  callEach f ys w = (inr ys', w') ->
  ys' = ys /\ w' = w /\ forallb ok ys = true.
Proof.
  intros Hf. revert ys' w'. induction ys as [|y rest IH]; intros ys' w' Hrun.
  - inversion Hrun; subst. now repeat split.
  - cbn [callEach] in Hrun.
    destruct (f y w) as [[e|v] w1] eqn:Hy; [discriminate|].
    destruct (Hf y w v w1 Hy) as [-> [-> Hok]].
    destruct (callEach f rest w) as [[e|vs] w2] eqn:Hrest; [discriminate|].
    inversion Hrun; subst. destruct (IH vs w' eq_refl) as [-> [-> Hoks]].
    cbn [forallb]. now rewrite Hok, Hoks.
Qed.

Lemma callEachValue_accepts (f : PyCallable) (ok : PyValue -> bool)
    (kvs : list (PyValue * PyValue)) (w : World) :
  (forall v w0, ok v = true -> f v w0 = (inr v, w0)) ->
  forallb (fun kv => ok (snd kv)) kvs = true -> callEachValue f kvs w = (inr kvs, w).
Proof.
  intros Hf. induction kvs as [|[k y] rest IH]; intros Hall; [reflexivity|].
  cbn [forallb snd] in Hall. apply andb_prop in Hall as [Hy Hrest].
  cbn [callEachValue]. now rewrite (Hf y w Hy), (IH Hrest).
Qed.

Lemma callEachValue_returns (f : PyCallable) (before after : PyValue -> bool)
    (kvs kvs' : list (PyValue * PyValue)) (w w' : World) :
  (forall v w0 v' w1, f v w0 = (inr v', w1) ->
      w1 = w0 /\ before v = true /\ after v' = true) ->
  callEachValue f kvs w = (inr kvs', w') ->
  w' = w /\ forallb (fun kv => before (snd kv)) kvs = true
  /\ forallb (fun kv => after (snd kv)) kvs' = true.
Proof.
  intros Hf. revert kvs' w'. induction kvs as [|[k y] rest IH]; intros kvs' w' Hrun.
  - inversion Hrun; subst. now repeat split.
  - cbn [callEachValue] in Hrun.
    destruct (f y w) as [[e|v] w1] eqn:Hy; [discriminate|].
    destruct (Hf y w v w1 Hy) as [-> [Hb Ha]].
    destruct (callEachValue f rest w) as [[e|vs] w2] eqn:Hrest; [discriminate|].
    inversion Hrun; subst. destruct (IH vs w' eq_refl) as [-> [Hbs Has]].
    cbn [forallb snd]. now rewrite Hb, Ha, Hbs, Has.
Qed.

Lemma callEachValue_unchanged (f : PyCallable) (ok : PyValue -> bool)
    (kvs kvs' : list (PyValue * PyValue)) (w w' : World) :
  (forall v w0 v' w1, f v w0 = (inr v', w1) -> v' = v /\ w1 = w0 /\ ok v = true) ->
  callEachValue f kvs w = (inr kvs', w') ->
  kvs' = kvs /\ w' = w /\ forallb (fun kv => ok (snd kv)) kvs = true.
Proof.
  intros Hf. revert kvs' w'. induction kvs as [|[k y] rest IH]; intros kvs' w' Hrun.
  - inversion Hrun; subst. now repeat split.
  - cbn [callEachValue] in Hrun.
    destruct (f y w) as [[e|v] w1] eqn:Hy; [discriminate|].
    destruct (Hf y w v w1 Hy) as [-> [-> Hok]].
    destruct (callEachValue f rest w) as [[e|vs] w2] eqn:Hrest; [discriminate|].
    inversion Hrun; subst. destruct (IH vs w' eq_refl) as [-> [-> Hoks]].
    cbn [forallb snd]. now rewrite Hok, Hoks.
Qed.

Lemma Converts_list (loose exact : PyValue -> bool) (d s : PyCallable) :
  Converts loose exact d s ->
  Converts
    (fun v => match v with PyList _ ys => forallb loose ys | _ => false end)
    (fun v => match v with PyList _ ys => forallb exact ys | _ => false end)
    (from_list d) (from_list s).
Proof.
  intros [Hacc [Hd Hs]]. split; [|split].
  - intros v w Hv. destruct v; try discriminate Hv.
    unfold from_list.
    rewrite (callEach_accepts d exact _ w (fun v w0 Hok => proj1 (Hacc v w0 Hok)) Hv).
    now rewrite (callEach_accepts s exact _ w (fun v w0 Hok => proj2 (Hacc v w0 Hok)) Hv).
  - intros v w v' w' Hrun. unfold from_list in Hrun.
    destruct v; try discriminate Hrun.
    destruct (callEach d items w) as [[e|vs] w1] eqn:Hcall; [discriminate|].
    inversion Hrun; subst.
    exact (callEach_returns d loose exact _ _ _ _ Hd Hcall).
  - intros v w v' w' Hrun. unfold from_list in Hrun.
    destruct v; try discriminate Hrun.
    destruct (callEach s items w) as [[e|vs] w1] eqn:Hcall; [discriminate|].
    inversion Hrun; subst.
    destruct (callEach_unchanged s exact _ _ _ _ Hs Hcall) as [-> [-> Hok]].
    now repeat split.
Qed.

Lemma Converts_dict (loose exact : PyValue -> bool) (d s : PyCallable) :
  Converts loose exact d s ->
  Converts
    (fun v => match v with
              | PyDict _ kvs => forallb (fun kv => loose (snd kv)) kvs
              | _ => false
              end)
    (fun v => match v with
              | PyDict _ kvs => forallb (fun kv => exact (snd kv)) kvs
              | _ => false
              end)
    (from_dict d) (from_dict s).
Proof.
  intros [Hacc [Hd Hs]]. split; [|split].
  - intros v w Hv. destruct v; try discriminate Hv.
    unfold from_dict.
    rewrite (callEachValue_accepts d exact _ w (fun v w0 Hok => proj1 (Hacc v w0 Hok)) Hv).
    now rewrite (callEachValue_accepts s exact _ w
                   (fun v w0 Hok => proj2 (Hacc v w0 Hok)) Hv).
  - intros v w v' w' Hrun. unfold from_dict in Hrun.
    destruct v; try discriminate Hrun.
    destruct (callEachValue d items w) as [[e|vs] w1] eqn:Hcall; [discriminate|].
    inversion Hrun; subst.
    exact (callEachValue_returns d loose exact _ _ _ _ Hd Hcall).
  - intros v w v' w' Hrun. unfold from_dict in Hrun.
    destruct v; try discriminate Hrun.
    destruct (callEachValue s items w) as [[e|vs] w1] eqn:Hcall; [discriminate|].
    inversion Hrun; subst.
    destruct (callEachValue_unchanged s exact _ _ _ _ Hs Hcall) as [-> [-> Hok]].
    now repeat split.
Qed.

Lemma Converts_ext (loose loose' exact exact' : PyValue -> bool) (d s : PyCallable) :
  (forall v, loose v = loose' v) -> (forall v, exact v = exact' v) ->
  Converts loose exact d s -> Converts loose' exact' d s.
Proof.
  intros Hl He [Hacc [Hd Hs]]. split; [|split].
  - intros v w Hv. rewrite <- He in Hv. now apply Hacc.
  - intros v w v' w' Hrun. rewrite <- Hl, <- He. now apply (Hd v w v' w').
  - intros v w v' w' Hrun. rewrite <- He. now apply (Hs v w v' w').
Qed.

(** The round trip, for every type of plain JSON shapes. *)
Lemma converts_plain (t : QType) :
  everyShape isPlainJsonShape t = true ->
  exists d s,
    deserializerOf t = Some d /\ serializerOf t = Some s
    /\ Converts (matchesShape false t) (matchesShape true t) d s.
Proof.
  revert t.
  apply (QType_induction
           (fun t => everyShape isPlainJsonShape t = true ->
                     exists d s,
                       deserializerOf t = Some d /\ serializerOf t = Some s
                       /\ Converts (matchesShape false t) (matchesShape true t) d s)
           (fun _ => True)); try (intros; exact I).
  - intros shape Hshape Hplain.
    destruct shape as [| | | | | |items|name|values|name|members|k];
      try contradiction; try discriminate Hplain;
      do 2 eexists; (split; [reflexivity|]); (split; [reflexivity|]);
      (split; [|split]).
    all: try (intros v w Hv; destruct v; try discriminate Hv; split; reflexivity).
    all: try (intros v w v' w' Hrun; destruct v; inversion Hrun; subst;
              repeat split; reflexivity).
    + (* double: the deserializer on an exact match *)
      intros v w v' w' Hrun. destruct v; try discriminate Hrun.
      * cbn in Hrun. destruct (floatOfInt n) as [e|x]; [discriminate|].
        inversion Hrun; subst. now repeat split.
      * inversion Hrun; subst. now repeat split.
    + (* string, version by version *)
      intros v w Hv. destruct version, v; try discriminate Hv; split; reflexivity.
    + intros v w v' w' Hrun. destruct version, v; inversion Hrun; subst;
        repeat split; reflexivity.
    + intros v w v' w' Hrun. destruct version, v; inversion Hrun; subst;
        repeat split; reflexivity.
  - intros items IH Hplain. cbn [everyShape andb isPlainJsonShape] in Hplain.
    destruct (IH Hplain) as [d [s [Hd [Hs Hconv]]]].
    exists (from_list d), (from_list s).
    cbn [deserializerOf serializerOf]. rewrite Hd, Hs.
    split; [reflexivity|]. split; [reflexivity|].
    eapply Converts_ext; [| |exact (Converts_list _ _ d s Hconv)];
      intros v; destruct v; reflexivity.
  - intros values IH Hplain. cbn [everyShape andb isPlainJsonShape] in Hplain.
    destruct (IH Hplain) as [d [s [Hd [Hs Hconv]]]].
    exists (from_dict d), (from_dict s).
    cbn [deserializerOf serializerOf]. rewrite Hd, Hs.
    split; [reflexivity|]. split; [reflexivity|].
    eapply Converts_ext; [| |exact (Converts_dict _ _ d s Hconv)];
      intros v; destruct v; reflexivity.
  - intros members _ Hplain. discriminate Hplain.
  - intros tgt x rtgt rx shape _ _ _ _ Hplain. discriminate Hplain.
Qed.


End RoundTrip.

(** ** The further properties at sample inputs *)

Lemma compiler_keeps_mode_witness :
  exists vol s',
    deserializer options36 (variable "x") (plain (ArrayType (plain IntegerType)))
      emptyRenderState = Done (vol, s')
    /\ hasValue vol = hasValue (variable "x").
Proof.
  destruct (deserializer options36 (variable "x") (plain (ArrayType (plain IntegerType)))
              emptyRenderState) as [[vol s']|msg] eqn:Hrun; [|discriminate Hrun].
  exists vol, s'. split; [reflexivity|].
  exact (proj1 (compiler_keeps_mode options36 (variable "x")
                  (plain (ArrayType (plain IntegerType)))
                  (EncodingTransformer (plain AnyType)) emptyRenderState s' vol) Hrun).
Defined.

Lemma makeValue_after_compiling_witness :
  hasValue (variable "x") = true
  /\ exists vol s',
       deserializer options36 (variable "x") (plain (ArrayType (plain IntegerType)))
         emptyRenderState = Done (vol, s')
       /\ exists e, makeValue vol s' = Done (e, s').
Proof.
  split; [reflexivity|].
  destruct (deserializer options36 (variable "x") (plain (ArrayType (plain IntegerType)))
              emptyRenderState) as [[vol s']|msg] eqn:Hrun; [|discriminate Hrun].
  exists vol, s'. split; [reflexivity|].
  exact (makeValue_after_compiling options36 (variable "x")
           (plain (ArrayType (plain IntegerType))) emptyRenderState s' vol
           eq_refl (or_introl Hrun)).
Defined.

Lemma compiler_registers_append_only_witness :
  exists vol s',
    deserializer options36 (variable "x") (plain (ArrayType (plain IntegerType)))
      emptyRenderState = Done (vol, s')
    /\ (exists more, deserializerFunctions s' = deserializerFunctions emptyRenderState ++ more)
    /\ (NoDup (deserializerFunctions emptyRenderState) -> NoDup (deserializerFunctions s')).
Proof.
  destruct (deserializer options36 (variable "x") (plain (ArrayType (plain IntegerType)))
              emptyRenderState) as [[vol s']|msg] eqn:Hrun; [|discriminate Hrun].
  exists vol, s'. split; [reflexivity|].
  exact (compiler_registers_append_only options36 (variable "x")
           (plain (ArrayType (plain IntegerType)))
           (EncodingTransformer (plain AnyType)) emptyRenderState s' vol
           (or_introl Hrun)).
Defined.

Lemma compiler_imports_datetime_only_witness :
  exists vol s',
    transformer options36 (variable "x")
      (UnionMemberMatchTransformer (plain AnyType) None
         (plain (TransformedStringType KDateTime)))
      (plain AnyType) emptyRenderState = Done (vol, s')
    /\ (imports s' = imports emptyRenderState
        \/ imports s' = addImport "datetime" "datetime" (imports emptyRenderState)).
Proof.
  destruct (transformer options36 (variable "x")
              (UnionMemberMatchTransformer (plain AnyType) None
                 (plain (TransformedStringType KDateTime)))
              (plain AnyType) emptyRenderState) as [[vol s']|msg] eqn:Hrun;
    [|discriminate Hrun].
  exists vol, s'. split; [reflexivity|].
  exact (compiler_imports_datetime_only options36 (variable "x") (plain AnyType)
           (UnionMemberMatchTransformer (plain AnyType) None
              (plain (TransformedStringType KDateTime))) emptyRenderState s' vol
           (or_intror (or_intror Hrun))).
Defined.

Lemma compiler_outcome_witness :
  everyShape (fun _ => true) dateTimes = true
  /\ (exists vol s',
        deserializer options36 (variable "x") dateTimes emptyRenderState = Done (vol, s'))
  /\ everyShape (fun _ => true) optionalIntegerString = true
  /\ (exists msg,
        deserializer options36 (variable "x") optionalIntegerString emptyRenderState
        = Panicked msg
        /\ unsupportedMessage msg).
Proof.
  split; [reflexivity|]. split.
  - exact (proj1 (compiler_outcome options36 dateTimes (variable "x") eq_refl)
             emptyRenderState).
  - split; [reflexivity|].
    exact (proj1 (compiler_outcome options36 optionalIntegerString (variable "x") eq_refl)
             emptyRenderState).
Defined.

Lemma serializer_is_deserializer_witness :
  everyShape isJsonShape optionalStrings = true
  /\ serializer options36 (variable "x") optionalStrings
     = deserializer options36 (variable "x") optionalStrings.
Proof.
  split; [reflexivity|].
  apply (serializer_is_deserializer options36 optionalStrings (variable "x")).
  reflexivity.
Defined.

Lemma primitive_converters_check_witness :
  from_int Z string (list string) "AssertionError" (PyBool Z true) ["log"]
  = (inl "AssertionError", ["log"])
  /\ from_int Z string (list string) "AssertionError" (PyInt Z 7) ["log"]
     = (inr (PyInt Z 7), ["log"]).
Proof.
  destruct (primitive_converters_check Z string (list string) "AssertionError"
              exactFloat V3) as [_ [_ [_ [_ [_ [Hbool Hint]]]]]].
  split; [exact (proj1 (Hbool true ["log"]))|exact (Hint 7%Z ["log"])].
Defined.

Lemma from_list_behaviour_witness :
  callEach Z string (list string) bumping [PyInt Z 1] [] = (inr [PyInt Z 2], ["ok"])
  /\ bumping (PyStr Z "a") ["ok"] = (inl "TypeError", ["ok"; "bad"])
  /\ from_list Z string (list string) "AssertionError" bumping
       (PyList Z [PyInt Z 1; PyStr Z "a"; PyInt Z 3]) []
     = (inl "TypeError", ["ok"; "bad"]).
Proof.
  split; [reflexivity|]. split; [reflexivity|].
  exact (proj1 (proj2 (from_list_behaviour Z string (list string) "AssertionError" bumping))
           [PyInt Z 1] [PyInt Z 3] (PyStr Z "a") [PyInt Z 2] "TypeError"
           [] ["ok"] ["ok"; "bad"] eq_refl eq_refl).
Defined.

Lemma checking_converters_compose_witness :
  let ints := from_list Z string (list string) "AssertionError"
                (from_int Z string (list string) "AssertionError") in
  ints (PyList Z [PyInt Z 1; PyInt Z 2]) ["log"]
  = (inr (PyList Z [PyInt Z 1; PyInt Z 2]), ["log"]).
Proof.
  intros ints.
  destruct (checking_converters_compose Z string (list string) "AssertionError")
    as [Hlist [_ [_ Hround]]].
  assert (Hints : Checks Z string (list string) ints).
  { apply Hlist.
    apply (Checks_assertReturn Z string (list string) "AssertionError"
             (fun x => isInt Z x && negb (isBool Z x))). }
  exact (proj2 (proj2 (Hround ints (PyList Z [PyInt Z 1; PyInt Z 2]) ["log"]
                         (PyList Z [PyInt Z 1; PyInt Z 2]) ["log"] Hints eq_refl))).
Defined.

Lemma from_float_to_float_witness :
  exactFloat 3 = inr 3%Z
  /\ from_float Z string (list string) "AssertionError" exactFloat (PyInt Z 3) []
     = (inr (PyFloat Z 3%Z), [])
  /\ to_float Z string (list string) "AssertionError" (PyFloat Z 3%Z) []
     = (inr (PyFloat Z 3%Z), []).
Proof.
  destruct (from_float_to_float Z string (list string) "AssertionError" exactFloat)
    as [Hround [Hint _]].
  split; [reflexivity|].
  pose proof (Hint 3%Z [] 3%Z eq_refl) as Hrun.
  split; [exact Hrun|].
  exact (proj2 (Hround _ _ _ _ Hrun)).
Defined.

Lemma withImport_records_witness :
  withImport options27 "typing" "Any" emptyRenderState = Done (Str "Any", emptyRenderState)
  /\ exists s',
       withImport options36 "typing" "Any" emptyRenderState = Done (Str "Any", s')
       /\ imported "typing" "Any" (imports s').
Proof.
  split.
  - destruct (withImport_records options27 "typing" "Any" emptyRenderState)
      as [s' [Hrun [_ [Hsame _]]]].
    rewrite Hrun. now rewrite (Hsame eq_refl eq_refl).
  - destruct (withImport_records options36 "typing" "Any" emptyRenderState)
      as [s' [Hrun [_ [_ Hon]]]].
    exists s'. split; [exact Hrun|]. exact (proj1 (Hon (or_introl eq_refl))).
Defined.

Lemma emitConverter_defines_witness :
  exists s' first rest,
    emitConverter options36 CfList initialEmitState = Done (tt, s')
    /\ calls s' = first :: rest
    /\ startsWith (headText first) "def from_list(" = true.
Proof.
  destruct (emitConverter_defines options36 CfList initialEmitState)
    as [s' [first [rest [Hrun [Hcalls [Hhead _]]]]]].
  exists s', first, rest. split; [exact Hrun|]. split; [exact Hcalls|].
  exact (Hhead emptyRenderState _ _ eq_refl).
Defined.

Lemma emitConverter_keeps_TypeVarsRecorded_witness :
  TypeVarsRecorded options36 initialEmitState
  /\ exists s',
       emitConverter options36 CfList initialEmitState = Done (tt, s')
       /\ TypeVarsRecorded options36 s'.
Proof.
  assert (Hinit : TypeVarsRecorded options36 initialEmitState).
  { split; [intros [Hflag|Hflag]; discriminate Hflag|intros Hflag; discriminate Hflag]. }
  split; [exact Hinit|].
  exact (emitConverter_keeps_TypeVarsRecorded options36 CfList initialEmitState Hinit).
Defined.

Lemma blankLinesBefore_iterates {K V : Type} (entries : list (K * V))
    (config : string * nat) (emitter : V -> K -> Emit unit) :
  (forall k v s0, exists s1, emitter v k s0 = Done (tt, s1)) ->
  forall first s,
    exists s', blankLinesBefore first entries config emitter s = Done (tt, s')
               /\ Iterates emitter entries s s'.
Proof.
  intros Hreturns. induction entries as [|[k v] rest IH]; intros first s.
  - exists s. split; [reflexivity|constructor].
  - destruct (Hreturns k v (afterCalls s [EnsureBlankLine (depth s) first]))
      as [s1 Hrun].
    destruct (IH (snd config) s1) as [s' [Hrest Hruns]].
    exists s'. split.
    + cbn [blankLinesBefore]. unfold emitBind at 1. unfold ensureBlankLine.
      rewrite record_run. unfold emitBind at 1. rewrite Hrun. exact Hrest.
    + apply IteratesBlankLine with (n := first).
      now apply IteratesEntry with (s1 := s1).
Qed.

Lemma emitSupportCode_defines_all_witness :
  let forEach := fun K V => @blankLinesBefore K V 0 in
  IteratesWithBlankLines forEach
  /\ exists s' more,
       emitSupportCode options36 forEach recordedState = Done (tt, s')
       /\ calls s' = more
       /\ DefinesInOrder options36 [CfList; CfInt] more.
Proof.
  intros forEach.
  assert (Hhelper : IteratesWithBlankLines forEach).
  { intros K V entries config emitter s Hreturns.
    exact (blankLinesBefore_iterates entries config emitter Hreturns 0 s). }
  split; [exact Hhelper|].
  destruct (emitSupportCode_defines_all options36 forEach recordedState Hhelper)
    as [s' [more [Hrun [Hcalls [Hdefs _]]]]].
  exists s', more. split; [exact Hrun|]. split; [exact Hcalls|exact Hdefs].
Defined.

Lemma emitImports_only_prints_witness :
  TypeVarsRecorded options36 recordedState
  /\ emitImports options36 (fun s => s) recordedState
     = Done (tt, afterCalls recordedState
                   [EmitLine 0 [Str "from "; Str "typing"; Str " import ";
                                Str "TypeVar, Callable, Any, List"];
                    EnsureBlankLine 0 2;
                    typeVarLine options36 (fun s => s) 0 "T" (Arr [])]).
Proof.
  assert (Hrec : TypeVarsRecorded options36 recordedState).
  { split.
    - intros _ _. exists ["TypeVar"; "Callable"; "Any"; "List"].
      split; [reflexivity|left; reflexivity].
    - intros Hflag. discriminate Hflag. }
  split; [exact Hrec|].
  rewrite (emitImports_only_prints options36 (fun s => s) recordedState Hrec).
  reflexivity.
Defined.

Lemma needed_transformer_is_required_witness :
  everyShape (fun _ => true) optionalIntegerString = true
  /\ needsTransformerForType optionalIntegerString = true
  /\ exists msg,
       serializer options36 (variable "x") optionalIntegerString emptyRenderState
       = Panicked msg
       /\ unsupportedMessage msg.
Proof.
  split; [reflexivity|]. split; [reflexivity|].
  exact (proj2 (proj1 (needed_transformer_is_required options36 optionalIntegerString
                         (variable "x")) eq_refl eq_refl) emptyRenderState).
Defined.

Lemma start_character_is_part_character_witness :
  @isStartCharacter3 latinData 233%Z = true
  /\ @isPartCharacter3 latinData 233%Z = true.
Proof.
  split; [reflexivity|].
  exact (proj1 (@start_character_is_part_character latinData 233%Z) eq_refl).
Defined.

Lemma transformer_choice_witness :
  let branches := [DecodingTransformer (plain IntegerType) None;
                   UnionInstantiationTransformer (plain AnyType)] in
  let vols := [ {| value := None; lambda := Some (singleWord [Arr [Str "from_"; Str "int"]]) |};
                identity ] in
  RunsInOrder (fun x => transformer options36 identity x (plain AnyType))
    branches vols emptyRenderState
    {| imports := []; deserializerFunctions := [CfInt] |}
  /\ transformer options36 (variable "x") (ChoiceTransformer (plain AnyType) branches)
       (plain AnyType) emptyRenderState
     = Done ({| value :=
                  Some (Arr [Arr [Str "from_"; Str "union"]; Str "([";
                             Arr [Arr [Arr [Str "from_"; Str "int"]]; Str ", ";
                                  Arr [Str "lambda x:"; Str " "; Str "x"]];
                             Str "], "; Str "x"; Str ")"]);
                lambda := None |},
             {| imports := []; deserializerFunctions := [CfInt; CfUnion] |})
  /\ rendered (transformer options36 identity
                 (DecodingChoiceTransformer (plain AnyType) branches)
                 (plain AnyType) emptyRenderState)
     = inl (None, Some "lambda x: from_union([from_int, lambda x: x], x)",
            [CfInt; CfUnion]).
Proof.
  intros branches vols.
  assert (Hruns : RunsInOrder (fun x => transformer options36 identity x (plain AnyType))
                    branches vols emptyRenderState
                    {| imports := []; deserializerFunctions := [CfInt] |}).
  { apply RunsCons with (s1 := {| imports := []; deserializerFunctions := [CfInt] |});
      [reflexivity|].
    apply RunsCons with (s1 := {| imports := []; deserializerFunctions := [CfInt] |});
      [reflexivity|constructor]. }
  split; [exact Hruns|].
  destruct (proj2 (proj2 (proj2 (proj2
              (transformer_choice options36 (variable "x") (plain AnyType) branches
                 (plain AnyType))))) vols _ _ Hruns) as [_ [_ Hchoice]].
  destruct (proj2 (proj2 (proj2 (proj2
              (transformer_choice options36 identity (plain AnyType) branches
                 (plain AnyType))))) vols _ _ Hruns) as [_ [Hdecoding _]].
  split.
  - rewrite Hchoice. reflexivity.
  - rewrite Hdecoding. reflexivity.
Defined.


